(** * LocalMoodLamp: the firmware's animation store, serial provisioning
      protocol and button state machine, embedded from [src/main.cpp].

    The embedding follows [main.cpp] function by function.  Integers are [Z]
    with the C wrap-around written out ([u8], [u16], [u32]); byte buffers are
    [list Z]; the serial port, the clock and the pins are a list of
    observations, one per look the firmware takes at them; the EEPROM is a
    byte-addressed memory. *)

From Stdlib Require Import ZArith List Bool Lia String Ascii.
Import ListNotations.
Open Scope Z_scope.

(* ------------------------------------------------------------------ *)
(** ** Constants of [main.cpp] *)

Definition SERIAL_PACKET : Z := 142.
Definition FRAME_SIZE : Z := 7.
Definition META_SIZE : Z := 2.
Definition BTN_TIME : Z := 200.

(** [sizeof(defaults) / sizeof(AnimationDriver::animation)]: the array
    [defaults] has six initialisers. *)
Definition DEFAULTS_COUNT : Z := 6.

(** Modelled from the spec: [AnimationDriver.h] is not under [src/]; the
    bound of the array [animation::frames] is taken from the spec's
    MAX_FRAMES = (142 - 2) / 7 = 20. *)
Definition MAX_FRAMES : Z := 20.

(** Conversions to the unsigned types of the source. *)
Definition u8 (x : Z) : Z := x mod 256.
Definition u16 (x : Z) : Z := x mod 65536.
Definition u32 (x : Z) : Z := x mod 4294967296.

Definition is_u8 (x : Z) : Prop := 0 <= x < 256.
Definition is_u32 (x : Z) : Prop := 0 <= x < 4294967296.

(* ------------------------------------------------------------------ *)
(** ** Arrays *)

Section Arrays.
Context {A : Type}.

(** [l[i] = v]; a store whose index is not below the length changes
    nothing here, and the callers that can reach one record it
    themselves (see [buf_store]). *)
Fixpoint upd (n : nat) (v : A) (l : list A) : list A :=
  match l, n with
  | [], _ => []
  | _ :: t, O => v :: t
  | h :: t, S n' => h :: upd n' v t
  end.

End Arrays.

(** Reading and writing a byte array at a [Z] index. *)
Definition rd (l : list Z) (i : Z) : Z := nth (Z.to_nat i) l 0.
Definition wr (l : list Z) (i : Z) (v : Z) : list Z := upd (Z.to_nat i) v l.

(** The values [0, 1, ..., n-1] of a [for] loop counter. *)
Definition upto (n : Z) : list Z := map Z.of_nat (seq 0 (Z.to_nat n)).

(* ------------------------------------------------------------------ *)
(** ** Keyframes and animations

    The fields are those [main.cpp] reads and writes:
    [frames[i].color[0..2]], [frames[i].time], [frameCount], [time]. *)

Record frame := mkFrame {
  color0 : Z;
  color1 : Z;
  color2 : Z;
  f_time : Z
}.

Record animation := mkAnimation {
  frameCount : Z;
  frames : list frame;
  a_time : Z
}.

Definition frame0 : frame := mkFrame 0 0 0 0.

Definition get_frame (a : animation) (i : Z) : frame :=
  nth (Z.to_nat i) (frames a) frame0.

Definition set_frame (a : animation) (i : Z) (f : frame) : animation :=
  mkAnimation (frameCount a) (upd (Z.to_nat i) f (frames a)) (a_time a).

Definition set_time (a : animation) (t : Z) : animation :=
  mkAnimation (frameCount a) (frames a) t.

Definition set_frameCount (a : animation) (n : Z) : animation :=
  mkAnimation n (frames a) (a_time a).

Definition frame_wf (f : frame) : Prop :=
  is_u8 (color0 f) /\ is_u8 (color1 f) /\ is_u8 (color2 f) /\ is_u32 (f_time f).

(** What an object of type [animation] can hold. *)
Definition animation_wf (a : animation) : Prop :=
  is_u8 (frameCount a) /\ List.length (frames a) = Z.to_nat MAX_FRAMES /\
  Forall frame_wf (frames a) /\ is_u32 (a_time a).

(** The record an [animation] stands for: its first [frameCount] keyframes
    and its total duration. *)
Definition keyframes (a : animation) : list frame :=
  firstn (Z.to_nat (frameCount a)) (frames a).

Definition same_record (a b : animation) : Prop :=
  frameCount a = frameCount b /\ keyframes a = keyframes b /\
  a_time a = a_time b.

(** A valid record of the spec: between 1 and MAX_FRAMES keyframes, and a
    total duration equal to the last keyframe's timestamp. *)
Definition valid_record (a : animation) : Prop :=
  animation_wf a /\ 1 <= frameCount a <= MAX_FRAMES /\
  a_time a = f_time (get_frame a (frameCount a - 1)).

(* ------------------------------------------------------------------ *)
(** ** Record codec *)

(** [(uint32_t)b3 << 24 | (uint32_t)b2 << 16 | (uint32_t)b1 << 8 | (uint32_t)b0] *)
Definition be32 (b3 b2 b1 b0 : Z) : Z :=
  Z.lor (Z.lor (Z.lor (Z.shiftl b3 24) (Z.shiftl b2 16)) (Z.shiftl b1 8)) b0.

(** One iteration of the [for] loop of [saveAnimationFromSerial]. *)
Definition save_frame (buff : list Z) (a : animation) (i : Z) : animation :=
  let baseIndex := u8 (i * FRAME_SIZE + 2) in
  let a1 :=
    set_frame a i
      (mkFrame (rd buff baseIndex) (rd buff (baseIndex + 1))
         (rd buff (baseIndex + 2))
         (be32 (rd buff (baseIndex + 3)) (rd buff (baseIndex + 4))
            (rd buff (baseIndex + 5)) (rd buff (baseIndex + 6)))) in
  if i =? rd buff 1 - 1 then set_time a1 (f_time (get_frame a1 i)) else a1.

(** The local [_a] of [saveAnimationFromSerial] once the loop is over.
    [_a] is not initialised: [junk] is what it holds on entry. *)
Definition parse_animation (buff : list Z) (junk : animation) : animation :=
  fold_left (save_frame buff) (upto (rd buff 1))
    (set_frameCount junk (rd buff 1)).

(** The keyframe that the bytes of [buff] from [i * FRAME_SIZE + 2] on
    spell out. *)
Definition frame_at (buff : list Z) (i : Z) : frame :=
  let b := i * FRAME_SIZE + 2 in
  mkFrame (rd buff b) (rd buff (b + 1)) (rd buff (b + 2))
    (be32 (rd buff (b + 3)) (rd buff (b + 4)) (rd buff (b + 5))
       (rd buff (b + 6))).

(** One iteration of the inner [for] loop of [handleDownloadRequest]. *)
Definition fill_frame (a : animation) (frameBuff : list Z) (fr : Z) : list Z :=
  let baseIndex := u8 (fr * FRAME_SIZE) in
  let f := get_frame a fr in
  let b0 := wr frameBuff baseIndex (color0 f) in
  let b1 := wr b0 (baseIndex + 1) (color1 f) in
  let b2 := wr b1 (baseIndex + 2) (color2 f) in
  let b3 := wr b2 (baseIndex + 3) (u8 (Z.shiftr (f_time f) 24)) in
  let b4 := wr b3 (baseIndex + 4) (u8 (Z.shiftr (f_time f) 16)) in
  let b5 := wr b4 (baseIndex + 5) (u8 (Z.shiftr (f_time f) 8)) in
  wr b5 (baseIndex + 6) (u8 (f_time f)).

(** [frameBuff] once it is filled.  The array has [frameCount * FRAME_SIZE]
    cells and is not initialised; the cells start at 0 here.  This is the
    payload for a frame count of at most [MAX_FRAMES]: above it the source
    reads past [_a.frames] and leaves cells unset, and nothing below relies
    on [frame_bytes] there. *)
Definition frame_bytes (a : animation) : list Z :=
  fold_left (fill_frame a) (upto (frameCount a))
    (repeat 0 (Z.to_nat (frameCount a * FRAME_SIZE))).

(** The bytes of one slot on the wire: the two header bytes and the
    keyframes. *)
Definition wire_bytes (slot : Z) (a : animation) : list Z :=
  [u8 slot; frameCount a] ++ frame_bytes a.

(** The wire encoding of one keyframe, in the spec's words: three colour
    bytes, then the timestamp, most significant byte first. *)
Definition keyframe_wire (f : frame) : list Z :=
  [color0 f; color1 f; color2 f;
   u8 (Z.shiftr (f_time f) 24); u8 (Z.shiftr (f_time f) 16);
   u8 (Z.shiftr (f_time f) 8); u8 (f_time f)].

(* ------------------------------------------------------------------ *)
(** ** Mode selector *)

Inductive state := IDLE | TRIGGERED | RELEASE.

(** The [static] locals of [buttonFSM]. *)
Record fsm := mkFsm {
  currentState : state;
  changeUP : bool;
  timer : Z;
  outputMode : Z
}.

Definition fsm_init : fsm := mkFsm IDLE false 0 0.

(** One call of [buttonFSM].  [up] and [dwn] are what [digitalRead] returns
    for the two pins during the call ([true] is HIGH: the pins have
    pull-ups, a pressed button reads LOW), [now] is [millis()]. *)
Definition buttonFSM (up dwn : bool) (now : Z) (s : fsm) : fsm :=
  match currentState s with
  | IDLE =>
      if negb up then mkFsm TRIGGERED true now (outputMode s)
      else if negb dwn then mkFsm TRIGGERED false now (outputMode s)
      else s
  | TRIGGERED =>
      if u32 (now - timer s) >? BTN_TIME then
        let out :=
          if changeUP s && negb up then
            u16 ((outputMode s + 1) mod DEFAULTS_COUNT)
          else if negb (changeUP s) && negb dwn then
            if outputMode s <? 1 then u16 (DEFAULTS_COUNT - 1)
            else u16 (outputMode s - 1)
          else outputMode s in
        mkFsm RELEASE (changeUP s) (timer s) out
      else s
  | RELEASE =>
      if up && dwn then mkFsm IDLE (changeUP s) (timer s) (outputMode s)
      else s
  end.

(** The pins and the clock as one call of [buttonFSM] sees them. *)
Record pins := mkPins { pin_up : bool; pin_dwn : bool; pin_now : Z }.

Definition fsm_step (s : fsm) (p : pins) : fsm :=
  buttonFSM (pin_up p) (pin_dwn p) (pin_now p) s.

(** Successive calls, one per element of the list. *)
Definition fsm_run (ps : list pins) (s : fsm) : fsm := fold_left fsm_step ps s.

(** The output one committed action leads to. *)
Definition mode_up (m : Z) : Z := if m =? DEFAULTS_COUNT - 1 then 0 else m + 1.
Definition mode_down (m : Z) : Z := if m =? 0 then DEFAULTS_COUNT - 1 else m - 1.

(** The level of the pin of the button that started a press: [up] wins when
    both are down, as in the [IDLE] case. *)
Definition trigger_pin (upward : bool) (p : pins) : bool :=
  if upward then pin_up p else pin_dwn p.

(** Sample records. *)
Definition red_100 : frame := mkFrame 255 0 0 100.
Definition blue_7 : frame := mkFrame 0 0 255 7.
Definition red_anim : animation :=
  mkAnimation 1 (red_100 :: repeat frame0 19) 100.
Definition blue_anim : animation :=
  mkAnimation 2 (frame0 :: blue_7 :: repeat frame0 18) 7.
Definition blank_anim : animation := mkAnimation 0 (repeat frame0 20) 0.

(* ------------------------------------------------------------------ *)
(** ** The machine

    One observation per look the firmware takes at its surroundings: the
    value [millis()] returns, the byte at the head of the serial receive
    queue if there is one, and the levels of the two button pins.  A busy
    wait that finds nothing moves on to the next observation; reading a byte
    uses the observation up. *)

Record poll := mkPoll {
  p_now : Z;
  p_rx : option Z;
  p_up : bool;
  p_dwn : bool
}.

(** How an object of type [AnimationDriver::animation] lies in memory.
    [AnimationDriver.h] is not under [src/]: the layout is a parameter of
    everything that goes through [EEPROM.put] and [EEPROM.get]. *)
Record layout := mkLayout {
  sizeof_animation : Z;
  to_bytes : animation -> list Z;
  of_bytes : list Z -> animation
}.

Record sys := mkSys {
  world : list poll;          (* what is still to be observed *)
  tx : list Z;                (* the bytes sent on the serial port so far *)
  eeprom : Z -> Z;            (* the byte at each EEPROM address *)
  oob : list (Z * Z);         (* stores made past the end of [localBuff]:
                                 index and value *)
  junk : animation;           (* what an uninitialised local [animation]
                                 holds *)
  currentAnim : animation;    (* the global [currentAnim] *)
  animator : animation;       (* the animation last given to
                                 [animator.updateAnimation] *)
  buttons : fsm;              (* the statics of [buttonFSM] *)
  lastMode : Z                (* the static [lastMode] of [loop] *)
}.

Definition set_world (w : list poll) (s : sys) : sys :=
  mkSys w (tx s) (eeprom s) (oob s) (junk s) (currentAnim s) (animator s)
    (buttons s) (lastMode s).
Definition set_tx (t : list Z) (s : sys) : sys :=
  mkSys (world s) t (eeprom s) (oob s) (junk s) (currentAnim s) (animator s)
    (buttons s) (lastMode s).
Definition set_eeprom (e : Z -> Z) (s : sys) : sys :=
  mkSys (world s) (tx s) e (oob s) (junk s) (currentAnim s) (animator s)
    (buttons s) (lastMode s).
Definition set_oob (o : list (Z * Z)) (s : sys) : sys :=
  mkSys (world s) (tx s) (eeprom s) o (junk s) (currentAnim s) (animator s)
    (buttons s) (lastMode s).
Definition set_currentAnim (a : animation) (s : sys) : sys :=
  mkSys (world s) (tx s) (eeprom s) (oob s) (junk s) a (animator s)
    (buttons s) (lastMode s).
Definition set_animator (a : animation) (s : sys) : sys :=
  mkSys (world s) (tx s) (eeprom s) (oob s) (junk s) (currentAnim s) a
    (buttons s) (lastMode s).
Definition set_buttons (f : fsm) (s : sys) : sys :=
  mkSys (world s) (tx s) (eeprom s) (oob s) (junk s) (currentAnim s)
    (animator s) f (lastMode s).
Definition set_lastMode (m : Z) (s : sys) : sys :=
  mkSys (world s) (tx s) (eeprom s) (oob s) (junk s) (currentAnim s)
    (animator s) (buttons s) m.

(** How a piece of the firmware ends: it returns, it calls [resetFunc] (the
    processor re-enters the program at address 0 and nothing after the call
    runs), or it is still in a busy wait when the observations end. *)
Inductive outcome (A : Type) : Type :=
| Ret (a : A) (s : sys)
| Reset (s : sys)
| Spin (s : sys).
Arguments Ret {A} a s.
Arguments Reset {A} s.
Arguments Spin {A} s.

Definition M (A : Type) : Type := sys -> outcome A.

Definition ret {A : Type} (a : A) : M A := fun s => Ret a s.

Definition bind {A B : Type} (c : M A) (k : A -> M B) : M B :=
  fun s =>
    match c s with
    | Ret a s' => k a s'
    | Reset s' => Reset s'
    | Spin s' => Spin s'
    end.

Notation "x <- c1 ;; c2" := (bind c1 (fun x => c2))
  (at level 61, c1 at next level, right associativity).
Notation "c1 ;; c2" := (bind c1 (fun _ => c2))
  (at level 61, right associativity).

Definition modify (f : sys -> sys) : M unit := fun s => Ret tt (f s).

(** [resetFunc()]: a call through the null function pointer [resetFunc]. *)
Definition resetFunc {A : Type} : M A := fun s => Reset s.

(** The state of an outcome, whichever way it ended. *)
Definition final {A : Type} (o : outcome A) : sys :=
  match o with Ret _ s => s | Reset s => s | Spin s => s end.

(* ------------------------------------------------------------------ *)
(** ** Serial port *)

Definition bytes_of_string (str : string) : list Z :=
  map (fun c => Z.of_N (N_of_ascii c)) (list_ascii_of_string str).

Definition CRLF : list Z := [13; 10].

(** [Serial.write(buf, n)], [Serial.print(text)], [Serial.println(text)]. *)
Definition Serial_write (bs : list Z) : M unit :=
  modify (fun s => set_tx (tx s ++ bs) s).
Definition Serial_print (bs : list Z) : M unit := Serial_write bs.
Definition Serial_println (bs : list Z) : M unit := Serial_write (bs ++ CRLF).

(** [Serial.flush()] waits until the bytes written have left; it changes
    nothing that is modelled. *)
Definition Serial_flush : M unit := ret tt.

(** [while (Serial.available() < 1);]: the observations without a byte are
    passed over, the one with a byte stays at the head. *)
Fixpoint await_rx (w : list poll) : option (list poll) :=
  match w with
  | [] => None
  | p :: w' =>
      match p_rx p with
      | Some _ => Some w
      | None => await_rx w'
      end
  end.

Definition Serial_await : M unit :=
  fun s =>
    match await_rx (world s) with
    | Some w => Ret tt (set_world w s)
    | None => Spin (set_world [] s)
    end.

(** [(byte)Serial.read()] once a byte is known to be there. *)
Definition Serial_read : M Z :=
  fun s =>
    match world s with
    | p :: w' =>
        match p_rx p with
        | Some b => Ret (u8 b) (set_world w' s)
        | None => Ret 255 (set_world w' s)   (* (byte)(-1) *)
        end
    | [] => Spin s
    end.

(** The loop of [waitForAck], [timer] being the clock value taken before
    it.  [Some (true, _)]: the byte 0xff came; [Some (false, _)]: another
    byte came, or the time ran out; [None]: still waiting. *)
Fixpoint waitForAck_poll (timeout timer : Z) (w : list poll)
  : option (bool * list poll) :=
  match w with
  | [] => None
  | p :: w' =>
      match p_rx p with
      | Some b => Some (u8 b =? 255, w')
      | None =>
          if u32 (p_now p - timer) >? timeout then Some (false, w')
          else waitForAck_poll timeout timer w'
      end
  end.

Definition waitForAck (timeout : Z) : M bool :=
  fun s =>
    match world s with
    | [] => Spin s
    | p :: _ =>
        match waitForAck_poll timeout (p_now p) (world s) with
        | None => Spin (set_world [] s)
        | Some (true, w') => Ret true (set_world w' s)
        | Some (false, w') =>
            (Serial_println (bytes_of_string "ACK Fail") ;; Serial_flush ;;
             ret false) (set_world w' s)
        end
    end.

(** [Serial.readStringUntil(terminator)] of the Arduino core: bytes are
    appended until the terminator is read (it is dropped) or until no byte
    has come for the stream's timeout (1000 ms unless changed, and
    [main.cpp] does not change it).  [start] is the clock value at which the
    wait for the current byte began. *)
Definition STREAM_TIMEOUT : Z := 1000.

Fixpoint readStringUntil_poll (terminator : Z) (start : option Z)
    (acc : list Z) (w : list poll) : option (list Z * list poll) :=
  match w with
  | [] => None
  | p :: w' =>
      let t0 := match start with Some t => t | None => p_now p end in
      match p_rx p with
      | Some b =>
          if u8 b =? terminator then Some (acc, w')
          else readStringUntil_poll terminator None (acc ++ [u8 b]) w'
      | None =>
          if u32 (p_now p - t0) <? STREAM_TIMEOUT then
            readStringUntil_poll terminator (Some t0) acc w'
          else Some (acc, w')
      end
  end.

Definition Serial_readStringUntil (terminator : Z) : M (list Z) :=
  fun s =>
    match readStringUntil_poll terminator None [] (world s) with
    | Some (code, w') => Ret code (set_world w' s)
    | None => Spin (set_world [] s)
    end.

(** *** Reading the observations

    The bytes the host sends, in the order they arrive, and the
    observations left once the first [n] of them have been read. *)
Definition rx_stream (w : list poll) : list Z :=
  flat_map (fun p => match p_rx p with Some b => [u8 b] | None => [] end) w.

Fixpoint drop_rx (w : list poll) (n : nat) : list poll :=
  match n with
  | O => w
  | S n' =>
      match w with
      | [] => []
      | p :: w' =>
          match p_rx p with
          | Some _ => drop_rx w' n'
          | None => drop_rx w' n
          end
      end
  end.

(** The observations from the first one with a byte on. *)
Fixpoint skip_idle (w : list poll) : list poll :=
  match w with
  | [] => []
  | p :: w' => match p_rx p with Some _ => w | None => skip_idle w' end
  end.

(** The clock value a wait starts with. *)
Definition clock0 (w : list poll) : Z :=
  match w with p :: _ => p_now p | [] => 0 end.

(** During a wait that started at [t0]: nothing has come and the time is
    not over; the acknowledgement byte has come; the wait fails, by another
    byte or by the time being over. *)
Definition is_quiet (timeout t0 : Z) (p : poll) : bool :=
  match p_rx p with
  | None => u32 (p_now p - t0) <=? timeout
  | Some _ => false
  end.

Definition is_ack (p : poll) : bool :=
  match p_rx p with Some b => u8 b =? 255 | None => false end.

Definition is_nack (timeout t0 : Z) (p : poll) : bool :=
  match p_rx p with
  | Some b => negb (u8 b =? 255)
  | None => u32 (p_now p - t0) >? timeout
  end.

(** The observations left after [n] waits that were all acknowledged;
    [None] when one of them is not. *)
Fixpoint acks (n : nat) (w : list poll) : option (list poll) :=
  match n with
  | O => Some w
  | S n' =>
      match waitForAck_poll 1000 (clock0 w) w with
      | Some (true, w') => acks n' w'
      | _ => None
      end
  end.

Definition ACK_FAIL : list Z := bytes_of_string "ACK Fail" ++ CRLF.

(** Messages sent one after the other, each one after a wait for an
    acknowledgement; a wait that fails resets the machine. *)
Fixpoint gated (msgs : list (list Z)) : M unit :=
  match msgs with
  | [] => ret tt
  | m :: ms =>
      ok <- waitForAck 1000 ;;
      (if negb ok then resetFunc else ret tt) ;;
      Serial_write m ;;
      gated ms
  end.

(* ------------------------------------------------------------------ *)
(** ** EEPROM *)

(** [n] bytes from address [addr]. *)
Definition EEPROM_read (addr n : Z) (e : Z -> Z) : list Z :=
  map (fun k => e (addr + k)) (upto n).

(** The bytes [bs] written from address [addr] on. *)
Definition EEPROM_write (addr : Z) (bs : list Z) (e : Z -> Z) : Z -> Z :=
  fun x =>
    if (addr <=? x) && (x <? addr + Z.of_nat (List.length bs))
    then nth (Z.to_nat (x - addr)) bs 0
    else e x.

Section Firmware.
Variable L : layout.

(** [EEPROM.get(addr, a)] and [EEPROM.put(addr, a)] for an [animation]:
    the object's [sizeof] bytes, as they lie in memory. *)
Definition EEPROM_get (addr : Z) (e : Z -> Z) : animation :=
  of_bytes L (EEPROM_read addr (sizeof_animation L) e).

Definition EEPROM_put (addr : Z) (a : animation) (e : Z -> Z) : Z -> Z :=
  EEPROM_write addr (to_bytes L a) e.

(** [index * sizeof(AnimationDriver::animation)] *)
Definition slot_addr (index : Z) : Z := index * sizeof_animation L.

Definition EEPROM_Load (index : Z) : M unit :=
  modify (fun s =>
    set_currentAnim (EEPROM_get (slot_addr index) (eeprom s)) s).

(** [animator.updateAnimation(currentAnim)]: the rendering engine is
    outside the model; what is kept is which animation it was given. *)
Definition updateAnimation : M unit :=
  modify (fun s => set_animator (currentAnim s) s).

Definition saveAnimationFromSerial (buff : list Z) : M unit :=
  modify (fun s =>
    let _a := parse_animation buff (junk s) in
    set_eeprom (EEPROM_put (slot_addr (rd buff 0)) _a (eeprom s)) s).

(** [localBuff[i] = v] for the array [byte localBuff[SERIAL_PACKET]]: a
    store at an index that is not below [SERIAL_PACKET] lands outside the
    array and is recorded in [oob]. *)
Definition buf_store (localBuff : list Z) (i v : Z) : M (list Z) :=
  if i <? SERIAL_PACKET then ret (wr localBuff i v)
  else modify (fun s => set_oob (oob s ++ [(i, v)]) s) ;; ret localBuff.

(** The second [while] loop of [handleUploadRequest].  [None]: the loop
    left the function through its [return]; [Some]: the loop ended, with
    the buffer and [buffCount].  [buffCount] is a [byte]; it grows by one
    in every pass that does not return, and a pass returns once it is
    above [SERIAL_PACKET], so [n] passes are enough for any
    [n > SERIAL_PACKET] (lemma [upload_loop_fuel]). *)
Fixpoint upload_loop (n : nat) (localBuff : list Z) (buffCount : Z)
  : M (option (list Z * Z)) :=
  if buffCount <? rd localBuff 1 * FRAME_SIZE + META_SIZE then
    match n with
    | O => fun s => Spin s
    | S n' =>
        Serial_await ;;
        if buffCount <=? SERIAL_PACKET then
          data <- Serial_read ;;
          localBuff' <- buf_store localBuff buffCount data ;;
          upload_loop n' localBuff' (u8 (buffCount + 1))
        else
          Serial_println [] ;; ret None
    end
  else ret (Some (localBuff, buffCount)).

(** [handleUploadRequest] up to the end of its second loop.  The wait for
    [Serial.available()] to reach [META_SIZE] and the [readBytes] after it
    are two blocking reads.  [localBuff] is not initialised; its cells
    start at 0 here. *)
Definition upload_receive : M (option (list Z * Z)) :=
  let localBuff := repeat 0 (Z.to_nat SERIAL_PACKET) in
  let buffCount := META_SIZE in
  Serial_await ;; b0 <- Serial_read ;;
  Serial_await ;; b1 <- Serial_read ;;
  let localBuff := wr (wr localBuff 0 b0) 1 b1 in
  upload_loop 256 localBuff buffCount.

Definition handleUploadRequest : M unit :=
  r <- upload_receive ;;
  match r with
  | None => ret tt
  | Some (localBuff, buffCount) =>
      Serial_write (firstn (Z.to_nat buffCount) localBuff) ;;
      ok <- waitForAck 1000 ;;
      if ok then
        saveAnimationFromSerial localBuff ;;
        Serial_println (bytes_of_string "Done") ;;
        Serial_flush
      else resetFunc
  end.

(** The body of the [for] loop of [handleDownloadRequest]. *)
Definition download_slot (i : Z) : M unit :=
  fun s0 =>
    let _a := EEPROM_get (slot_addr i) (eeprom s0) in
    (ok <- waitForAck 1000 ;;
     (if negb ok then resetFunc else ret tt) ;;
     Serial_write [i] ;;
     Serial_write [frameCount _a] ;;
     Serial_flush ;;
     ok <- waitForAck 1000 ;;
     (if negb ok then resetFunc else ret tt) ;;
     Serial_write (frame_bytes _a) ;;
     Serial_flush ;;
     ok <- waitForAck 1000 ;;
     if negb ok then resetFunc else ret tt) s0.

Fixpoint for_each (l : list Z) (body : Z -> M unit) : M unit :=
  match l with
  | [] => ret tt
  | i :: l' => body i ;; for_each l' body
  end.

Definition handleDownloadRequest : M unit :=
  for_each (upto 6) download_slot.

(** What [handleDownloadRequest] sends after each of its waits, for the
    EEPROM content [e]: per slot the header, the payload, and nothing
    after the third wait. *)
Definition download_script (e : Z -> Z) : list (list Z) :=
  flat_map (fun i =>
    let _a := EEPROM_get (slot_addr i) e in
    [[i; frameCount _a]; frame_bytes _a; []]) (upto 6).

(** [code[0]]: the first character, 0 when the string is empty. *)
Definition first_char (code : list Z) : Z := hd 0 code.

Definition handleSerial : M unit :=
  code <- Serial_readStringUntil 45 ;;              (* '-' *)
  Serial_print (bytes_of_string "ready_") ;;
  Serial_println code ;;
  Serial_flush ;;
  let c := first_char code in
  if (48 <=? c) && (c <=? 53) then handleUploadRequest      (* '0'..'5' *)
  else if c =? 100 then handleDownloadRequest                (* 'd' *)
  else Serial_println [].

(** [setup()], less the LED strip, the brightness knob and the pin modes. *)
Definition setup : M unit :=
  Serial_println (bytes_of_string "ready") ;;
  EEPROM_Load 0 ;;
  updateAnimation.

(** One call of [loop()], less the brightness knob and the call of
    [animator.run], which touch nothing that is modelled.  The observation
    at the head of [world] is the one the call starts with. *)
Definition loop : M unit :=
  fun s =>
    let currentMode := 0 in
    match world s with
    | [] => Spin s
    | p :: w' =>
        match p_rx p with
        | Some _ =>
            (handleSerial ;;
             EEPROM_Load currentMode ;;
             updateAnimation) s
        | None =>
            let f := buttonFSM (p_up p) (p_dwn p) (p_now p) (buttons s) in
            let currentMode := outputMode f in
            (modify (set_buttons f) ;;
             if negb (currentMode =? lastMode s) then
               EEPROM_Load currentMode ;;
               updateAnimation ;;
               modify (set_lastMode currentMode)
             else ret tt) (set_world w' s)
        end
    end.

(** The machine after a reset: the statics have their initial values
    again, the EEPROM keeps its content, and [setup] has run. *)
Definition restart (s : sys) : outcome unit :=
  setup (set_lastMode 0 (set_buttons fsm_init s)).
End Firmware.

(** A piece of the firmware that leaves a part [f] of the state as it is,
    however it ends; parts that do not depend on the serial port, and parts
    that do not depend on the EEPROM either. *)
Definition keeps {A X : Type} (f : sys -> X) (c : M A) : Prop :=
  forall s, f (final (c s)) = f s.

Definition io_blind {X : Type} (f : sys -> X) : Prop :=
  (forall w s, f (set_world w s) = f s) /\
  (forall t s, f (set_tx t s) = f s) /\
  (forall o s, f (set_oob o s) = f s).

Definition store_blind {X : Type} (f : sys -> X) : Prop :=
  io_blind f /\ (forall e s, f (set_eeprom e s) = f s).

(* ------------------------------------------------------------------ *)
(** ** Layouts *)

(** What the firmware relies on when it writes an [animation] with
    [EEPROM.put] and reads it with [EEPROM.get]: the object has [sizeof]
    bytes, and the bytes give the object back. *)
Record layout_ok (L : layout) : Prop := mkLayoutOk {
  sizeof_pos : 0 < sizeof_animation L;
  to_bytes_length :
    forall a, animation_wf a ->
      Z.of_nat (List.length (to_bytes L a)) = sizeof_animation L;
  of_to_bytes : forall a, animation_wf a -> of_bytes L (to_bytes L a) = a
}.

(** Modelled from the spec: the declaration of [AnimationDriver::animation]
    is in [AnimationDriver.h], which is not under [src/].  The fields are
    the ones [main.cpp] uses, the array has the spec's MAX_FRAMES = 20
    keyframes, and the size is the 168 bytes that [main.cpp] notes above its
    default animations.  That is what a 32-bit little-endian target with
    natural alignment (the XIAO board) gives for
    [struct frame { uint8_t color[3]; uint32_t time; }] (8 bytes) and
    [struct animation { frame frames[20]; uint32_t time; uint8_t frameCount; }]
    (160 + 4 + 1 bytes, padded to 168); the order of the fields is assumed.
    The layout serves as an instance of [layout_ok] and in the examples. *)
Definition le32 (t : Z) : list Z :=
  [u8 t; u8 (Z.shiftr t 8); u8 (Z.shiftr t 16); u8 (Z.shiftr t 24)].

Definition frame_mem (f : frame) : list Z :=
  [color0 f; color1 f; color2 f; 0] ++ le32 (f_time f).

Definition frame_of_mem (bs : list Z) (k : Z) : frame :=
  let b := k * 8 in
  mkFrame (rd bs b) (rd bs (b + 1)) (rd bs (b + 2))
    (be32 (rd bs (b + 7)) (rd bs (b + 6)) (rd bs (b + 5)) (rd bs (b + 4))).

Definition xiao_to_bytes (a : animation) : list Z :=
  flat_map frame_mem (frames a) ++ le32 (a_time a) ++ [frameCount a; 0; 0; 0].

Definition xiao_of_bytes (bs : list Z) : animation :=
  mkAnimation (rd bs 164) (map (frame_of_mem bs) (upto MAX_FRAMES))
    (be32 (rd bs 163) (rd bs 162) (rd bs 161) (rd bs 160)).

Definition xiao_layout : layout := mkLayout 168 xiao_to_bytes xiao_of_bytes.

(** An erased EEPROM, and one that holds [red_anim] in slot 0 and
    [blue_anim] in slot 3. *)
Definition erased : Z -> Z := fun _ => 255.

Definition sample_eeprom : Z -> Z :=
  EEPROM_put xiao_layout (slot_addr xiao_layout 3) blue_anim
    (EEPROM_put xiao_layout (slot_addr xiao_layout 0) red_anim erased).

(** Observations: a byte arriving, and nothing arriving, at clock [t]. *)
Definition rx_at (t b : Z) : poll := mkPoll t (Some b) true true.
Definition idle_at (t : Z) : poll := mkPoll t None true true.

(** The machine just after [setup] on a given EEPROM, about to observe
    [w]. *)
Definition boot (L : layout) (e : Z -> Z) (w : list poll) : sys :=
  final (setup L (mkSys w [] e [] blank_anim blank_anim blank_anim fsm_init 0)).

(** Sample exchanges.  Bytes that are all there at clock [t]; a keyframe on
    the wire; the machine after [setup] on [sample_eeprom]. *)
Definition bytes_at (t : Z) (bs : list Z) : list poll := map (rx_at t) bs.

Definition red_payload : list Z := [255; 0; 0; 0; 0; 0; 100].

Definition start (w : list poll) : sys := boot xiao_layout sample_eeprom w.

(** The command "2-", a one-keyframe upload addressed to slot 4, a pause,
    and the acknowledgement. *)
Definition upload_ok_world : list poll :=
  bytes_at 0 ([50; 45] ++ [4; 1] ++ red_payload) ++ [idle_at 10; rx_at 20 255].

(** The same upload (after its command), answered by the byte 0. *)
Definition upload_nack_world : list poll :=
  bytes_at 0 ([4; 1] ++ red_payload) ++ [idle_at 10; rx_at 20 0].

(** An upload that announces 21 keyframes. *)
Definition overflow_world : list poll :=
  bytes_at 0 ([0; 21] ++ repeat 7 140 ++ [9; 8]).

(** An upload that announces no keyframe, acknowledged. *)
Definition zero_world : list poll := bytes_at 0 [4; 0] ++ [rx_at 5 255].

(** An EEPROM with a valid record in each of the six slots, and eighteen
    acknowledgements. *)
Definition six_eeprom : Z -> Z :=
  fold_left
    (fun e i =>
       EEPROM_put xiao_layout (slot_addr xiao_layout i)
         (if Z.even i then red_anim else blue_anim) e)
    (upto 6) erased.

Definition eighteen_acks : list poll := bytes_at 0 (repeat 255 18).

(** [loop()] called [n] times in a row. *)
Fixpoint ticks (L : layout) (n : nat) : M unit :=
  match n with
  | O => ret tt
  | S n' => loop L ;; ticks L n'
  end.

(** The "up" button held past the debounce time and let go, which selects
    slot 1; then the unknown command "x-" on the serial port; then
    nothing. *)
Definition press_then_command : list poll :=
  [mkPoll 0 None false true; mkPoll 201 None false true;
   mkPoll 300 None true true]
  ++ bytes_at 400 [120; 45] ++ [idle_at 500].


(** An erased machine, and what a store of a one-keyframe record to slot 1
    makes of it. *)
Definition erased_machine : sys := boot xiao_layout erased [].

Definition stored_slot_1 : sys :=
  final (saveAnimationFromSerial xiao_layout ([1; 1] ++ red_payload)
           erased_machine).

(** The machine after the press of [press_then_command], after the call of
    [loop] that serves the command, and after one more call. *)
Definition selected_1 : sys :=
  final (ticks xiao_layout 3 (boot xiao_layout six_eeprom press_then_command)).

Definition served : sys := final (loop xiao_layout selected_1).

Definition after_served : sys := final (loop xiao_layout served).

(** The spec's own upload example: the command "2-", the payload for slot 2
    with the one keyframe (255, 0, 0) at 100 ms, and the acknowledgement. *)
Definition happy_world : list poll :=
  bytes_at 0 ([50; 45] ++ [2; 1] ++ red_payload) ++ [rx_at 3 255].

Definition happy_end : sys := final (handleSerial xiao_layout (start happy_world)).


(* ------------------------------------------------------------------ *)
(** ** The rest of [main.cpp] *)

(** [EEPROM_WriteDefaults()].  The array [defaults] is filled by the macros
    of [DefaultAnimations.h], which is not under [src/]: its six elements
    are a parameter.  [animBuff] is the copy that [memcpy_P] makes of
    [defaults[i]]. *)
Definition EEPROM_WriteDefaults (L : layout) (defaults : list animation)
  : M unit :=
  for_each (upto DEFAULTS_COUNT)
    (fun i =>
       modify (fun s =>
         let animBuff := nth (Z.to_nat i) defaults blank_anim in
         set_eeprom (EEPROM_put L (slot_addr L i) animBuff (eeprom s)) s)) ;;
  Serial_println (bytes_of_string "DEFAULTS WRITTEN TO EEPROM") ;;
  Serial_flush.

(** The brightness knob.  The globals [LEDscale] and [prevLEDScale], both
    [uint16_t], and the argument last given to [strip.setBrightness], a
    [uint8_t]. *)
Definition POT_THRES : Z := 20.

Record knob := mkKnob {
  LEDscale : Z;
  prevLEDScale : Z;
  brightness : Z
}.

(** [abs(LEDscale - prevLEDScale)], [abs(x)] being the macro
    [((x)>0?(x):-(x))] of [Arduino.h].  Where [int] has 16 bits (the MICRO
    and NANO targets) the operands stay [unsigned int], the difference
    wraps and, being unsigned, is its own absolute value; where [int] is
    wider (the XIAO target) they are promoted to [int] and the difference
    is signed. *)
Definition abs_diff (int16 : bool) (x y : Z) : Z :=
  if int16 then u16 (x - y) else Z.abs (x - y).

(** The knob's part of [setup()], [reading] being what [analogRead]
    returns: [prevLEDScale] keeps the 0 it starts with. *)
Definition knob_setup (reading : Z) : knob :=
  mkKnob (u16 reading) 0 (u8 (Z.quot (u16 reading) 4)).

(** The knob's part of one call of [loop()]. *)
Definition knob_loop (int16 : bool) (k : knob) (reading : Z) : knob :=
  let l := u16 (Z.quot reading 4) in
  if abs_diff int16 l (prevLEDScale k) >? POT_THRES then mkKnob l l (u8 l)
  else mkKnob l (prevLEDScale k) (brightness k).

(** The knob after [setup] and one call of [loop] per reading. *)
Definition knob_run (int16 : bool) (first : Z) (readings : list Z) : knob :=
  fold_left (knob_loop int16) readings (knob_setup first).

(** The loaded animation is the record of the selected slot. *)
Definition in_sync (L : layout) (s : sys) : Prop :=
  lastMode s = outputMode (buttons s) /\
  0 <= lastMode s < DEFAULTS_COUNT /\
  currentAnim s = EEPROM_get L (slot_addr L (lastMode s)) (eeprom s) /\
  animator s = currentAnim s.

(** No byte is pending in any of the observations. *)
Definition silent (w : list poll) : Prop := Forall (fun p => p_rx p = None) w.

(** One press, call of [buttonFSM] by call: the call in [IDLE] that finds a
    button down, the calls made up to [BTN_TIME] after it, the first call
    made later than that, the calls that follow while a button is down, the
    call that finds both buttons up, and the calls after it that find both
    up. *)
Record press_calls := mkPress {
  pc_first : pins;
  pc_early : list pins;
  pc_sample : pins;
  pc_held : list pins;
  pc_release : pins;
  pc_idle : list pins
}.

Definition calls_of (c : press_calls) : list pins :=
  pc_first c :: pc_early c ++ pc_sample c :: pc_held c
  ++ pc_release c :: pc_idle c.

(** The button a press is taken to be of: "up" when its pin reads pressed at
    the first call, whatever the other pin reads. *)
Definition press_dir (c : press_calls) : bool := negb (pin_up (pc_first c)).

(** The calls are those of one press.  The pins are free wherever the code
    does not look at them: at the calls within the debounce time, and, but
    for being not both up, at the calls while [RELEASE] lasts. *)
Definition whole_press (c : press_calls) : Prop :=
  pin_up (pc_first c) && pin_dwn (pc_first c) = false /\
  Forall (fun p => u32 (pin_now p - pin_now (pc_first c)) <= BTN_TIME)
    (pc_early c) /\
  u32 (pin_now (pc_sample c) - pin_now (pc_first c)) > BTN_TIME /\
  Forall (fun p => pin_up p && pin_dwn p = false) (pc_held c) /\
  pin_up (pc_release c) = true /\ pin_dwn (pc_release c) = true /\
  Forall (fun p => pin_up p && pin_dwn p = true) (pc_idle c).

(** What a press counts for: a step when its button reads pressed at the
    first call after the debounce time, nothing when it reads released. *)
Definition press_step (c : press_calls) : Z :=
  if trigger_pin (press_dir c) (pc_sample c) then 0
  else if press_dir c then 1 else -1.

Definition net_steps (l : list press_calls) : Z :=
  fold_right (fun c n => press_step c + n) 0 l.

(** Sample presses: "up" held for 450 ms with calls all along, the "down"
    button going down too before "up" is let go; "down" held for 300 ms;
    "up" let go after 150 ms. *)
Definition long_up : press_calls :=
  mkPress (mkPins false true 1000)
    [mkPins false true 1050; mkPins true true 1100; mkPins false true 1200]
    (mkPins false true 1201)
    [mkPins false true 1300; mkPins false false 1400; mkPins true false 1450]
    (mkPins true true 1500) [mkPins true true 1600].

Definition plain_down : press_calls :=
  mkPress (mkPins true false 2000) [] (mkPins true false 2300) []
    (mkPins true true 2400) [].

Definition short_up : press_calls :=
  mkPress (mkPins false true 3000) [mkPins false true 3100]
    (mkPins true true 3201) [] (mkPins true true 3300) [].

(** The pins and the clock of an observation, as the call of [buttonFSM]
    in [loop] sees them. *)
Definition poll_pins (p : poll) : pins :=
  mkPins (p_up p) (p_dwn p) (p_now p).

(** More sample exchanges: an upload that announces two keyframes and sends
    one; an acknowledged upload of one keyframe to slot 4; the command "0-"
    with an acknowledged upload of a green keyframe to slot 0; a press of
    the "up" button with nothing on the serial port; six defaults. *)
Definition stall_world : list poll := bytes_at 0 ([4; 2] ++ red_payload).

Definition acked_world : list poll :=
  bytes_at 0 ([4; 1] ++ red_payload) ++ [rx_at 1 255].

Definition press_world : list poll :=
  [mkPoll 0 None false true; mkPoll 201 None false true;
   mkPoll 300 None true true].

Definition green_payload : list Z := [0; 255; 0; 0; 0; 0; 50].

Definition slot0_world : list poll :=
  bytes_at 0 ([48; 45] ++ [0; 1] ++ green_payload) ++ [rx_at 1 255].

Definition six_defaults : list animation :=
  [red_anim; blue_anim; red_anim; blue_anim; red_anim; blue_anim].

(** One byte of a big-endian word, bit by bit.  [bits] gives the bits of
    [be32], [high] the bits of a byte from the eighth on. *)
Ltac byte_of_be32 bits high :=
  intros H3 H2 H1 H0; apply Z.bits_inj'; intros n Hn;
  unfold u8; change 256 with (2 ^ 8);
  rewrite Z.testbit_mod_pow2 by lia;
  rewrite ?Z.shiftr_spec by lia;
  rewrite bits by lia;
  destruct (Z.ltb_spec n 8);
  [ cbn [andb];
    repeat match goal with
      | |- context [Z.testbit ?b ?k] =>
          first [ rewrite (Z.testbit_neg_r b k) by lia
                | rewrite (high b k) by (assumption || lia) ]
      end;
    rewrite ?orb_false_r, ?orb_false_l; f_equal; lia
  | cbn [andb]; symmetry; apply high; (assumption || lia) ].

(* ================================================================== *)
(** * Properties *)

(* ------------------------------------------------------------------ *)
(** ** Arrays *)

Section ArrayFacts.
Context {A : Type}.

Lemma upd_length (n : nat) (v : A) (l : list A) :
  List.length (upd n v l) = List.length l.
Proof.
  revert n; induction l as [|h t IH]; intros [|n]; simpl; auto.
Qed.



Lemma upd_app_r (n : nat) (v : A) (l1 l2 : list A) :
  (List.length l1 <= n)%nat ->
  upd n v (l1 ++ l2) = l1 ++ upd (n - List.length l1) v l2.
Proof.
  revert n; induction l1 as [|h t IH]; intros n H; simpl in *.
  - now rewrite Nat.sub_0_r.
  - destruct n as [|n]; [lia|]. simpl. f_equal. apply IH. lia.
Qed.



(** A cell of a concatenation of chunks of the same size. *)
Lemma nth_flat_map_chunk {B : Type} (f : B -> list A) (k : nat) (db : B)
    (d : A) (l : list B) (i j : nat) :
  (forall x, List.length (f x) = k) ->
  (i < List.length l)%nat -> (j < k)%nat ->
  nth (k * i + j) (flat_map f l) d = nth j (f (nth i l db)) d.
Proof.
  intros Hk. revert i. induction l as [|x t IH]; intros i Hi Hj;
    simpl in *; [lia|].
  destruct i as [|i].
  - rewrite Nat.mul_0_r. simpl. rewrite app_nth1; auto. now rewrite Hk.
  - rewrite app_nth2; rewrite Hk; [|nia].
    replace (k * S i + j - k)%nat with (k * i + j)%nat by nia.
    apply IH; lia.
Qed.

Lemma length_flat_map_chunk {B : Type} (f : B -> list A) (k : nat)
    (l : list B) :
  (forall x, List.length (f x) = k) ->
  List.length (flat_map f l) = (k * List.length l)%nat.
Proof.
  intros Hk. induction l as [|x t IH]; simpl; [lia|].
  rewrite length_app, Hk, IH. nia.
Qed.
End ArrayFacts.

Lemma upto_S (n : nat) :
  upto (Z.of_nat (S n)) = upto (Z.of_nat n) ++ [Z.of_nat n].
Proof.
  unfold upto. rewrite !Nat2Z.id, seq_S, map_app. reflexivity.
Qed.

Lemma upto_length (n : Z) : List.length (upto n) = Z.to_nat n.
Proof. unfold upto. now rewrite length_map, length_seq. Qed.

Lemma nth_upto (n : Z) (i : nat) (d : Z) :
  (i < Z.to_nat n)%nat -> nth i (upto n) d = Z.of_nat i.
Proof.
  intros H. unfold upto.
  rewrite nth_indep with (d' := Z.of_nat 0%nat)
    by (now rewrite length_map, length_seq).
  rewrite map_nth, seq_nth; auto.
Qed.

(* ------------------------------------------------------------------ *)
(** ** Timestamps *)

Lemma be32_bytes (t : Z) :
  is_u32 t ->
  be32 (u8 (Z.shiftr t 24)) (u8 (Z.shiftr t 16)) (u8 (Z.shiftr t 8)) (u8 t)
  = t.
Proof.
  intros [H0 H1]. apply Z.bits_inj'. intros n Hn.
  unfold be32, u8. change 256 with (2 ^ 8).
  rewrite !Z.lor_spec, !Z.shiftl_spec by lia.
  rewrite !Z.testbit_mod_pow2 by lia.
  assert (Hhi : 32 <= n -> Z.testbit t n = false).
  { intros Hge. rewrite <- (Z.mod_small t (2 ^ 32)) by (change (2 ^ 32) with 4294967296; lia).
    apply Z.mod_pow2_bits_high. lia. }
  assert (Hsh : forall k, 0 <= k <= n ->
            Z.testbit (Z.shiftr t k) (n - k) = Z.testbit t n).
  { intros k Hk. rewrite Z.shiftr_spec by lia. f_equal. lia. }
  destruct (Z.ltb_spec (n - 24) 8), (Z.ltb_spec (n - 16) 8),
    (Z.ltb_spec (n - 8) 8), (Z.ltb_spec n 8); try lia; simpl;
    repeat match goal with
      | |- context [Z.testbit (Z.shiftr t ?k) (n - ?k)] =>
          first [ rewrite (Hsh k) by lia
                | rewrite (Z.testbit_neg_r (Z.shiftr t k) (n - k)) by lia ]
      end;
    try (rewrite Hhi by lia);
    destruct (Z.testbit t n); reflexivity.
Qed.

Lemma lor_below (n a b : Z) :
  0 < n -> 0 <= a < 2 ^ n -> 0 <= b < 2 ^ n -> 0 <= Z.lor a b < 2 ^ n.
Proof.
  intros Hn Ha Hb.
  assert (H0 : 0 <= Z.lor a b) by (apply Z.lor_nonneg; lia).
  split; [exact H0|].
  destruct (Z.eq_dec (Z.lor a b) 0) as [E|E].
  - rewrite E. apply Z.pow_pos_nonneg; lia.
  - apply Z.log2_lt_pow2; [lia|].
    rewrite Z.log2_lor by lia.
    assert (Hl : forall x, 0 <= x < 2 ^ n -> Z.log2 x < n).
    { intros x Hx. destruct (Z.eq_dec x 0) as [->|Nx]; [simpl; lia|].
      apply Z.log2_lt_pow2; lia. }
    apply Z.max_lub_lt; auto.
Qed.

Lemma be32_range (b3 b2 b1 b0 : Z) :
  is_u8 b3 -> is_u8 b2 -> is_u8 b1 -> is_u8 b0 -> is_u32 (be32 b3 b2 b1 b0).
Proof.
  unfold is_u8, is_u32, be32. intros H3 H2 H1 H0.
  change 4294967296 with (2 ^ 32).
  rewrite !Z.shiftl_mul_pow2 by lia.
  repeat apply lor_below; try lia.
Qed.

Lemma u8_range (x : Z) : is_u8 (u8 x).
Proof. unfold is_u8, u8. apply Z.mod_pos_bound. lia. Qed.

Lemma u8_small (x : Z) : 0 <= x < 256 -> u8 x = x.
Proof. intros H. unfold u8. now apply Z.mod_small. Qed.

(* ------------------------------------------------------------------ *)
(** ** Record codec *)

Lemma keyframe_wire_length (f : frame) : List.length (keyframe_wire f) = 7%nat.
Proof. reflexivity. Qed.

Lemma upd_app_plus {A : Type} (j : nat) (v : A) (l1 l2 : list A) :
  upd (List.length l1 + j) v (l1 ++ l2) = l1 ++ upd j v l2.
Proof.
  rewrite upd_app_r by lia. f_equal. f_equal. lia.
Qed.

Lemma fill_frame_at (a : animation) (pre rest : list Z) (k : Z)
    (z0 z1 z2 z3 z4 z5 z6 : Z) :
  Z.of_nat (List.length pre) = k * FRAME_SIZE -> k * FRAME_SIZE < 256 ->
  fill_frame a (pre ++ z0 :: z1 :: z2 :: z3 :: z4 :: z5 :: z6 :: rest) k
  = pre ++ keyframe_wire (get_frame a k) ++ rest.
Proof.
  intros Hlen Hlt. unfold fill_frame, wr.
  rewrite u8_small by lia.
  replace (Z.to_nat (k * FRAME_SIZE)) with (List.length pre + 0)%nat by lia.
  replace (Z.to_nat (k * FRAME_SIZE + 1)) with (List.length pre + 1)%nat by lia.
  replace (Z.to_nat (k * FRAME_SIZE + 2)) with (List.length pre + 2)%nat by lia.
  replace (Z.to_nat (k * FRAME_SIZE + 3)) with (List.length pre + 3)%nat by lia.
  replace (Z.to_nat (k * FRAME_SIZE + 4)) with (List.length pre + 4)%nat by lia.
  replace (Z.to_nat (k * FRAME_SIZE + 5)) with (List.length pre + 5)%nat by lia.
  replace (Z.to_nat (k * FRAME_SIZE + 6)) with (List.length pre + 6)%nat by lia.
  rewrite !upd_app_plus. reflexivity.
Qed.

Lemma fill_frames_prefix (a : animation) (n k : nat) :
  (k <= n)%nat -> (n <= 36)%nat ->
  fold_left (fill_frame a) (upto (Z.of_nat k)) (repeat 0 (7 * n))
  = flat_map keyframe_wire (map (get_frame a) (upto (Z.of_nat k)))
    ++ repeat 0 (7 * (n - k)).
Proof.
  intros Hk Hn. induction k as [|k IH].
  - simpl. now rewrite Nat.sub_0_r.
  - rewrite upto_S, fold_left_app, IH by lia. cbn [fold_left].
    replace (7 * (n - k))%nat with (7 + 7 * (n - S k))%nat by lia.
    rewrite repeat_app. change (repeat 0 7) with [0; 0; 0; 0; 0; 0; 0].
    cbn [app]. rewrite fill_frame_at.
    + rewrite map_app, flat_map_app. cbn [map flat_map].
      rewrite app_nil_r, <- app_assoc. reflexivity.
    + rewrite (length_flat_map_chunk _ 7) by apply keyframe_wire_length.
      rewrite length_map, upto_length. unfold FRAME_SIZE. lia.
    + unfold FRAME_SIZE. lia.
Qed.

(** The payload is the keyframes one after the other, each in its seven
    bytes. *)
Lemma frame_bytes_wire (a : animation) :
  0 <= frameCount a <= 36 ->
  frame_bytes a
  = flat_map keyframe_wire (map (get_frame a) (upto (frameCount a))).
Proof.
  intros H. unfold frame_bytes.
  replace (Z.to_nat (frameCount a * FRAME_SIZE))
    with (7 * Z.to_nat (frameCount a))%nat by (unfold FRAME_SIZE; lia).
  rewrite <- (Z2Nat.id (frameCount a)) at 1 3 by lia.
  rewrite fill_frames_prefix by lia.
  rewrite Nat.sub_diag. simpl. now rewrite app_nil_r, Z2Nat.id by lia.
Qed.

Lemma map_get_frame_firstn (a : animation) (n : nat) :
  (n <= List.length (frames a))%nat ->
  map (get_frame a) (upto (Z.of_nat n)) = firstn n (frames a).
Proof.
  unfold get_frame. generalize (frames a) as l. intros l Hn.
  induction n as [|n IH].
  - reflexivity.
  - rewrite upto_S, map_app, IH by lia. simpl map. rewrite Nat2Z.id.
    clear IH. revert l Hn. induction n as [|n IH]; intros l Hn.
    + destruct l; simpl in *; [lia|reflexivity].
    + destruct l as [|x t]; simpl in *; [lia|].
      f_equal. apply IH. lia.
Qed.

Lemma frame_bytes_keyframes (a : animation) :
  0 <= frameCount a <= 36 ->
  (Z.to_nat (frameCount a) <= List.length (frames a))%nat ->
  frame_bytes a = flat_map keyframe_wire (keyframes a).
Proof.
  intros H Hl. rewrite frame_bytes_wire by assumption. unfold keyframes.
  rewrite <- map_get_frame_firstn by assumption.
  now rewrite Z2Nat.id by lia.
Qed.

Lemma frame_bytes_length (a : animation) :
  List.length (frame_bytes a) = Z.to_nat (frameCount a * FRAME_SIZE).
Proof.
  unfold frame_bytes.
  assert (H : forall l b, List.length (fold_left (fill_frame a) l b)
                          = List.length b).
  { induction l as [|x l IH]; intros b; simpl; auto.
    rewrite IH. unfold fill_frame, wr. now rewrite !upd_length. }
  now rewrite H, repeat_length.
Qed.

Lemma skipn_cons {A : Type} (k : nat) (l : list A) :
  (k < List.length l)%nat -> exists x, skipn k l = x :: skipn (S k) l.
Proof.
  revert k; induction l as [|h t IH]; intros k Hk; simpl in *; [lia|].
  destruct k as [|k]; [eexists; reflexivity|].
  apply IH; lia.
Qed.

Lemma upd_middle {A : Type} (k : nat) (v x : A) (pre rest : list A) :
  List.length pre = k -> upd k v (pre ++ x :: rest) = pre ++ v :: rest.
Proof.
  intros <-. rewrite upd_app_r by lia. now rewrite Nat.sub_diag.
Qed.

Lemma nth_middle_at {A : Type} (k : nat) (v d : A) (pre rest : list A) :
  List.length pre = k -> nth k (pre ++ v :: rest) d = v.
Proof. intros <-. apply nth_middle. Qed.

Lemma save_frames_prefix (buff : list Z) (junk : animation) (k : nat) :
  let fc := rd buff 1 in
  (k <= Z.to_nat fc)%nat -> 0 <= fc <= 36 ->
  (Z.to_nat fc <= List.length (frames junk))%nat ->
  fold_left (save_frame buff) (upto (Z.of_nat k)) (set_frameCount junk fc)
  = mkAnimation fc
      (map (frame_at buff) (upto (Z.of_nat k)) ++ skipn k (frames junk))
      (if (Z.of_nat k =? fc) && (0 <? Z.of_nat k)
       then f_time (frame_at buff (Z.of_nat k - 1)) else a_time junk).
Proof.
  intros fc Hk Hfc Hlen. induction k as [|k IH].
  - simpl. rewrite andb_false_r. reflexivity.
  - rewrite upto_S, fold_left_app, IH by lia. cbn [fold_left].
    clear IH. unfold save_frame. fold fc.
    rewrite u8_small by (unfold FRAME_SIZE; lia).
    fold (frame_at buff (Z.of_nat k)).
    unfold set_frame, get_frame, set_time. cbn [frameCount frames a_time].
    rewrite Nat2Z.id.
    assert (Hpre : List.length (map (frame_at buff) (upto (Z.of_nat k))) = k).
    { now rewrite length_map, upto_length, Nat2Z.id. }
    assert (Hsk : exists x, skipn k (frames junk) = x :: skipn (S k) (frames junk)).
    { apply skipn_cons. lia. }
    destruct Hsk as [x Hsk]. rewrite Hsk.
    rewrite (upd_middle k) by exact Hpre.
    rewrite (nth_middle_at k) by exact Hpre.
    rewrite map_app. cbn [map]. rewrite <- app_assoc. cbn [app].
    replace (Z.of_nat (S k) - 1) with (Z.of_nat k) by lia.
    destruct (Z.eqb_spec (Z.of_nat k) (fc - 1)) as [E|E].
    + replace (Z.of_nat (S k) =? fc) with true by (symmetry; apply Z.eqb_eq; lia).
      replace (0 <? Z.of_nat (S k)) with true by (symmetry; apply Z.ltb_lt; lia).
      reflexivity.
    + replace (Z.of_nat (S k) =? fc) with false by (symmetry; apply Z.eqb_neq; lia).
      replace (Z.of_nat k =? fc) with false by (symmetry; apply Z.eqb_neq; lia).
      reflexivity.
Qed.

(** What [saveAnimationFromSerial] builds from a buffer. *)
Lemma parse_animation_spec (buff : list Z) (junk : animation) :
  let fc := rd buff 1 in
  0 <= fc <= 36 -> (Z.to_nat fc <= List.length (frames junk))%nat ->
  parse_animation buff junk
  = mkAnimation fc
      (map (frame_at buff) (upto fc) ++ skipn (Z.to_nat fc) (frames junk))
      (if 0 <? fc then f_time (frame_at buff (fc - 1)) else a_time junk).
Proof.
  intros fc Hfc Hlen. unfold parse_animation. fold fc.
  rewrite <- (Z2Nat.id fc) at 1 by lia.
  rewrite save_frames_prefix by (fold fc; lia). fold fc.
  rewrite !Z2Nat.id by lia. now rewrite Z.eqb_refl.
Qed.

Lemma rd_header (a b : Z) (l : list Z) (i : Z) :
  0 <= i -> rd (a :: b :: l) (i + 2) = rd l i.
Proof.
  intros H. unfold rd.
  replace (Z.to_nat (i + 2)) with (S (S (Z.to_nat i))) by lia. reflexivity.
Qed.

Lemma rd_wire (fs : list frame) (i j : Z) :
  0 <= i -> (Z.to_nat i < List.length fs)%nat -> 0 <= j < 7 ->
  rd (flat_map keyframe_wire fs) (i * FRAME_SIZE + j)
  = nth (Z.to_nat j) (keyframe_wire (nth (Z.to_nat i) fs frame0)) 0.
Proof.
  intros Hi Hl Hj. unfold rd, FRAME_SIZE.
  replace (Z.to_nat (i * 7 + j)) with (7 * Z.to_nat i + Z.to_nat j)%nat by lia.
  apply nth_flat_map_chunk; [apply keyframe_wire_length | lia | lia].
Qed.

(** Reading a keyframe back from its seven bytes. *)
Lemma frame_at_wire (h0 h1 : Z) (fs : list frame) (i : Z) :
  0 <= i -> (Z.to_nat i < List.length fs)%nat -> Forall frame_wf fs ->
  frame_at ([h0; h1] ++ flat_map keyframe_wire fs) i
  = nth (Z.to_nat i) fs frame0.
Proof.
  intros Hi Hl Hwf. unfold frame_at. cbn [app].
  replace (i * FRAME_SIZE + 2) with (i * FRAME_SIZE + 0 + 2) by lia.
  replace (i * FRAME_SIZE + 0 + 2 + 1) with (i * FRAME_SIZE + 1 + 2) by lia.
  replace (i * FRAME_SIZE + 0 + 2 + 2) with (i * FRAME_SIZE + 2 + 2) by lia.
  replace (i * FRAME_SIZE + 0 + 2 + 3) with (i * FRAME_SIZE + 3 + 2) by lia.
  replace (i * FRAME_SIZE + 0 + 2 + 4) with (i * FRAME_SIZE + 4 + 2) by lia.
  replace (i * FRAME_SIZE + 0 + 2 + 5) with (i * FRAME_SIZE + 5 + 2) by lia.
  replace (i * FRAME_SIZE + 0 + 2 + 6) with (i * FRAME_SIZE + 6 + 2) by lia.
  rewrite !rd_header by (unfold FRAME_SIZE; lia).
  rewrite !rd_wire by lia.
  assert (Hf : frame_wf (nth (Z.to_nat i) fs frame0)).
  { rewrite Forall_forall in Hwf. apply Hwf. now apply nth_In. }
  destruct (nth (Z.to_nat i) fs frame0) as [c0 c1 c2 t].
  destruct Hf as (_ & _ & _ & Ht). cbn [f_time] in Ht.
  change (Z.to_nat 0) with 0%nat. change (Z.to_nat 1) with 1%nat.
  change (Z.to_nat 2) with 2%nat. change (Z.to_nat 3) with 3%nat.
  change (Z.to_nat 4) with 4%nat. change (Z.to_nat 5) with 5%nat.
  change (Z.to_nat 6) with 6%nat.
  cbn [keyframe_wire nth color0 color1 color2 f_time].
  now rewrite be32_bytes.
Qed.

Lemma map_frame_at_wire (h0 h1 : Z) (fs : list frame) :
  Forall frame_wf fs ->
  map (frame_at ([h0; h1] ++ flat_map keyframe_wire fs))
    (upto (Z.of_nat (List.length fs))) = fs.
Proof.
  intros Hwf. apply nth_ext with (d := frame0) (d' := frame0).
  - now rewrite length_map, upto_length, Nat2Z.id.
  - intros n Hn. rewrite length_map, upto_length, Nat2Z.id in Hn.
    rewrite nth_indep with (d' := frame_at ([h0; h1] ++ flat_map keyframe_wire fs) 0)
      by (now rewrite length_map, upto_length, Nat2Z.id).
    rewrite map_nth, nth_upto by lia.
    rewrite frame_at_wire; try lia; auto. now rewrite Nat2Z.id.
Qed.

Lemma last_nth {A : Type} (l : list A) (d : A) :
  last l d = nth (List.length l - 1) l d.
Proof.
  induction l as [|x t IH]; [reflexivity|].
  destruct t as [|y t']; [reflexivity|].
  change (last (x :: y :: t') d) with (last (y :: t') d). rewrite IH.
  simpl. now rewrite Nat.sub_0_r.
Qed.

Lemma keyframes_length (a : animation) :
  0 <= frameCount a ->
  (Z.to_nat (frameCount a) <= List.length (frames a))%nat ->
  Z.of_nat (List.length (keyframes a)) = frameCount a.
Proof.
  intros H0 H. unfold keyframes. rewrite length_firstn. lia.
Qed.

Lemma keyframes_wf (a : animation) :
  Forall frame_wf (frames a) -> Forall frame_wf (keyframes a).
Proof.
  unfold keyframes. generalize (Z.to_nat (frameCount a)) as n.
  intros n H. revert n. induction H as [|x l Hx Hl IH]; intros [|n];
    simpl; constructor; auto.
Qed.

(** What the parse of a well-formed wire image is: the keyframes of the
    image, over what the local held before. *)
Lemma parse_wire (slot : Z) (r junk : animation) :
  0 <= frameCount r <= 36 ->
  (Z.to_nat (frameCount r) <= List.length (frames r))%nat ->
  (Z.to_nat (frameCount r) <= List.length (frames junk))%nat ->
  Forall frame_wf (frames r) ->
  parse_animation (wire_bytes slot r) junk
  = mkAnimation (frameCount r)
      (keyframes r ++ skipn (Z.to_nat (frameCount r)) (frames junk))
      (if 0 <? frameCount r then f_time (get_frame r (frameCount r - 1))
       else a_time junk).
Proof.
  intros Hfc Hr Hj Hwf.
  assert (Hbuf : wire_bytes slot r
                 = [u8 slot; frameCount r] ++ flat_map keyframe_wire (keyframes r)).
  { unfold wire_bytes. now rewrite frame_bytes_keyframes. }
  rewrite Hbuf.
  assert (Hrd : rd ([u8 slot; frameCount r] ++ flat_map keyframe_wire (keyframes r)) 1
                = frameCount r) by reflexivity.
  rewrite parse_animation_spec; rewrite Hrd; try assumption.
  f_equal.
  - f_equal.
    pose proof (map_frame_at_wire (u8 slot) (frameCount r) (keyframes r)
                  (keyframes_wf r Hwf)) as Hm.
    rewrite keyframes_length in Hm by lia. exact Hm.
  - destruct (Z.ltb_spec 0 (frameCount r)); [|reflexivity].
    rewrite frame_at_wire; try lia.
    + unfold keyframes, get_frame. rewrite nth_firstn.
      replace (Z.to_nat (frameCount r - 1) <? Z.to_nat (frameCount r))%nat
        with true by (symmetry; apply Nat.ltb_lt; lia).
      reflexivity.
    + pose proof (keyframes_length r). lia.
    + now apply keyframes_wf.
Qed.

(** C6.  Decoding what encoding a valid record gives (the two header bytes,
    then every keyframe as three colour bytes and a big-endian timestamp)
    yields that record again: the same frame count, the same keyframes, and
    a total duration equal to the timestamp of the last keyframe. *)
Theorem decode_encode_roundtrip (slot : Z) (r junk : animation) :
  valid_record r ->
  List.length (frames junk) = Z.to_nat MAX_FRAMES ->
  wire_bytes slot r
    = [u8 slot; frameCount r] ++ flat_map keyframe_wire (keyframes r) /\
  same_record (parse_animation (wire_bytes slot r) junk) r /\
  a_time (parse_animation (wire_bytes slot r) junk)
    = f_time (last (keyframes r) frame0).
Proof.
  intros ((Hc & Hlen & Hwf & Ht) & Hfc & Htime) Hj.
  unfold MAX_FRAMES in *.
  assert (Hbuf : wire_bytes slot r
                 = [u8 slot; frameCount r] ++ flat_map keyframe_wire (keyframes r)).
  { unfold wire_bytes. rewrite frame_bytes_keyframes; auto; lia. }
  split; [exact Hbuf|].
  rewrite parse_wire by (auto; lia).
  replace (0 <? frameCount r) with true by (symmetry; apply Z.ltb_lt; lia).
  unfold same_record, keyframes. cbn [frameCount frames a_time].
  repeat split.
  - rewrite firstn_app, firstn_firstn, Nat.min_id, length_firstn.
    replace (Z.to_nat (frameCount r)
             - Nat.min (Z.to_nat (frameCount r)) (List.length (frames r)))%nat
      with 0%nat by lia.
    cbn [firstn]. now rewrite app_nil_r.
  - now rewrite Htime.
  - rewrite last_nth. unfold get_frame. rewrite length_firstn, nth_firstn.
    replace (Nat.min (Z.to_nat (frameCount r)) (List.length (frames r)) - 1)%nat
      with (Z.to_nat (frameCount r - 1)) by lia.
    replace (Z.to_nat (frameCount r - 1) <? Z.to_nat (frameCount r))%nat
      with true by (symmetry; apply Nat.ltb_lt; lia).
    reflexivity.
Qed.

Lemma red_anim_valid : valid_record red_anim.
Proof.
  unfold valid_record, animation_wf, is_u8, is_u32, MAX_FRAMES.
  cbn [red_anim frameCount frames a_time].
  split; [split; [lia | split; [reflexivity | split; [|lia]]]
         | split; [lia | reflexivity]].
  cbn [repeat].
  repeat (apply Forall_cons;
          [unfold frame_wf, is_u8, is_u32; cbn; lia|]).
  apply Forall_nil.
Defined.

Lemma decode_encode_roundtrip_witness :
  valid_record red_anim /\
  same_record (parse_animation (wire_bytes 2 red_anim) blank_anim) red_anim.
Proof.
  split; [exact red_anim_valid|].
  apply (decode_encode_roundtrip 2 red_anim blank_anim red_anim_valid).
  reflexivity.
Defined.

(* ------------------------------------------------------------------ *)
(** ** Mode selector *)

Lemma mode_up_range (m : Z) :
  0 <= m < DEFAULTS_COUNT -> 0 <= mode_up m < DEFAULTS_COUNT.
Proof.
  unfold mode_up, DEFAULTS_COUNT. intros H.
  destruct (Z.eqb_spec m (6 - 1)); lia.
Qed.

Lemma mode_down_range (m : Z) :
  0 <= m < DEFAULTS_COUNT -> 0 <= mode_down m < DEFAULTS_COUNT.
Proof.
  unfold mode_down, DEFAULTS_COUNT. intros H.
  destruct (Z.eqb_spec m 0); lia.
Qed.

(** The arithmetic of the [TRIGGERED] case on an output in range. *)
Lemma up_arith (m : Z) :
  0 <= m < DEFAULTS_COUNT -> u16 ((m + 1) mod DEFAULTS_COUNT) = mode_up m.
Proof.
  unfold mode_up, u16, DEFAULTS_COUNT. intros H.
  destruct (Z.eqb_spec m (6 - 1)) as [->|N]; [reflexivity|].
  rewrite (Z.mod_small (m + 1) 6) by lia. apply Z.mod_small. lia.
Qed.

Lemma down_arith (m : Z) :
  0 <= m < DEFAULTS_COUNT ->
  (if m <? 1 then u16 (DEFAULTS_COUNT - 1) else u16 (m - 1)) = mode_down m.
Proof.
  unfold mode_down, u16, DEFAULTS_COUNT. intros H.
  destruct (Z.ltb_spec m 1), (Z.eqb_spec m 0); try lia; [reflexivity|].
  apply Z.mod_small. lia.
Qed.

Lemma buttonFSM_range (up dwn : bool) (now : Z) (s : fsm) :
  0 <= outputMode s < DEFAULTS_COUNT ->
  0 <= outputMode (buttonFSM up dwn now s) < DEFAULTS_COUNT.
Proof.
  intros H. unfold buttonFSM.
  destruct (currentState s).
  - destruct (negb up), (negb dwn); assumption.
  - destruct (u32 (now - timer s) >? BTN_TIME); [|assumption].
    cbn [outputMode].
    destruct (changeUP s && negb up).
    + rewrite up_arith by assumption. now apply mode_up_range.
    + destruct (negb (changeUP s) && negb dwn); [|assumption].
      rewrite down_arith by assumption. now apply mode_down_range.
  - destruct (up && dwn); assumption.
Qed.

Lemma fsm_run_range (ps : list pins) (s : fsm) :
  0 <= outputMode s < DEFAULTS_COUNT ->
  0 <= outputMode (fsm_run ps s) < DEFAULTS_COUNT.
Proof.
  revert s. induction ps as [|p ps IH]; intros s H; [exact H|].
  apply IH. now apply buttonFSM_range.
Qed.

(** C8.  A committed "up" at slot 5 gives slot 0 and a committed "down" at
    slot 0 gives slot 5; at any other slot "up" adds one and "down" takes
    one away; the output stays within 0 .. 5 whatever the buttons do. *)
Theorem mode_wraparound (s : fsm) (up dwn : bool) (now : Z) :
  currentState s = TRIGGERED ->
  u32 (now - timer s) > BTN_TIME ->
  0 <= outputMode s < DEFAULTS_COUNT ->
  (changeUP s = true -> up = false ->
   outputMode (buttonFSM up dwn now s)
   = if outputMode s =? 5 then 0 else outputMode s + 1) /\
  (changeUP s = false -> dwn = false ->
   outputMode (buttonFSM up dwn now s)
   = if outputMode s =? 0 then 5 else outputMode s - 1) /\
  (forall ps, 0 <= outputMode (fsm_run ps s) < 6).
Proof.
  intros Hst Hel Hr. unfold buttonFSM. rewrite Hst.
  replace (u32 (now - timer s) >? BTN_TIME) with true
    by (symmetry; apply Z.gtb_lt; lia).
  cbn [outputMode]. repeat split.
  - intros -> ->. cbn [andb negb]. now rewrite up_arith.
  - intros -> ->. cbn [andb negb]. now rewrite down_arith.
  - now apply fsm_run_range.
  - now apply fsm_run_range.
Qed.

Lemma mode_wraparound_witness :
  outputMode (buttonFSM false true 201 (mkFsm TRIGGERED true 0 5)) = 0 /\
  outputMode (buttonFSM true false 201 (mkFsm TRIGGERED false 0 0)) = 5.
Proof.
  split.
  - assert (Hr : 0 <= outputMode (mkFsm TRIGGERED true 0 5) < DEFAULTS_COUNT)
      by (cbn; unfold DEFAULTS_COUNT; lia).
    destruct (mode_wraparound (mkFsm TRIGGERED true 0 5) false true 201
                eq_refl eq_refl Hr) as (H & _ & _).
    apply H; reflexivity.
  - assert (Hr : 0 <= outputMode (mkFsm TRIGGERED false 0 0) < DEFAULTS_COUNT)
      by (cbn; unfold DEFAULTS_COUNT; lia).
    destruct (mode_wraparound (mkFsm TRIGGERED false 0 0) true false 201
                eq_refl eq_refl Hr) as (_ & H & _).
    apply H; reflexivity.
Defined.

(** While the debounce time has not passed, a call in [TRIGGERED] changes
    nothing, whatever the pins read. *)
Lemma triggered_wait (ps : list pins) (s : fsm) :
  currentState s = TRIGGERED ->
  Forall (fun p => u32 (pin_now p - timer s) <= BTN_TIME) ps ->
  fsm_run ps s = s.
Proof.
  intros Hst Hall. induction Hall as [|p ps Hp Hps IH]; [reflexivity|].
  cbn [fsm_run fold_left]. fold (fsm_run ps (fsm_step s p)).
  assert (E : fsm_step s p = s).
  { unfold fsm_step, buttonFSM. rewrite Hst.
    replace (u32 (pin_now p - timer s) >? BTN_TIME) with false; [reflexivity|].
    symmetry. rewrite Z.gtb_ltb. apply Z.ltb_ge. lia. }
  rewrite E. exact IH.
Qed.

(** While a button is down, a call in [RELEASE] changes nothing. *)
Lemma release_hold (ps : list pins) (s : fsm) :
  currentState s = RELEASE ->
  Forall (fun p => pin_up p && pin_dwn p = false) ps ->
  fsm_run ps s = s.
Proof.
  intros Hst Hall. induction Hall as [|p ps Hp Hps IH]; [reflexivity|].
  cbn [fsm_run fold_left]. fold (fsm_run ps (fsm_step s p)).
  assert (E : fsm_step s p = s).
  { unfold fsm_step, buttonFSM. rewrite Hst, Hp. reflexivity. }
  rewrite E. exact IH.
Qed.

(** C9, as the code has it.  One press from [IDLE]: nothing changes at the
    calls made up to 200 ms after the press, the one at exactly 200 ms
    among them; at the first call made more than 200 ms after it the
    machine goes to [RELEASE], and the output moves by one step if the
    button that started the press reads pressed at that call, and stays if
    it reads released; the output stays where it is for as long as a
    button is held, and the machine is back in [IDLE] once both pins read
    released. *)
Theorem debounce_single_press (s : fsm) (p0 c : pins) (early held : list pins) :
  currentState s = IDLE ->
  0 <= outputMode s < DEFAULTS_COUNT ->
  pin_up p0 && pin_dwn p0 = false ->
  Forall (fun p => u32 (pin_now p - pin_now p0) <= BTN_TIME) early ->
  u32 (pin_now c - pin_now p0) > BTN_TIME ->
  Forall (fun p => pin_up p && pin_dwn p = false) held ->
  let upward := negb (pin_up p0) in
  let waiting := fsm_run (p0 :: early) s in
  let after := fsm_run (p0 :: early ++ c :: held) s in
  (currentState waiting = TRIGGERED /\ outputMode waiting = outputMode s) /\
  currentState after = RELEASE /\
  (trigger_pin upward c = true -> outputMode after = outputMode s) /\
  (trigger_pin upward c = false ->
   outputMode after
   = (if upward then mode_up (outputMode s) else mode_down (outputMode s)) /\
   outputMode after <> outputMode s) /\
  (forall r, pin_up r = true -> pin_dwn r = true ->
     currentState (fsm_step after r) = IDLE /\
     outputMode (fsm_step after r) = outputMode after).
Proof.
  intros Hst Hr Hp0 Hearly Hc Hheld upward waiting after.
  set (t := mkFsm TRIGGERED upward (pin_now p0) (outputMode s)).
  assert (E0 : fsm_step s p0 = t).
  { unfold fsm_step, buttonFSM, t, upward. rewrite Hst.
    destruct (pin_up p0), (pin_dwn p0); try discriminate; reflexivity. }
  assert (Ew : waiting = t).
  { unfold waiting. cbn [fsm_run fold_left]. rewrite E0.
    now apply (triggered_wait early t). }
  set (out := if upward && negb (pin_up c) then mode_up (outputMode s)
              else if negb upward && negb (pin_dwn c)
                   then mode_down (outputMode s) else outputMode s).
  assert (Ea : after = mkFsm RELEASE upward (pin_now p0) out).
  { unfold after. change (p0 :: early ++ c :: held)
      with ((p0 :: early) ++ c :: held).
    unfold fsm_run. rewrite fold_left_app. fold (fsm_run (p0 :: early) s).
    fold waiting. rewrite Ew. cbn [fold_left].
    assert (Es : fsm_step t c = mkFsm RELEASE upward (pin_now p0) out).
    { unfold fsm_step, buttonFSM, t, out. cbn [currentState timer changeUP outputMode].
      replace (u32 (pin_now c - pin_now p0) >? BTN_TIME) with true
        by (symmetry; apply Z.gtb_lt; lia).
      rewrite up_arith, down_arith by assumption. reflexivity. }
    rewrite Es. now apply (release_hold held). }
  rewrite Ew, Ea. cbn [currentState outputMode].
  repeat split.
  - unfold out, trigger_pin. intros H.
    destruct upward; rewrite H; reflexivity.
  - unfold out, trigger_pin in *. destruct upward; rewrite H; reflexivity.
  - unfold out, trigger_pin in *. unfold mode_up, mode_down, DEFAULTS_COUNT in *.
    destruct upward; rewrite H; cbn [andb negb].
    + destruct (Z.eqb_spec (outputMode s) (6 - 1)); lia.
    + destruct (Z.eqb_spec (outputMode s) 0); lia.
  - unfold fsm_step, buttonFSM. cbn [currentState]. rewrite H, H0. reflexivity.
  - unfold fsm_step, buttonFSM. cbn [currentState]. rewrite H, H0. reflexivity.
Qed.

Lemma debounce_single_press_witness :
  outputMode
    (fsm_run [mkPins false true 1000; mkPins false true 1100;
              mkPins false true 1201; mkPins false true 1500] fsm_init) = 1 /\
  outputMode
    (fsm_run [mkPins false true 1000; mkPins true true 1100;
              mkPins true true 1201; mkPins true false 1500] fsm_init) = 0.
Proof.
  assert (Hr : 0 <= outputMode fsm_init < DEFAULTS_COUNT)
    by (cbn; unfold DEFAULTS_COUNT; lia).
  split.
  - pose proof (debounce_single_press fsm_init (mkPins false true 1000)
                  (mkPins false true 1201) [mkPins false true 1100]
                  [mkPins false true 1500] eq_refl Hr eq_refl) as H.
    destruct H as (_ & _ & _ & H & _).
    + repeat constructor; discriminate.
    + reflexivity.
    + repeat constructor.
    + apply H. reflexivity.
  - pose proof (debounce_single_press fsm_init (mkPins false true 1000)
                  (mkPins true true 1201) [mkPins true true 1100]
                  [mkPins true false 1500] eq_refl Hr eq_refl) as H.
    destruct H as (_ & _ & H & _).
    + repeat constructor; discriminate.
    + reflexivity.
    + repeat constructor.
    + apply H. reflexivity.
Defined.

(** C9, as the spec states it, fails at the boundary.  The "up" button is
    still pressed 200 ms after the press and is let go before the next
    call, one millisecond later: no slot change is committed, at that call
    or after it, because the code asks for more than 200 ms and looks at
    the button only then.  So it is not so that a button still pressed
    once 200 ms have elapsed commits a change. *)
Lemma debounce_not_at_200 :
  let p0 := mkPins false true 0 in
  let c := mkPins false true 200 in
  let r := mkPins true true 201 in
  (BTN_TIME <= u32 (pin_now c - pin_now p0) /\ pin_up c = false) /\
  fsm_run [p0; c] fsm_init = mkFsm TRIGGERED true 0 0 /\
  fsm_run [p0; c; r] fsm_init = mkFsm RELEASE true 0 0 /\
  fsm_run [p0; c; r; mkPins true true 300] fsm_init = mkFsm IDLE true 0 0 /\
  ~ (forall (s : fsm) (p0 c : pins) (rest : list pins),
       currentState s = IDLE -> pin_up p0 = false ->
       BTN_TIME <= u32 (pin_now c - pin_now p0) -> pin_up c = false ->
       Forall (fun p => pin_up p && pin_dwn p = true) rest ->
       outputMode (fsm_run (p0 :: c :: rest) s) = mode_up (outputMode s)).
Proof.
  cbv zeta. split; [split; [vm_compute; discriminate|reflexivity]|].
  split; [reflexivity|]. split; [reflexivity|]. split; [reflexivity|].
  intros H.
  specialize (H fsm_init (mkPins false true 0) (mkPins false true 200)
                [mkPins true true 201] eq_refl eq_refl
                ltac:(vm_compute; discriminate) eq_refl
                ltac:(repeat constructor)).
  vm_compute in H. discriminate.
Qed.

(* ------------------------------------------------------------------ *)
(** ** The machine: sequencing *)

Lemma bind_Ret {A B : Type} (c : M A) (k : A -> M B) (s s' : sys) (a : A) :
  c s = Ret a s' -> bind c k s = k a s'.
Proof. intros H. unfold bind. now rewrite H. Qed.

Lemma bind_Reset {A B : Type} (c : M A) (k : A -> M B) (s s' : sys) :
  c s = Reset s' -> bind c k s = Reset s'.
Proof. intros H. unfold bind. now rewrite H. Qed.

Lemma bind_Spin {A B : Type} (c : M A) (k : A -> M B) (s s' : sys) :
  c s = Spin s' -> bind c k s = Spin s'.
Proof. intros H. unfold bind. now rewrite H. Qed.

Lemma bind_assoc {A B C : Type} (c : M A) (k : A -> M B) (h : B -> M C)
    (s : sys) :
  bind (bind c k) h s = bind c (fun a => bind (k a) h) s.
Proof. unfold bind. destruct (c s); reflexivity. Qed.

Lemma bind_ext {A B : Type} (c : M A) (k k' : A -> M B) (s : sys) :
  (forall a s', k a s' = k' a s') -> bind c k s = bind c k' s.
Proof. intros H. unfold bind. destruct (c s); auto. Qed.

Lemma set_world_same (s : sys) : set_world (world s) s = s.
Proof. now destruct s. Qed.

(* ------------------------------------------------------------------ *)
(** ** Serial input *)

Lemma drop_rx_nil (n : nat) : drop_rx [] n = [].
Proof. now destruct n. Qed.

Lemma drop_rx_0 (w : list poll) : drop_rx w 0 = w.
Proof. now destruct w. Qed.

Lemma drop_rx_add (w : list poll) (a b : nat) :
  drop_rx (drop_rx w a) b = drop_rx w (a + b).
Proof.
  revert a. induction w as [|p w IH]; intros a.
  - now rewrite !drop_rx_nil.
  - destruct a as [|a]; [now rewrite drop_rx_0|].
    cbn [drop_rx Nat.add]. destruct (p_rx p).
    + apply IH.
    + apply (IH (S a)).
Qed.

(** The next byte of the stream is what a blocking read returns. *)
Lemma skip_idle_stream (w : list poll) (b : Z) (more : list Z) :
  rx_stream w = b :: more ->
  exists p w' raw,
    skip_idle w = p :: w' /\ p_rx p = Some raw /\ u8 raw = b /\
    w' = drop_rx w 1 /\ rx_stream w' = more.
Proof.
  induction w as [|p w IH]; intros H; [discriminate|].
  unfold rx_stream in H. cbn [flat_map] in H. cbn [skip_idle drop_rx].
  destruct (p_rx p) as [raw|] eqn:E.
  - cbn [app] in H. injection H as Hb Hm.
    exists p, w, raw. repeat split; auto. now rewrite drop_rx_0.
  - cbn [app] in H. apply IH in H.
    destruct H as (p' & w' & raw & H1 & H2 & H3 & H4 & H5).
    exists p', w', raw. repeat split; auto.
Qed.

Lemma await_rx_skip (w : list poll) :
  await_rx w = match skip_idle w with [] => None | _ => Some (skip_idle w) end.
Proof.
  induction w as [|p w IH]; [reflexivity|].
  cbn [await_rx skip_idle]. destruct (p_rx p) eqn:E; [reflexivity|exact IH].
Qed.

Lemma Serial_await_stream (s : sys) (b : Z) (more : list Z) :
  rx_stream (world s) = b :: more ->
  exists p raw,
    Serial_await s = Ret tt (set_world (p :: drop_rx (world s) 1) s) /\
    skip_idle (world s) = p :: drop_rx (world s) 1 /\
    p_rx p = Some raw /\ u8 raw = b /\
    rx_stream (drop_rx (world s) 1) = more.
Proof.
  intros H. destruct (skip_idle_stream _ _ _ H) as (p & w' & raw & Hs & Hp & Hb & Hw & Hm).
  subst w'. exists p, raw. repeat split; auto.
  unfold Serial_await. rewrite await_rx_skip, Hs. reflexivity.
Qed.

(** [while (Serial.available() < 1); data = (byte)Serial.read();] *)
Lemma await_read_stream {B : Type} (k : Z -> M B) (s : sys) (b : Z)
    (more : list Z) :
  rx_stream (world s) = b :: more ->
  (Serial_await ;; data <- Serial_read ;; k data) s
  = k b (set_world (drop_rx (world s) 1) s) /\
  rx_stream (drop_rx (world s) 1) = more.
Proof.
  intros H. destruct (Serial_await_stream s b more H) as (p & raw & Ha & _ & Hp & Hb & Hm).
  split; [|exact Hm].
  rewrite (bind_Ret _ _ _ _ _ Ha).
  unfold bind at 1, Serial_read. cbn [world set_world]. rewrite Hp, Hb.
  reflexivity.
Qed.

(* ------------------------------------------------------------------ *)
(** ** Acknowledgements *)

(** A wait is acknowledged exactly when, after observations in which
    nothing came and the time was not over, the byte 0xff comes. *)
Lemma waitForAck_poll_true (timeout t0 : Z) (w rest : list poll) :
  waitForAck_poll timeout t0 w = Some (true, rest) <->
  exists idle p, w = idle ++ p :: rest /\
    forallb (is_quiet timeout t0) idle = true /\ is_ack p = true.
Proof.
  split.
  - induction w as [|q w IH]; intros H; [discriminate|].
    cbn [waitForAck_poll] in H. destruct (p_rx q) as [b|] eqn:E.
    + injection H as Hb <-. exists [], q. repeat split.
      unfold is_ack. now rewrite E.
    + destruct (u32 (p_now q - t0) >? timeout) eqn:Et; [discriminate|].
      destruct (IH H) as (idle & p & -> & Hq & Hp).
      exists (q :: idle), p. repeat split; auto.
      cbn [forallb]. rewrite Hq, andb_true_r. unfold is_quiet. rewrite E.
      rewrite Z.gtb_ltb in Et. apply Z.leb_le. apply Z.ltb_ge in Et. lia.
  - intros (idle & p & -> & Hq & Hp).
    induction idle as [|q idle IH].
    + cbn [app waitForAck_poll]. unfold is_ack in Hp.
      destruct (p_rx p); [now rewrite Hp|discriminate].
    + cbn [forallb] in Hq. apply andb_prop in Hq as [Hq1 Hq2].
      cbn [app waitForAck_poll]. unfold is_quiet in Hq1.
      destruct (p_rx q); [discriminate|]. apply Z.leb_le in Hq1.
      replace (u32 (p_now q - t0) >? timeout) with false
        by (symmetry; rewrite Z.gtb_ltb; apply Z.ltb_ge; lia).
      now apply IH.
Qed.

(** A wait fails exactly when, after such observations, another byte comes
    or the time is over. *)
Lemma waitForAck_poll_false (timeout t0 : Z) (w rest : list poll) :
  waitForAck_poll timeout t0 w = Some (false, rest) <->
  exists idle p, w = idle ++ p :: rest /\
    forallb (is_quiet timeout t0) idle = true /\ is_nack timeout t0 p = true.
Proof.
  split.
  - induction w as [|q w IH]; intros H; [discriminate|].
    cbn [waitForAck_poll] in H. destruct (p_rx q) as [b|] eqn:E.
    + injection H as Hb <-. exists [], q. repeat split.
      unfold is_nack. now rewrite E, Hb.
    + destruct (u32 (p_now q - t0) >? timeout) eqn:Et.
      * injection H as <-. exists [], q. repeat split.
        unfold is_nack. now rewrite E.
      * destruct (IH H) as (idle & p & -> & Hq & Hp).
        exists (q :: idle), p. repeat split; auto.
        cbn [forallb]. rewrite Hq, andb_true_r. unfold is_quiet. rewrite E.
        rewrite Z.gtb_ltb in Et. apply Z.leb_le. apply Z.ltb_ge in Et. lia.
  - intros (idle & p & -> & Hq & Hp).
    induction idle as [|q idle IH].
    + cbn [app waitForAck_poll]. unfold is_nack in Hp.
      destruct (p_rx p).
      * apply negb_true_iff in Hp. now rewrite Hp.
      * now rewrite Hp.
    + cbn [forallb] in Hq. apply andb_prop in Hq as [Hq1 Hq2].
      cbn [app waitForAck_poll]. unfold is_quiet in Hq1.
      destruct (p_rx q); [discriminate|]. apply Z.leb_le in Hq1.
      replace (u32 (p_now q - t0) >? timeout) with false
        by (symmetry; rewrite Z.gtb_ltb; apply Z.ltb_ge; lia).
      now apply IH.
Qed.

Lemma waitForAck_true (s : sys) (rest : list poll) :
  waitForAck_poll 1000 (clock0 (world s)) (world s) = Some (true, rest) ->
  waitForAck 1000 s = Ret true (set_world rest s).
Proof.
  intros H. unfold waitForAck. destruct (world s) as [|p w] eqn:E;
    [discriminate|].
  cbn [clock0] in H. now rewrite H.
Qed.

Lemma waitForAck_false (s : sys) (rest : list poll) :
  waitForAck_poll 1000 (clock0 (world s)) (world s) = Some (false, rest) ->
  waitForAck 1000 s = Ret false (set_tx (tx s ++ ACK_FAIL) (set_world rest s)).
Proof.
  intros H. unfold waitForAck. destruct (world s) as [|p w] eqn:E;
    [discriminate|].
  cbn [clock0] in H. now rewrite H.
Qed.

(* ------------------------------------------------------------------ *)
(** ** Upload *)


Lemma upload_loop_eq (n : nat) (localBuff : list Z) (buffCount : Z) :
  upload_loop n localBuff buffCount
  = if buffCount <? rd localBuff 1 * FRAME_SIZE + META_SIZE then
      match n with
      | O => fun s => Spin s
      | S n' =>
          Serial_await ;;
          if buffCount <=? SERIAL_PACKET then
            data <- Serial_read ;;
            localBuff' <- buf_store localBuff buffCount data ;;
            upload_loop n' localBuff' (u8 (buffCount + 1))
          else
            Serial_println [] ;; ret None
      end
    else ret (Some (localBuff, buffCount)).
Proof. destruct n; reflexivity. Qed.

Lemma rd_app_l (pre post : list Z) (i : Z) :
  (Z.to_nat i < List.length pre)%nat -> rd (pre ++ post) i = rd pre i.
Proof. intros H. unfold rd. now apply app_nth1. Qed.

(** The passes of the loop that store inside the array: the bytes go
    into the buffer one after the other. *)
Lemma upload_loop_reads (bs : list Z) :
  forall (fuel : nat) (pre : list Z) (m : nat) (s : sys) (more : list Z),
    rx_stream (world s) = bs ++ more ->
    (2 <= List.length pre)%nat ->
    Z.of_nat (List.length pre + List.length bs)
      <= rd pre 1 * FRAME_SIZE + META_SIZE ->
    (List.length pre + List.length bs <= 142)%nat ->
    (List.length bs <= m)%nat ->
    (List.length bs <= fuel)%nat ->
    upload_loop fuel (pre ++ repeat 0 m) (Z.of_nat (List.length pre)) s
    = upload_loop (fuel - List.length bs)
        ((pre ++ bs) ++ repeat 0 (m - List.length bs))
        (Z.of_nat (List.length (pre ++ bs)))
        (set_world (drop_rx (world s) (List.length bs)) s).
Proof.
  induction bs as [|b bs IH]; intros fuel pre m s more Hs Hpre Hbound Hin Hm Hf.
  - cbn [List.length]. rewrite Nat.sub_0_r, Nat.sub_0_r, app_nil_r.
    now rewrite drop_rx_0, set_world_same.
  - cbn [List.length] in *.
    destruct fuel as [|fuel]; [lia|]. destruct m as [|m]; [lia|].
    rewrite upload_loop_eq.
    rewrite rd_app_l by (change (Z.to_nat 1) with 1%nat; lia).
    replace (Z.of_nat (List.length pre) <? rd pre 1 * FRAME_SIZE + META_SIZE)
      with true by (symmetry; apply Z.ltb_lt; lia).
    replace (Z.of_nat (List.length pre) <=? SERIAL_PACKET)
      with true by (symmetry; apply Z.leb_le; unfold SERIAL_PACKET; lia).
    cbn [app] in Hs.
    destruct (await_read_stream
                (fun data =>
                   localBuff' <- buf_store (pre ++ repeat 0 (S m))
                                   (Z.of_nat (List.length pre)) data ;;
                   upload_loop fuel localBuff'
                     (u8 (Z.of_nat (List.length pre) + 1)))
                s b (bs ++ more) Hs) as [Hstep Hrest].
    rewrite Hstep. clear Hstep.
    unfold bind at 1, buf_store.
    replace (Z.of_nat (List.length pre) <? SERIAL_PACKET)
      with true by (symmetry; apply Z.ltb_lt; unfold SERIAL_PACKET; lia).
    unfold ret at 1. unfold wr. rewrite Nat2Z.id.
    cbn [repeat]. rewrite (upd_middle (List.length pre)) by reflexivity.
    rewrite u8_small by lia.
    replace (pre ++ b :: repeat 0 m) with ((pre ++ [b]) ++ repeat 0 m)
      by (now rewrite <- app_assoc).
    replace (Z.of_nat (List.length pre) + 1)
      with (Z.of_nat (List.length (pre ++ [b])))
      by (rewrite length_app; cbn [List.length]; lia).
    assert (Hlen : List.length (pre ++ [b]) = S (List.length pre))
      by (rewrite length_app; cbn [List.length]; lia).
    rewrite (IH fuel (pre ++ [b]) m
               (set_world (drop_rx (world s) 1) s) more); try lia.
    + cbn [world set_world]. rewrite drop_rx_add.
      rewrite <- (app_assoc pre [b] bs). cbn [app Nat.add Nat.sub].
      reflexivity.
    + exact Hrest.
    + rewrite rd_app_l by (change (Z.to_nat 1) with 1%nat; lia). lia.
Qed.

(** The count of passes given to [upload_loop] does not matter once it is
    large enough: [buffCount] grows by one in every pass that goes on, and
    no pass goes on once it is above [SERIAL_PACKET]. *)
Lemma upload_loop_fuel (n : nat) :
  forall (m : nat) (b : list Z) (c : Z) (s : sys),
    (1 <= n <= m)%nat -> 0 <= c -> 144 <= Z.of_nat n + c ->
    upload_loop n b c s = upload_loop m b c s.
Proof.
  induction n as [|n IH]; intros m b c s Hn Hc Hf; [lia|].
  destruct m as [|m]; [lia|].
  rewrite !upload_loop_eq.
  destruct (c <? rd b 1 * FRAME_SIZE + META_SIZE); [|reflexivity].
  apply bind_ext. intros _ s1.
  destruct (Z.leb_spec c SERIAL_PACKET) as [Hle|Hgt]; [|reflexivity].
  unfold SERIAL_PACKET in Hle.
  apply bind_ext. intros d s2. apply bind_ext. intros b' s3.
  rewrite u8_small by lia. apply IH; lia.
Qed.

Lemma nth_upd_other {A : Type} (n m : nat) (v d : A) (l : list A) :
  n <> m -> nth m (upd n v l) d = nth m l d.
Proof.
  revert n m; induction l as [|h t IH]; intros [|n] [|m] H; simpl;
    auto; congruence.
Qed.

(** When the loop ends without leaving the function, the frame count in
    the buffer is the one it was entered with and fits the buffer: at most
    20 keyframes reach [saveAnimationFromSerial]. *)
Lemma upload_loop_done (n : nat) :
  forall (b : list Z) (c : Z) (s : sys) (b' : list Z) (c' : Z) (s' : sys),
    2 <= c <= 143 ->
    upload_loop n b c s = Ret (Some (b', c')) s' ->
    rd b' 1 = rd b 1 /\
    rd b 1 * FRAME_SIZE + META_SIZE <= c' <= 143.
Proof.
  induction n as [|n IH]; intros b c s b' c' s' Hc H;
    rewrite upload_loop_eq in H;
    destruct (Z.ltb_spec c (rd b 1 * FRAME_SIZE + META_SIZE)) as [Hlt|Hge];
    try discriminate;
    try (injection H as <- <- <-; split; [reflexivity|lia]).
  unfold bind at 1 in H.
  destruct (Serial_await s) as [u s0|s0|s0]; try discriminate.
  destruct (Z.leb_spec c SERIAL_PACKET) as [Hle|Hgt].
  - unfold bind at 1 in H.
    destruct (Serial_read s0) as [d s1|s1|s1]; try discriminate.
    unfold bind at 1 in H.
    destruct (buf_store b c d s1) as [l s2|s2|s2] eqn:Eb; try discriminate.
    unfold SERIAL_PACKET in Hle. rewrite u8_small in H by lia.
    apply IH in H; [|lia]. destruct H as [H1 H2].
    assert (El : rd l 1 = rd b 1).
    { unfold buf_store in Eb. destruct (c <? SERIAL_PACKET).
      - injection Eb as <- _. unfold rd, wr. apply nth_upd_other. lia.
      - injection Eb as <- _. reflexivity. }
    rewrite El in *. split; assumption.
  - discriminate.
Qed.

Lemma upload_receive_frame_count (s s1 : sys) (buff : list Z) (n : Z) :
  upload_receive s = Ret (Some (buff, n)) s1 ->
  rd buff 1 * FRAME_SIZE + META_SIZE <= n <= 143 /\ rd buff 1 <= MAX_FRAMES.
Proof.
  unfold upload_receive. intros H.
  unfold bind at 1 in H.
  destruct (Serial_await s) as [u s0|s0|s0]; try discriminate.
  unfold bind at 1 in H.
  destruct (Serial_read s0) as [b0 s2|s2|s2]; try discriminate.
  unfold bind at 1 in H.
  destruct (Serial_await s2) as [u' s3|s3|s3]; try discriminate.
  unfold bind at 1 in H.
  destruct (Serial_read s3) as [b1 s4|s4|s4]; try discriminate.
  apply upload_loop_done in H; [|unfold META_SIZE; lia].
  destruct H as [H1 H2]. rewrite H1.
  unfold FRAME_SIZE, META_SIZE, MAX_FRAMES in *. lia.
Qed.

(** The buffer before the loop: the two header bytes, and cells that
    have not been written. *)
Lemma header_buffer (b0 b1 : Z) :
  wr (wr (repeat 0 (Z.to_nat SERIAL_PACKET)) 0 b0) 1 b1
  = [b0; b1] ++ repeat 0 140.
Proof. reflexivity. Qed.

Lemma upload_header (s : sys) (b0 b1 : Z) (more : list Z) :
  rx_stream (world s) = b0 :: b1 :: more ->
  upload_receive s
  = upload_loop 256 ([b0; b1] ++ repeat 0 140) 2
      (set_world (drop_rx (world s) 2) s) /\
  rx_stream (drop_rx (world s) 2) = more.
Proof.
  intros H. unfold upload_receive.
  destruct (await_read_stream
              (fun b0 => Serial_await ;; b1 <- Serial_read ;;
                 upload_loop 256
                   (wr (wr (repeat 0 (Z.to_nat SERIAL_PACKET)) 0 b0) 1 b1)
                   META_SIZE)
              s b0 (b1 :: more) H) as [H1 Hr1].
  rewrite H1. clear H1.
  destruct (await_read_stream
              (fun b1 => upload_loop 256
                   (wr (wr (repeat 0 (Z.to_nat SERIAL_PACKET)) 0 b0) 1 b1)
                   META_SIZE)
              (set_world (drop_rx (world s) 1) s) b1 more Hr1) as [H2 Hr2].
  rewrite H2. clear H2. cbn [world set_world] in *.
  rewrite drop_rx_add in *. rewrite header_buffer.
  split; [reflexivity|exact Hr2].
Qed.

(** An upload whose frame count fits: the payload is read into the
    buffer and the loop ends. *)
Lemma upload_receive_fits (s : sys) (b0 fc : Z) (payload more : list Z) :
  rx_stream (world s) = b0 :: fc :: payload ++ more ->
  0 <= fc <= 20 ->
  List.length payload = Z.to_nat (fc * FRAME_SIZE) ->
  upload_receive s
  = Ret (Some ([b0; fc] ++ payload ++ repeat 0 (140 - List.length payload),
               fc * FRAME_SIZE + META_SIZE))
      (set_world (drop_rx (world s) (2 + List.length payload)) s).
Proof.
  intros Hs Hfc Hlen. unfold FRAME_SIZE, META_SIZE in *.
  destruct (upload_header s b0 fc (payload ++ more) Hs) as [H1 Hr].
  rewrite H1. clear H1.
  assert (Hl := upload_loop_reads payload 256 [b0; fc] 140
                  (set_world (drop_rx (world s) 2) s) more Hr).
  cbn [List.length world set_world] in Hl.
  change (rd [b0; fc] 1) with fc in Hl.
  unfold FRAME_SIZE, META_SIZE in Hl.
  change (Z.of_nat 2) with 2 in Hl.
  rewrite Hl by lia. clear Hl.
  rewrite drop_rx_add, upload_loop_eq.
  rewrite rd_app_l by (rewrite length_app; cbn; lia).
  rewrite length_app. cbn [List.length].
  replace (rd ([b0; fc] ++ payload) 1) with fc
    by (unfold rd; reflexivity).
  unfold FRAME_SIZE, META_SIZE.
  replace (Z.of_nat (2 + List.length payload) <? fc * 7 + 2)
    with false by (symmetry; apply Z.ltb_ge; lia).
  unfold ret. rewrite <- app_assoc.
  repeat f_equal. lia.
Qed.

(* ------------------------------------------------------------------ *)
(** ** EEPROM *)

Lemma EEPROM_write_outside (addr : Z) (bs : list Z) (e : Z -> Z) (x : Z) :
  x < addr \/ addr + Z.of_nat (List.length bs) <= x ->
  EEPROM_write addr bs e x = e x.
Proof.
  intros H. unfold EEPROM_write.
  destruct (Z.leb_spec addr x), (Z.ltb_spec x (addr + Z.of_nat (List.length bs)));
    cbn [andb]; try reflexivity; lia.
Qed.

Lemma EEPROM_write_inside (addr : Z) (bs : list Z) (e : Z -> Z) (k : Z) :
  0 <= k < Z.of_nat (List.length bs) ->
  EEPROM_write addr bs e (addr + k) = nth (Z.to_nat k) bs 0.
Proof.
  intros H. unfold EEPROM_write.
  replace (addr <=? addr + k) with true by (symmetry; apply Z.leb_le; lia).
  replace (addr + k <? addr + Z.of_nat (List.length bs)) with true
    by (symmetry; apply Z.ltb_lt; lia).
  cbn [andb]. f_equal. lia.
Qed.

Lemma EEPROM_read_ext (addr n : Z) (e e' : Z -> Z) :
  (forall x, addr <= x < addr + n -> e x = e' x) ->
  EEPROM_read addr n e = EEPROM_read addr n e'.
Proof.
  intros H. unfold EEPROM_read. apply map_ext_in. intros k Hk.
  apply H. unfold upto in Hk. apply in_map_iff in Hk as (i & <- & Hi).
  apply in_seq in Hi. lia.
Qed.

Lemma EEPROM_read_write (addr : Z) (bs : list Z) (e : Z -> Z) :
  EEPROM_read addr (Z.of_nat (List.length bs)) (EEPROM_write addr bs e) = bs.
Proof.
  unfold EEPROM_read. apply nth_ext with (d := 0) (d' := 0).
  - now rewrite length_map, upto_length, Nat2Z.id.
  - intros i Hi. rewrite length_map, upto_length, Nat2Z.id in Hi.
    rewrite nth_indep with (d' := EEPROM_write addr bs e (addr + 0))
      by (now rewrite length_map, upto_length, Nat2Z.id).
    rewrite (map_nth (fun k => EEPROM_write addr bs e (addr + k))).
    rewrite nth_upto by lia.
    rewrite EEPROM_write_inside by lia. now rewrite Nat2Z.id.
Qed.

Section Store.
Variable L : layout.
Hypothesis HL : layout_ok L.

(** A record that was put in a slot is what a get of that slot gives. *)
Lemma EEPROM_get_put (addr : Z) (a : animation) (e : Z -> Z) :
  animation_wf a -> EEPROM_get L addr (EEPROM_put L addr a e) = a.
Proof.
  intros Hwf. unfold EEPROM_get, EEPROM_put.
  rewrite <- (to_bytes_length L HL a Hwf), EEPROM_read_write.
  now apply (of_to_bytes L HL).
Qed.

(** A put writes the [sizeof] bytes from its address on and no other. *)
Lemma EEPROM_put_outside (addr : Z) (a : animation) (e : Z -> Z) (x : Z) :
  animation_wf a ->
  x < addr \/ addr + sizeof_animation L <= x ->
  EEPROM_put L addr a e x = e x.
Proof.
  intros Hwf H. unfold EEPROM_put. apply EEPROM_write_outside.
  now rewrite (to_bytes_length L HL a Hwf).
Qed.

(** The regions of two slots do not overlap. *)
Lemma EEPROM_get_put_other (i j : Z) (a : animation) (e : Z -> Z) :
  animation_wf a -> i <> j ->
  EEPROM_get L (slot_addr L j) (EEPROM_put L (slot_addr L i) a e)
  = EEPROM_get L (slot_addr L j) e.
Proof.
  intros Hwf Hij. unfold EEPROM_get. f_equal. apply EEPROM_read_ext.
  intros x Hx. apply EEPROM_put_outside; [assumption|].
  pose proof (sizeof_pos L HL). unfold slot_addr in *. nia.
Qed.
End Store.

(* ------------------------------------------------------------------ *)
(** ** What [saveAnimationFromSerial] builds is an object *)

Lemma rd_u8 (l : list Z) (i : Z) : Forall is_u8 l -> is_u8 (rd l i).
Proof.
  intros H. unfold rd. destruct (Nat.lt_ge_cases (Z.to_nat i) (List.length l)).
  - rewrite Forall_forall in H. apply H. now apply nth_In.
  - rewrite nth_overflow by assumption. unfold is_u8. lia.
Qed.

Lemma frame_at_wf (buff : list Z) (i : Z) :
  Forall is_u8 buff -> frame_wf (frame_at buff i).
Proof.
  intros H. unfold frame_wf, frame_at. cbn [color0 color1 color2 f_time].
  repeat split; try apply rd_u8; try assumption;
    apply be32_range; apply rd_u8; assumption.
Qed.

Lemma Forall_skipn {A : Type} (P : A -> Prop) (n : nat) (l : list A) :
  Forall P l -> Forall P (skipn n l).
Proof.
  intros H. revert n. induction H as [|x l Hx Hl IH]; intros [|n]; simpl;
    auto.
Qed.

Lemma parse_animation_wf (buff : list Z) (junk : animation) :
  Forall is_u8 buff -> animation_wf junk -> 0 <= rd buff 1 <= MAX_FRAMES ->
  animation_wf (parse_animation buff junk).
Proof.
  intros Hb (Hc & Hlen & Hfr & Ht) Hfc. unfold MAX_FRAMES in *.
  rewrite parse_animation_spec by lia.
  unfold animation_wf. cbn [frameCount frames a_time]. repeat split.
  - apply rd_u8; assumption.
  - apply rd_u8; assumption.
  - rewrite length_app, length_map, upto_length, length_skipn.
    unfold MAX_FRAMES. lia.
  - apply Forall_app. split.
    + apply Forall_forall. intros f Hf. apply in_map_iff in Hf as (i & <- & _).
      now apply frame_at_wf.
    + now apply Forall_skipn.
  - destruct (0 <? rd buff 1); [apply frame_at_wf; assumption|apply Ht].
  - destruct (0 <? rd buff 1); [apply frame_at_wf; assumption|apply Ht].
Qed.

Lemma rx_stream_u8 (w : list poll) : Forall is_u8 (rx_stream w).
Proof.
  induction w as [|p w IH]; [constructor|].
  unfold rx_stream. cbn [flat_map]. apply Forall_app. split; [|exact IH].
  destruct (p_rx p); constructor; [apply u8_range|constructor].
Qed.

Lemma repeat_0_u8 (n : nat) : Forall is_u8 (repeat 0 n).
Proof.
  induction n; simpl; constructor; auto. unfold is_u8. lia.
Qed.

(* ------------------------------------------------------------------ *)
(** ** The 168-byte layout is a layout *)

Lemma rd_app_right (pre post : list Z) (i : Z) :
  0 <= i -> (List.length pre <= Z.to_nat i)%nat ->
  rd (pre ++ post) i = rd post (i - Z.of_nat (List.length pre)).
Proof.
  intros H0 H. unfold rd. rewrite app_nth2 by assumption. f_equal. lia.
Qed.

Lemma frame_mem_length (f : frame) : List.length (frame_mem f) = 8%nat.
Proof. reflexivity. Qed.

Lemma rd_frame_mem (fs : list frame) (post : list Z) (k j : Z) :
  0 <= k -> (Z.to_nat k < List.length fs)%nat -> 0 <= j < 8 ->
  rd (flat_map frame_mem fs ++ post) (k * 8 + j)
  = nth (Z.to_nat j) (frame_mem (nth (Z.to_nat k) fs frame0)) 0.
Proof.
  intros Hk Hl Hj.
  rewrite rd_app_l
    by (rewrite (length_flat_map_chunk _ 8) by apply frame_mem_length; lia).
  unfold rd.
  replace (Z.to_nat (k * 8 + j)) with (8 * Z.to_nat k + Z.to_nat j)%nat by lia.
  apply nth_flat_map_chunk; [apply frame_mem_length | lia | lia].
Qed.

Lemma frame_of_mem_frame_mem (fs : list frame) (post : list Z) (k : Z) :
  0 <= k -> (Z.to_nat k < List.length fs)%nat -> Forall frame_wf fs ->
  frame_of_mem (flat_map frame_mem fs ++ post) k = nth (Z.to_nat k) fs frame0.
Proof.
  intros Hk Hl Hwf. unfold frame_of_mem.
  replace (k * 8) with (k * 8 + 0) at 1 by lia.
  rewrite !rd_frame_mem by lia.
  assert (Hf : frame_wf (nth (Z.to_nat k) fs frame0)).
  { rewrite Forall_forall in Hwf. apply Hwf. now apply nth_In. }
  destruct (nth (Z.to_nat k) fs frame0) as [c0 c1 c2 t].
  destruct Hf as (_ & _ & _ & Ht). cbn [f_time] in Ht.
  change (Z.to_nat 0) with 0%nat. change (Z.to_nat 1) with 1%nat.
  change (Z.to_nat 2) with 2%nat. change (Z.to_nat 4) with 4%nat.
  change (Z.to_nat 5) with 5%nat. change (Z.to_nat 6) with 6%nat.
  change (Z.to_nat 7) with 7%nat.
  cbn [frame_mem le32 app nth color0 color1 color2 f_time].
  now rewrite be32_bytes.
Qed.

Lemma xiao_layout_ok : layout_ok xiao_layout.
Proof.
  constructor.
  - cbn. lia.
  - intros a (_ & Hlen & _ & _). cbn [xiao_layout to_bytes sizeof_animation].
    unfold xiao_to_bytes.
    rewrite length_app, (length_flat_map_chunk _ 8) by apply frame_mem_length.
    rewrite Hlen. reflexivity.
  - intros [fc fs t] (Hc & Hlen & Hwf & Ht).
    cbn [frameCount frames a_time] in *.
    cbn [xiao_layout to_bytes of_bytes]. unfold xiao_of_bytes, xiao_to_bytes.
    cbn [frameCount frames a_time].
    assert (HF : List.length (flat_map frame_mem fs) = 160%nat).
    { rewrite (length_flat_map_chunk _ 8) by apply frame_mem_length.
      rewrite Hlen. reflexivity. }
    f_equal.
    + rewrite rd_app_right by (rewrite ?HF; lia). rewrite HF. reflexivity.
    + apply nth_ext with (d := frame0) (d' := frame0).
      * rewrite length_map, upto_length. now rewrite Hlen.
      * intros n Hn. rewrite length_map, upto_length in Hn.
        rewrite nth_indep
          with (d' := frame_of_mem
                        (flat_map frame_mem fs ++ le32 t ++ [fc; 0; 0; 0]) 0)
          by (now rewrite length_map, upto_length).
        rewrite map_nth, nth_upto by assumption.
        rewrite frame_of_mem_frame_mem; try lia; auto.
        now rewrite Nat2Z.id.
    + rewrite (rd_app_right (flat_map frame_mem fs) _ 163),
        (rd_app_right (flat_map frame_mem fs) _ 162),
        (rd_app_right (flat_map frame_mem fs) _ 161),
        (rd_app_right (flat_map frame_mem fs) _ 160) by (rewrite ?HF; lia).
      rewrite HF.
      cbn [le32 app]. unfold rd.
      change (Z.to_nat (163 - Z.of_nat 160)) with 3%nat.
      change (Z.to_nat (162 - Z.of_nat 160)) with 2%nat.
      change (Z.to_nat (161 - Z.of_nat 160)) with 1%nat.
      change (Z.to_nat (160 - Z.of_nat 160)) with 0%nat.
      cbn [nth]. now apply be32_bytes.
Qed.

(* ------------------------------------------------------------------ *)
(** ** What a piece of the firmware leaves alone *)

Lemma keeps_bind {A B X : Type} (f : sys -> X) (c : M A) (k : A -> M B) :
  keeps f c -> (forall a, keeps f (k a)) -> keeps f (bind c k).
Proof.
  intros Hc Hk s. unfold bind. specialize (Hc s).
  destruct (c s) as [a s'| s' | s']; cbn [final] in *; auto.
  now rewrite Hk.
Qed.

Lemma keeps_ret {A X : Type} (f : sys -> X) (a : A) : keeps f (ret a).
Proof. intros s. reflexivity. Qed.

Lemma keeps_resetFunc {A X : Type} (f : sys -> X) : keeps f (@resetFunc A).
Proof. intros s. reflexivity. Qed.

Lemma io_blind_eeprom : io_blind eeprom.
Proof. repeat split. Qed.

Lemma store_blind_buttons : store_blind buttons.
Proof. repeat split. Qed.

Lemma store_blind_lastMode : store_blind lastMode.
Proof. repeat split. Qed.

Section Keeps.
Context {X : Type} (f : sys -> X).
Hypothesis Hf : io_blind f.

Lemma keeps_Serial_write (bs : list Z) : keeps f (Serial_write bs).
Proof. intros s. apply Hf. Qed.

Lemma keeps_Serial_await : keeps f Serial_await.
Proof.
  intros s. unfold Serial_await.
  destruct (await_rx (world s)); apply Hf.
Qed.

Lemma keeps_Serial_read : keeps f Serial_read.
Proof.
  intros s. unfold Serial_read. destruct (world s) as [|p w]; [reflexivity|].
  destruct (p_rx p); apply Hf.
Qed.

Lemma keeps_buf_store (b : list Z) (i v : Z) : keeps f (buf_store b i v).
Proof.
  intros s. unfold buf_store.
  destruct (i <? SERIAL_PACKET); [reflexivity|apply Hf].
Qed.

Lemma keeps_waitForAck : keeps f (waitForAck 1000).
Proof.
  intros s. unfold waitForAck. destruct (world s) as [|p w]; [reflexivity|].
  destruct (waitForAck_poll 1000 (p_now p) (p :: w)) as [[[|] w']|];
    cbn [final]; try apply Hf.
  unfold bind, Serial_println, Serial_write, Serial_flush, modify, ret.
  cbn [final]. destruct Hf as (Hw & Ht & _). now rewrite Ht, Hw.
Qed.

Lemma keeps_readStringUntil (t : Z) : keeps f (Serial_readStringUntil t).
Proof.
  intros s. unfold Serial_readStringUntil.
  destruct (readStringUntil_poll t None [] (world s)) as [[code w]|];
    apply Hf.
Qed.

Lemma keeps_upload_loop (n : nat) :
  forall b c, keeps f (upload_loop n b c).
Proof.
  induction n as [|n IH]; intros b c; rewrite upload_loop_eq;
    destruct (c <? rd b 1 * FRAME_SIZE + META_SIZE);
    try apply keeps_ret.
  - intros s. reflexivity.
  - apply keeps_bind; [apply keeps_Serial_await|]. intros _.
    destruct (c <=? SERIAL_PACKET).
    + apply keeps_bind; [apply keeps_Serial_read|]. intros d.
      apply keeps_bind; [apply keeps_buf_store|]. intros b'. apply IH.
    + apply keeps_bind; [apply keeps_Serial_write|]. intros _.
      apply keeps_ret.
Qed.

Lemma keeps_upload_receive : keeps f upload_receive.
Proof.
  unfold upload_receive.
  apply keeps_bind; [apply keeps_Serial_await|]. intros _.
  apply keeps_bind; [apply keeps_Serial_read|]. intros b0.
  apply keeps_bind; [apply keeps_Serial_await|]. intros _.
  apply keeps_bind; [apply keeps_Serial_read|]. intros b1.
  apply keeps_upload_loop.
Qed.

Lemma keeps_gated (msgs : list (list Z)) : keeps f (gated msgs).
Proof.
  induction msgs as [|m ms IH]; [apply keeps_ret|].
  cbn [gated].
  apply keeps_bind; [apply keeps_waitForAck|]. intros ok.
  apply keeps_bind; [destruct ok; [apply keeps_ret|apply keeps_resetFunc]|].
  intros _. apply keeps_bind; [apply keeps_Serial_write|]. intros _. exact IH.
Qed.
End Keeps.

(* ------------------------------------------------------------------ *)
(** ** Upload: the exchange *)

Section UploadExchange.
Variable L : layout.

Lemma ack_shape_true (w idle rest : list poll) (p : poll) :
  w = idle ++ p :: rest ->
  forallb (is_quiet 1000 (clock0 w)) idle = true -> is_ack p = true ->
  waitForAck_poll 1000 (clock0 w) w = Some (true, rest).
Proof.
  intros Hw Hq Hp. apply waitForAck_poll_true. exists idle, p. auto.
Qed.

Lemma ack_shape_false (w idle rest : list poll) (p : poll) :
  w = idle ++ p :: rest ->
  forallb (is_quiet 1000 (clock0 w)) idle = true ->
  is_nack 1000 (clock0 w) p = true ->
  waitForAck_poll 1000 (clock0 w) w = Some (false, rest).
Proof.
  intros Hw Hq Hp. apply waitForAck_poll_false. exists idle, p. auto.
Qed.

(** The exchange from the echo on, when the acknowledgement comes. *)
Lemma upload_acked (s s1 : sys) (buff : list Z) (n : Z) (rest : list poll) :
  upload_receive s = Ret (Some (buff, n)) s1 ->
  waitForAck_poll 1000 (clock0 (world s1)) (world s1) = Some (true, rest) ->
  handleUploadRequest L s
  = Ret tt
      (set_tx ((tx s1 ++ firstn (Z.to_nat n) buff)
               ++ bytes_of_string "Done" ++ CRLF)
         (set_eeprom
            (EEPROM_put L (slot_addr L (rd buff 0))
               (parse_animation buff (junk s1)) (eeprom s1))
            (set_world rest s1))).
Proof.
  intros Hr Ha. unfold handleUploadRequest.
  rewrite (bind_Ret _ _ _ _ _ Hr).
  unfold bind at 1, Serial_write, modify.
  rewrite (bind_Ret _ _ _ _ _
             (waitForAck_true (set_tx (tx s1 ++ firstn (Z.to_nat n) buff) s1)
                rest Ha)).
  reflexivity.
Qed.


End UploadExchange.

Lemma rx_stream_drop (bs : list Z) :
  forall (w : list poll) (more : list Z),
    rx_stream w = bs ++ more ->
    rx_stream (drop_rx w (List.length bs)) = more.
Proof.
  induction bs as [|b bs IH]; intros w more H.
  - now rewrite drop_rx_0.
  - cbn [app] in H.
    destruct (skip_idle_stream w b (bs ++ more) H)
      as (p & w' & raw & _ & _ & _ & Hw & Hm).
    subst w'. apply IH in Hm. rewrite drop_rx_add in Hm. exact Hm.
Qed.

Lemma Serial_await_skip (s : sys) (b : Z) (more : list Z) :
  rx_stream (world s) = b :: more ->
  Serial_await s = Ret tt (set_world (skip_idle (world s)) s).
Proof.
  intros H. destruct (Serial_await_stream s b more H) as (p & raw & Ha & Hs & _).
  now rewrite Hs.
Qed.

(** An upload whose frame count does not fit.  The loop stores while
    [buffCount <= SERIAL_PACKET]: the 141st payload byte goes to index 142,
    one past the last cell of [localBuff]; the pass after that waits for a
    further byte, sends an empty line and returns. *)
Lemma upload_receive_overflow (s : sys) (b0 fc y x : Z)
    (payload more : list Z) :
  rx_stream (world s) = b0 :: fc :: payload ++ y :: x :: more ->
  21 <= fc -> List.length payload = 140%nat ->
  upload_receive s
  = Ret None
      (set_tx (tx s ++ CRLF)
         (set_oob (oob s ++ [(142, y)])
            (set_world (skip_idle (drop_rx (world s) 143)) s))).
Proof.
  intros Hs Hfc Hlen.
  destruct (upload_header s b0 fc (payload ++ y :: x :: more) Hs) as [H1 Hr].
  rewrite H1. clear H1.
  assert (Hl := upload_loop_reads payload 256 [b0; fc] 140
                  (set_world (drop_rx (world s) 2) s) (y :: x :: more) Hr).
  cbn [List.length world set_world] in Hl.
  change (rd [b0; fc] 1) with fc in Hl.
  unfold FRAME_SIZE, META_SIZE in Hl. change (Z.of_nat 2) with 2 in Hl.
  rewrite Hl by lia. clear Hl.
  apply rx_stream_drop in Hr. rewrite drop_rx_add in *.
  rewrite length_app, Hlen in *. cbn [List.length Nat.add Nat.sub] in *.
  change (256 - 140)%nat with 116%nat. change (140 - 140)%nat with 0%nat.
  change (Z.of_nat 142) with 142. cbn [repeat]. rewrite app_nil_r.
  (* the pass that stores at index 142 *)
  rewrite upload_loop_eq.
  rewrite rd_app_l by (cbn; lia). change (rd [b0; fc] 1) with fc.
  unfold FRAME_SIZE, META_SIZE.
  replace (142 <? fc * 7 + 2) with true by (symmetry; apply Z.ltb_lt; lia).
  change (142 <=? SERIAL_PACKET) with true. cbv iota.
  set (s3 := set_world (drop_rx (world s) 142) s).
  change (set_world (drop_rx (world s) 142)
            (set_world (drop_rx (world s) 2) s)) with s3.
  assert (Hs3 : rx_stream (world s3) = y :: x :: more) by exact Hr.
  destruct (await_read_stream
              (fun data =>
                 localBuff' <- buf_store ([b0; fc] ++ payload) 142 data ;;
                 upload_loop 115 localBuff' (u8 (142 + 1)))
              s3 y (x :: more) Hs3) as [Hstep Hrest].
  rewrite Hstep. clear Hstep.
  unfold bind at 1, buf_store. change (142 <? SERIAL_PACKET) with false.
  cbv iota. unfold bind at 1, modify, ret at 1.
  change (u8 (142 + 1)) with 143.
  (* the pass that gives up *)
  rewrite upload_loop_eq.
  rewrite rd_app_l by (cbn; lia). change (rd [b0; fc] 1) with fc.
  unfold FRAME_SIZE, META_SIZE.
  replace (143 <? fc * 7 + 2) with true by (symmetry; apply Z.ltb_lt; lia).
  change (143 <=? SERIAL_PACKET) with false. cbv iota.
  set (s4 := set_oob _ _).
  assert (Hs4 : rx_stream (world s4) = x :: more) by exact Hrest.
  rewrite (bind_Ret _ _ _ _ _ (Serial_await_skip s4 x more Hs4)).
  unfold s4, s3. cbn [world set_world set_oob]. rewrite drop_rx_add.
  reflexivity.
Qed.

Section UploadClaims.
Variable L : layout.

(** C2 (where the code departs from the claim).  For every upload whose
    frame count is above 20, and so asks for more than 142 bytes, the
    function replies with an empty line and returns with the EEPROM
    untouched, but not before it has stored one byte at index 142, one
    past the end of the 142-byte buffer. *)
Theorem upload_overflow_stores_past_end (s : sys) (b0 fc y x : Z)
    (payload more : list Z) :
  rx_stream (world s) = b0 :: fc :: payload ++ y :: x :: more ->
  21 <= fc -> List.length payload = 140%nat ->
  exists s',
    handleUploadRequest L s = Ret tt s' /\
    oob s' = oob s ++ [(SERIAL_PACKET, y)] /\
    tx s' = tx s ++ CRLF /\
    eeprom s' = eeprom s.
Proof.
  intros Hs Hfc Hlen. eexists. split.
  - unfold handleUploadRequest.
    rewrite (bind_Ret _ _ _ _ _
               (upload_receive_overflow s b0 fc y x payload more Hs Hfc Hlen)).
    reflexivity.
  - repeat split; reflexivity.
Qed.

(** An upload that fits stores nothing outside the buffer. *)
Lemma upload_fits_in_bounds (s : sys) (b0 fc : Z) (payload more : list Z) :
  rx_stream (world s) = b0 :: fc :: payload ++ more ->
  0 <= fc <= 20 ->
  List.length payload = Z.to_nat (fc * FRAME_SIZE) ->
  oob (final (upload_receive s)) = oob s.
Proof.
  intros Hs Hfc Hlen.
  now rewrite (upload_receive_fits s b0 fc payload more Hs Hfc Hlen).
Qed.

(** The whole exchange when the frame count fits and the echo is
    acknowledged. *)
Lemma upload_success (s : sys) (b0 fc : Z) (payload more : list Z)
    (idle : list poll) (p : poll) (rest : list poll) :
  rx_stream (world s) = b0 :: fc :: payload ++ more ->
  0 <= fc <= 20 ->
  List.length payload = Z.to_nat (fc * FRAME_SIZE) ->
  drop_rx (world s) (2 + List.length payload) = idle ++ p :: rest ->
  forallb (is_quiet 1000
             (clock0 (drop_rx (world s) (2 + List.length payload)))) idle
    = true ->
  is_ack p = true ->
  handleUploadRequest L s
  = Ret tt
      (set_tx ((tx s ++ [b0; fc] ++ payload)
               ++ bytes_of_string "Done" ++ CRLF)
         (set_eeprom
            (EEPROM_put L (slot_addr L b0)
               (parse_animation
                  ([b0; fc] ++ payload
                   ++ repeat 0 (140 - List.length payload)) (junk s))
               (eeprom s))
            (set_world rest s))).
Proof.
  intros Hs Hfc Hlen Hw Hq Hp.
  pose proof (upload_receive_fits s b0 fc payload more Hs Hfc Hlen) as Hr.
  rewrite (upload_acked L s _ _ _ rest Hr).
  - cbn [tx junk eeprom set_world world rd nth app Z.to_nat].
    replace (firstn (Z.to_nat (fc * FRAME_SIZE + META_SIZE))
               (b0 :: fc :: payload ++ repeat 0 (140 - List.length payload)))
      with (b0 :: fc :: payload); [reflexivity|].
    replace (Z.to_nat (fc * FRAME_SIZE + META_SIZE))
      with (S (S (List.length payload)))
      by (unfold FRAME_SIZE, META_SIZE in *; lia).
    cbn [firstn]. now rewrite firstn_app, firstn_all, Nat.sub_diag, app_nil_r.
  - cbn [world set_world]. now apply (ack_shape_true _ idle rest p).
Qed.
End UploadClaims.

(* ------------------------------------------------------------------ *)
(** ** Command dispatch *)

Lemma readStringUntil_state (t : Z) (s s1 : sys) (code : list Z) :
  Serial_readStringUntil t s = Ret code s1 -> s1 = set_world (world s1) s.
Proof.
  unfold Serial_readStringUntil.
  destruct (readStringUntil_poll t None [] (world s)) as [[c w]|];
    [|discriminate].
  intros H. injection H as _ <-. reflexivity.
Qed.

Section Dispatch.
Variable L : layout.

Lemma handleSerial_upload (s s1 : sys) (code : list Z) :
  Serial_readStringUntil 45 s = Ret code s1 ->
  48 <= first_char code <= 53 ->
  handleSerial L s
  = handleUploadRequest L
      (set_tx ((tx s1 ++ bytes_of_string "ready_") ++ code ++ CRLF) s1).
Proof.
  intros Hr Hc. unfold handleSerial. rewrite (bind_Ret _ _ _ _ _ Hr).
  unfold bind at 1, Serial_print, Serial_write, modify.
  unfold bind at 1, Serial_println, Serial_write, modify.
  unfold bind at 1, Serial_flush, ret.
  replace (48 <=? first_char code) with true
    by (symmetry; apply Z.leb_le; lia).
  replace (first_char code <=? 53) with true
    by (symmetry; apply Z.leb_le; lia).
  reflexivity.
Qed.

Lemma handleSerial_download (s s1 : sys) (code : list Z) :
  Serial_readStringUntil 45 s = Ret code s1 ->
  first_char code = 100 ->
  handleSerial L s
  = handleDownloadRequest L
      (set_tx ((tx s1 ++ bytes_of_string "ready_") ++ code ++ CRLF) s1).
Proof.
  intros Hr Hc. unfold handleSerial. rewrite (bind_Ret _ _ _ _ _ Hr).
  unfold bind at 1, Serial_print, Serial_write, modify.
  unfold bind at 1, Serial_println, Serial_write, modify.
  unfold bind at 1, Serial_flush, ret.
  rewrite Hc. reflexivity.
Qed.

(** C5.  After a successful upload the record decoded from the buffer is
    in the slot that byte 0 of the buffer names: the EEPROM is the old
    one with that record put at that slot's address, whichever of the
    digits '0' to '5' the command began with; a get of that slot gives the
    record, and every other slot, the one of the command digit too when
    it is another, gives what it gave before. *)
Theorem upload_slot_from_payload (s s1 : sys) (code : list Z) (b0 fc : Z)
    (payload more : list Z) (idle : list poll) (p : poll) (rest : list poll) :
  Serial_readStringUntil 45 s = Ret code s1 ->
  48 <= first_char code <= 53 ->
  rx_stream (world s1) = b0 :: fc :: payload ++ more ->
  0 <= fc <= 20 ->
  List.length payload = Z.to_nat (fc * FRAME_SIZE) ->
  drop_rx (world s1) (2 + List.length payload) = idle ++ p :: rest ->
  forallb (is_quiet 1000
             (clock0 (drop_rx (world s1) (2 + List.length payload)))) idle
    = true ->
  is_ack p = true ->
  let record :=
    parse_animation
      ([b0; fc] ++ payload ++ repeat 0 (140 - List.length payload))
      (junk s) in
  exists s',
    handleSerial L s = Ret tt s' /\
    eeprom s' = EEPROM_put L (slot_addr L b0) record (eeprom s) /\
    (layout_ok L -> animation_wf (junk s) ->
     EEPROM_get L (slot_addr L b0) (eeprom s') = record /\
     forall j, j <> b0 ->
       EEPROM_get L (slot_addr L j) (eeprom s')
       = EEPROM_get L (slot_addr L j) (eeprom s)).
Proof.
  intros Hr Hc Hs Hfc Hlen Hw Hq Hp record.
  pose proof (readStringUntil_state _ _ _ _ Hr) as Hs1.
  rewrite (handleSerial_upload s s1 code Hr Hc).
  rewrite (upload_success L _ b0 fc payload more idle p rest);
    try assumption.
  eexists. split; [reflexivity|].
  cbn [eeprom junk set_tx set_eeprom set_world].
  assert (He : eeprom s1 = eeprom s) by (rewrite Hs1; reflexivity).
  assert (Hj : junk s1 = junk s) by (rewrite Hs1; reflexivity).
  rewrite He, Hj. fold record. split; [reflexivity|].
  intros HL Hjunk.
  assert (Hwf : animation_wf record).
  { pose proof (rx_stream_u8 (world s1)) as Hu. rewrite Hs in Hu.
    inversion Hu as [|? ? Hb0 Hu1]; subst.
    inversion Hu1 as [|? ? Hbfc Hu2]; subst.
    apply Forall_app in Hu2 as [Hpay _].
    apply parse_animation_wf; [|assumption|].
    - cbn [app]. apply Forall_cons; [assumption|].
      apply Forall_cons; [assumption|].
      apply Forall_app; split; [assumption|apply repeat_0_u8].
    - change (rd ([b0; fc] ++ payload ++ repeat 0 (140 - List.length payload)) 1)
        with fc. unfold MAX_FRAMES. lia. }
  split.
  - now apply EEPROM_get_put.
  - intros j Hjb. apply EEPROM_get_put_other; auto.
Qed.

(** C10.  An upload that announces no keyframe is taken like any other:
    no payload byte is read, the two header bytes are echoed, and on the
    acknowledgement an object with frame count 0, and with the total
    duration and the keyframes that the local happened to hold, is put in
    the slot that byte 0 names. *)
Theorem upload_zero_frames (s : sys) (b0 : Z) (more : list Z)
    (idle : list poll) (p : poll) (rest : list poll) :
  rx_stream (world s) = b0 :: 0 :: more ->
  drop_rx (world s) 2 = idle ++ p :: rest ->
  forallb (is_quiet 1000 (clock0 (drop_rx (world s) 2))) idle = true ->
  is_ack p = true ->
  exists s',
    handleUploadRequest L s = Ret tt s' /\
    world s' = rest /\
    tx s' = (tx s ++ [b0; 0]) ++ bytes_of_string "Done" ++ CRLF /\
    eeprom s'
    = EEPROM_put L (slot_addr L b0)
        (mkAnimation 0 (frames (junk s)) (a_time (junk s))) (eeprom s) /\
    (layout_ok L -> animation_wf (junk s) ->
     frameCount (EEPROM_get L (slot_addr L b0) (eeprom s')) = 0 /\
     a_time (EEPROM_get L (slot_addr L b0) (eeprom s')) = a_time (junk s)).
Proof.
  intros Hs Hw Hq Hp.
  rewrite (upload_success L s b0 0 [] more idle p rest); auto; try lia.
  eexists. split; [reflexivity|].
  cbn [world tx eeprom set_tx set_eeprom set_world].
  split; [reflexivity|]. split; [reflexivity|]. split; [reflexivity|].
  intros HL (Hc & Hlen & Hfr & Ht).
  change (parse_animation ([b0; 0] ++ [] ++ repeat 0 (140 - List.length (@nil Z)))
            (junk s))
    with (mkAnimation 0 (frames (junk s)) (a_time (junk s))).
  rewrite EEPROM_get_put; [split; reflexivity|assumption|].
  unfold animation_wf, is_u8. cbn [frameCount frames a_time].
  unfold is_u32 in Ht. repeat split; auto; lia.
Qed.
End Dispatch.

(* ------------------------------------------------------------------ *)
(** ** The sample exchanges *)

Lemma upload_overflow_stores_past_end_witness :
  exists s',
    handleUploadRequest xiao_layout (start overflow_world) = Ret tt s' /\
    oob s' = [(142, 9)] /\ tx s' = tx (start overflow_world) ++ CRLF /\
    eeprom s' = sample_eeprom.
Proof.
  destruct (upload_overflow_stores_past_end xiao_layout (start overflow_world)
              0 21 9 8 (repeat 7 140) [] eq_refl ltac:(lia) eq_refl)
    as (s' & H1 & H2 & H3 & H4).
  exists s'. repeat split; assumption.
Defined.


Lemma upload_slot_from_payload_witness :
  exists s',
    handleSerial xiao_layout (start upload_ok_world) = Ret tt s' /\
    eeprom s'
    = EEPROM_put xiao_layout (slot_addr xiao_layout 4)
        (parse_animation ([4; 1] ++ red_payload ++ repeat 0 133) blank_anim)
        sample_eeprom.
Proof.
  destruct (upload_slot_from_payload xiao_layout (start upload_ok_world)
              (set_world (bytes_at 0 ([4; 1] ++ red_payload)
                          ++ [idle_at 10; rx_at 20 255])
                 (start upload_ok_world))
              [50] 4 1 red_payload [255] [idle_at 10] (rx_at 20 255) []
              eq_refl ltac:(cbn; lia) eq_refl ltac:(lia) eq_refl eq_refl
              eq_refl eq_refl)
    as (s' & H1 & H2 & _).
  exists s'. split; assumption.
Defined.

(** The upload example of the spec: slot 2 then holds the one keyframe,
    with the keyframe's timestamp as total duration, and the machine has
    sent the ready line, the echo of the nine bytes and the completion
    line. *)
Example happy_path :
  handleSerial xiao_layout (start happy_world) = Ret tt happy_end /\
  frameCount (EEPROM_get xiao_layout (slot_addr xiao_layout 2) (eeprom happy_end))
  = 1 /\
  keyframes (EEPROM_get xiao_layout (slot_addr xiao_layout 2) (eeprom happy_end))
  = [red_100] /\
  a_time (EEPROM_get xiao_layout (slot_addr xiao_layout 2) (eeprom happy_end))
  = 100 /\
  tx happy_end
  = tx (start happy_world)
    ++ bytes_of_string "ready_2" ++ CRLF
    ++ [2; 1] ++ red_payload
    ++ bytes_of_string "Done" ++ CRLF /\
  world happy_end = [] /\ oob happy_end = [].
Proof.
  split; [vm_compute; reflexivity|]. split; [vm_compute; reflexivity|].
  split; [vm_compute; reflexivity|]. split; [vm_compute; reflexivity|].
  split; [vm_compute; reflexivity|]. split; vm_compute; reflexivity.
Qed.

Lemma upload_zero_frames_witness :
  exists s',
    handleUploadRequest xiao_layout (start zero_world) = Ret tt s' /\
    eeprom s'
    = EEPROM_put xiao_layout (slot_addr xiao_layout 4)
        (mkAnimation 0 (frames blank_anim) (a_time blank_anim)) sample_eeprom.
Proof.
  destruct (upload_zero_frames xiao_layout (start zero_world) 4 [255]
              [] (rx_at 5 255) [] eq_refl eq_refl eq_refl eq_refl)
    as (s' & H1 & _ & _ & H2 & _).
  exists s'. split; assumption.
Defined.

(* ------------------------------------------------------------------ *)
(** ** Download *)

Lemma Serial_write_write {B : Type} (a b : list Z) (k : M B) (s : sys) :
  (Serial_write a ;; Serial_write b ;; k) s = (Serial_write (a ++ b) ;; k) s.
Proof.
  unfold bind, Serial_write, modify. cbn [tx set_tx].
  now rewrite <- app_assoc.
Qed.

Lemma Serial_write_nil (c : M unit) (s : sys) :
  (c ;; Serial_write [] ;; ret tt) s = c s.
Proof.
  unfold bind, Serial_write, modify, ret.
  destruct (c s) as [[] s'|s'|s']; try reflexivity.
  rewrite app_nil_r. now destruct s'.
Qed.

Lemma gated_app (a b : list (list Z)) (s : sys) :
  gated (a ++ b) s = (gated a ;; gated b) s.
Proof.
  revert s. induction a as [|m a IH]; intros s; [reflexivity|].
  cbn [app gated]. rewrite bind_assoc. apply bind_ext. intros ok s1.
  rewrite bind_assoc. apply bind_ext. intros _ s2.
  rewrite bind_assoc. apply bind_ext. intros _ s3.
  apply IH.
Qed.

(** Waits that are all acknowledged: every message is sent. *)
Lemma gated_acks (msgs : list (list Z)) :
  forall (s : sys) (rest : list poll),
    acks (List.length msgs) (world s) = Some rest ->
    gated msgs s = Ret tt (set_tx (tx s ++ List.concat msgs) (set_world rest s)).
Proof.
  induction msgs as [|m ms IH]; intros s rest H.
  - cbn in H. injection H as <-. cbn [gated List.concat]. unfold ret.
    rewrite app_nil_r. now destruct s.
  - cbn [List.length acks] in H.
    destruct (waitForAck_poll 1000 (clock0 (world s)) (world s))
      as [[[|] w']|] eqn:E; try discriminate.
    cbn [gated]. rewrite (bind_Ret _ _ _ _ _ (waitForAck_true s w' E)).
    cbn [negb]. unfold bind at 1, ret at 1.
    unfold bind at 1, Serial_write, modify.
    change (tx (set_world w' s)) with (tx s).
    rewrite (IH (set_tx (tx s ++ m) (set_world w' s)) rest H).
    cbn [tx world set_tx set_world List.concat]. now rewrite <- app_assoc.
Qed.

(** A wait that fails after [k] acknowledged ones: the first [k] messages
    have been sent, and the machine resets. *)
Lemma gated_nack (k : nat) :
  forall (msgs : list (list Z)) (s : sys) (w1 rest : list poll),
    (k < List.length msgs)%nat ->
    acks k (world s) = Some w1 ->
    waitForAck_poll 1000 (clock0 w1) w1 = Some (false, rest) ->
    gated msgs s
    = Reset (set_tx ((tx s ++ List.concat (firstn k msgs)) ++ ACK_FAIL)
               (set_world rest s)).
Proof.
  induction k as [|k IH]; intros msgs s w1 rest Hk Ha Hn;
    destruct msgs as [|m ms]; cbn [List.length] in Hk; try lia.
  - cbn in Ha. injection Ha as <-.
    cbn [gated]. rewrite (bind_Ret _ _ _ _ _ (waitForAck_false s rest Hn)).
    cbn [negb firstn List.concat]. rewrite app_nil_r. reflexivity.
  - cbn [acks] in Ha.
    destruct (waitForAck_poll 1000 (clock0 (world s)) (world s))
      as [[[|] w']|] eqn:E; try discriminate.
    cbn [gated]. rewrite (bind_Ret _ _ _ _ _ (waitForAck_true s w' E)).
    cbn [negb]. unfold bind at 1, ret at 1.
    unfold bind at 1, Serial_write, modify.
    change (tx (set_world w' s)) with (tx s).
    rewrite (IH ms (set_tx (tx s ++ m) (set_world w' s)) w1 rest);
      [|lia|exact Ha|exact Hn].
    cbn [tx world set_tx set_world List.concat firstn].
    now rewrite <- (app_assoc (tx s) m).
Qed.

Section Download.
Variable L : layout.

(** One pass of the loop is three gated messages: the header, the
    payload, and nothing. *)
Lemma download_slot_gated (i : Z) (s : sys) :
  download_slot L i s
  = gated [[i; frameCount (EEPROM_get L (slot_addr L i) (eeprom s))];
           frame_bytes (EEPROM_get L (slot_addr L i) (eeprom s)); []] s.
Proof.
  unfold download_slot. cbn [gated].
  set (a := EEPROM_get L (slot_addr L i) (eeprom s)).
  apply bind_ext. intros ok s1. apply bind_ext. intros _ s2.
  rewrite Serial_write_write. cbn [app].
  apply bind_ext. intros _ s3. unfold Serial_flush.
  change ((ret tt ;;
           ok0 <- waitForAck 1000 ;;
           (if negb ok0 then resetFunc else ret tt) ;;
           Serial_write (frame_bytes a) ;;
           ret tt ;;
           ok1 <- waitForAck 1000 ;;
           (if negb ok1 then resetFunc else ret tt)) s3)
    with ((ok0 <- waitForAck 1000 ;;
           (if negb ok0 then resetFunc else ret tt) ;;
           Serial_write (frame_bytes a) ;;
           ret tt ;;
           ok1 <- waitForAck 1000 ;;
           (if negb ok1 then resetFunc else ret tt)) s3).
  apply bind_ext. intros ok' s4. apply bind_ext. intros _ s5.
  apply bind_ext. intros _ s6.
  change ((ret tt ;;
           ok1 <- waitForAck 1000 ;;
           (if negb ok1 then resetFunc else ret tt)) s6)
    with ((ok1 <- waitForAck 1000 ;;
           (if negb ok1 then resetFunc else ret tt)) s6).
  apply bind_ext. intros ok'' s7.
  symmetry. apply Serial_write_nil.
Qed.

Lemma download_script_of (e : Z -> Z) (l : list Z) :
  forall s, eeprom s = e ->
    for_each l (download_slot L) s
    = gated (flat_map (fun i =>
               [[i; frameCount (EEPROM_get L (slot_addr L i) e)];
                frame_bytes (EEPROM_get L (slot_addr L i) e); []]) l) s.
Proof.
  induction l as [|i l IH]; intros s He; [reflexivity|].
  cbn [for_each flat_map]. rewrite gated_app.
  unfold bind at 1 2. rewrite download_slot_gated, He.
  pose proof (keeps_gated eeprom io_blind_eeprom
                [[i; frameCount (EEPROM_get L (slot_addr L i) e)];
                 frame_bytes (EEPROM_get L (slot_addr L i) e); []] s) as Hk.
  destruct (gated _ s) as [u s1|s1|s1]; [|reflexivity|reflexivity].
  cbn [final] in Hk. apply IH. now rewrite Hk.
Qed.

(** [handleDownloadRequest] is its script, gated. *)
Lemma handleDownloadRequest_gated (s : sys) :
  handleDownloadRequest L s = gated (download_script L (eeprom s)) s.
Proof. unfold handleDownloadRequest. now apply download_script_of. Qed.

(** C7.  The command "d-" against six valid records sends, slot after slot
    from 0 to 5, the two header bytes (slot, frame count) and then the
    frameCount * 7 payload bytes, which are the stored keyframes (three
    colour bytes and a big-endian timestamp each); every one of the three
    messages of a slot, the last one empty, waits for an acknowledgement
    first, eighteen in all; and the first wait that fails, by another byte
    or by the time running out, resets the machine after exactly the
    messages before it. *)
Theorem download_gated_triples (s s1 : sys) (code : list Z) :
  Serial_readStringUntil 45 s = Ret code s1 ->
  first_char code = 100 ->
  (forall i, 0 <= i < 6 ->
     valid_record (EEPROM_get L (slot_addr L i) (eeprom s))) ->
  let stored := fun i => EEPROM_get L (slot_addr L i) (eeprom s) in
  let script := download_script L (eeprom s) in
  let ready := (tx s ++ bytes_of_string "ready_") ++ code ++ CRLF in
  script
  = flat_map (fun i =>
      [[i; frameCount (stored i)];
       flat_map keyframe_wire (keyframes (stored i)); []]) (upto 6) /\
  (forall i, 0 <= i < 6 ->
     Z.of_nat (List.length (flat_map keyframe_wire (keyframes (stored i))))
     = frameCount (stored i) * 7) /\
  (forall rest,
     acks 18 (world s1) = Some rest ->
     handleSerial L s
     = Ret tt (set_tx (ready ++ List.concat script) (set_world rest s))) /\
  (forall k w1 idle p rest,
     (k < 18)%nat ->
     acks k (world s1) = Some w1 ->
     w1 = idle ++ p :: rest ->
     forallb (is_quiet 1000 (clock0 w1)) idle = true ->
     is_nack 1000 (clock0 w1) p = true ->
     handleSerial L s
     = Reset (set_tx ((ready ++ List.concat (firstn k script)) ++ ACK_FAIL)
                (set_world rest s))).
Proof.
  intros Hr Hc Hvalid stored script ready.
  assert (Hpay : forall i, 0 <= i < 6 ->
            frame_bytes (stored i)
            = flat_map keyframe_wire (keyframes (stored i))).
  { intros i Hi. destruct (Hvalid i Hi) as ((_ & Hlen & _) & Hfc & _).
    unfold MAX_FRAMES in *. apply frame_bytes_keyframes; fold (stored i) in *; lia. }
  assert (Hscript : script
            = flat_map (fun i =>
                [[i; frameCount (stored i)];
                 flat_map keyframe_wire (keyframes (stored i)); []]) (upto 6)).
  { unfold script, download_script, stored.
    change (upto 6) with [0; 1; 2; 3; 4; 5]. cbn [flat_map app].
    fold (stored 0) (stored 1) (stored 2) (stored 3) (stored 4) (stored 5).
    rewrite !Hpay by lia. reflexivity. }
  pose proof (readStringUntil_state _ _ _ _ Hr) as Hs1.
  assert (Hgo : handleSerial L s
                = gated script (set_tx ready (set_world (world s1) s))).
  { rewrite (handleSerial_download L s s1 code Hr Hc).
    rewrite handleDownloadRequest_gated. rewrite Hs1. reflexivity. }
  split; [exact Hscript|]. split; [|split].
  - intros i Hi. rewrite <- Hpay by assumption.
    rewrite frame_bytes_length.
    destruct (Hvalid i Hi) as (_ & Hfc & _). fold (stored i) in Hfc.
    unfold FRAME_SIZE. lia.
  - intros rest Ha. rewrite Hgo.
    now rewrite (gated_acks script (set_tx ready (set_world (world s1) s))
                   rest Ha).
  - intros k w1 idle p rest Hk Ha Hw Hq Hp. rewrite Hgo.
    rewrite (gated_nack k script (set_tx ready (set_world (world s1) s))
               w1 rest); [reflexivity| |exact Ha|].
    + rewrite Hscript. exact Hk.
    + now apply (ack_shape_false w1 idle rest p).
Qed.
End Download.

Lemma blue_anim_valid : valid_record blue_anim.
Proof.
  unfold valid_record, animation_wf, is_u8, is_u32, MAX_FRAMES.
  cbn [blue_anim frameCount frames a_time].
  split; [split; [lia | split; [reflexivity | split; [|lia]]]
         | split; [lia | reflexivity]].
  cbn [repeat].
  repeat (apply Forall_cons;
          [unfold frame_wf, is_u8, is_u32; cbn; lia|]).
  apply Forall_nil.
Defined.

Lemma six_eeprom_valid (i : Z) :
  0 <= i < 6 ->
  valid_record (EEPROM_get xiao_layout (slot_addr xiao_layout i) six_eeprom).
Proof.
  intros Hi.
  assert (H : i = 0 \/ i = 1 \/ i = 2 \/ i = 3 \/ i = 4 \/ i = 5) by lia.
  destruct H as [->|[->|[->|[->|[->| ->]]]]].
  - change (valid_record red_anim). exact red_anim_valid.
  - change (valid_record blue_anim). exact blue_anim_valid.
  - change (valid_record red_anim). exact red_anim_valid.
  - change (valid_record blue_anim). exact blue_anim_valid.
  - change (valid_record red_anim). exact red_anim_valid.
  - change (valid_record blue_anim). exact blue_anim_valid.
Defined.

Lemma download_gated_triples_witness :
  handleSerial xiao_layout
    (boot xiao_layout six_eeprom (bytes_at 0 [100; 45] ++ eighteen_acks))
  = Ret tt
      (set_tx
         (((tx (boot xiao_layout six_eeprom []) ++ bytes_of_string "ready_")
           ++ [100] ++ CRLF)
          ++ List.concat
               (map (fun i => wire_bytes i (if Z.even i then red_anim else blue_anim))
                  (upto 6)))
         (set_world [] (boot xiao_layout six_eeprom []))).
Proof.
  destruct (download_gated_triples xiao_layout
              (boot xiao_layout six_eeprom (bytes_at 0 [100; 45] ++ eighteen_acks))
              (boot xiao_layout six_eeprom eighteen_acks) [100]
              eq_refl eq_refl six_eeprom_valid)
    as (_ & _ & H & _).
  exact (H [] eq_refl).
Defined.

(* ------------------------------------------------------------------ *)
(** ** Where a slot lies in the EEPROM *)

(** C4, as the code has it.  For a slot from 0 to 5, a store writes the
    object built from the buffer, in the bytes of its in-memory layout, at
    the byte offset slot * sizeof(animation), and touches no byte outside
    the sizeof(animation) bytes from there on; a load of that slot reads
    the same region and gives the object back, and the other five slots
    give what they gave before. *)
Theorem slot_region (L : layout) (s : sys) (buff : list Z) :
  layout_ok L -> animation_wf (junk s) -> Forall is_u8 buff ->
  0 <= rd buff 0 < DEFAULTS_COUNT ->
  0 <= rd buff 1 <= MAX_FRAMES ->
  let slot := rd buff 0 in
  let size := sizeof_animation L in
  let record := parse_animation buff (junk s) in
  exists s' s'',
    saveAnimationFromSerial L buff s = Ret tt s' /\
    (forall x, x < slot * size \/ slot * size + size <= x ->
       eeprom s' x = eeprom s x) /\
    EEPROM_read (slot * size) size (eeprom s') = to_bytes L record /\
    EEPROM_Load L slot s' = Ret tt s'' /\ currentAnim s'' = record /\
    (forall j, 0 <= j < DEFAULTS_COUNT -> j <> slot ->
       EEPROM_get L (slot_addr L j) (eeprom s')
       = EEPROM_get L (slot_addr L j) (eeprom s)).
Proof.
  intros HL Hj Hb Hslot Hfc slot size record.
  assert (Hwf : animation_wf record) by now apply parse_animation_wf.
  eexists. eexists. split; [reflexivity|].
  cbn [eeprom set_eeprom]. fold record. repeat split.
  - intros x Hx. now apply EEPROM_put_outside.
  - unfold EEPROM_put, size. fold slot. unfold slot_addr.
    rewrite <- (to_bytes_length L HL record Hwf). apply EEPROM_read_write.
  - cbn [currentAnim set_currentAnim eeprom set_eeprom]. fold slot.
    now apply EEPROM_get_put.
  - intros j _ Hjs. now apply EEPROM_get_put_other.
Qed.

Lemma blank_anim_wf : animation_wf blank_anim.
Proof.
  unfold animation_wf, is_u8, is_u32, MAX_FRAMES.
  cbn [blank_anim frameCount frames a_time].
  split; [lia | split; [reflexivity | split; [|lia]]].
  cbn [repeat].
  repeat (apply Forall_cons;
          [unfold frame_wf, is_u8, is_u32; cbn; lia|]).
  apply Forall_nil.
Defined.

Lemma slot_region_witness :
  saveAnimationFromSerial xiao_layout ([1; 1] ++ red_payload) erased_machine
  = Ret tt stored_slot_1 /\
  (forall x, x < 1 * 168 \/ 1 * 168 + 168 <= x -> eeprom stored_slot_1 x = 255).
Proof.
  assert (Hb : Forall is_u8 ([1; 1] ++ red_payload))
    by (repeat (apply Forall_cons; [unfold is_u8; lia|]); apply Forall_nil).
  assert (Hj : animation_wf (junk erased_machine)) by exact blank_anim_wf.
  destruct (slot_region xiao_layout erased_machine
              ([1; 1] ++ red_payload) xiao_layout_ok Hj Hb
              ltac:(change (0 <= 1 < 6); lia)
              ltac:(change (0 <= 1 <= 20); lia))
    as (s' & s'' & H1 & H2 & _).
  unfold stored_slot_1. rewrite H1. cbn [final].
  split; [reflexivity|]. intros x Hx. now rewrite (H2 x Hx).
Defined.

(** C4, as the spec states it, fails: with the 168-byte object, a store
    to slot 1 starts at byte 168 and not at 142, writes the frame count at
    byte 332, outside the 142 bytes from 142 on, and leaves byte 143,
    where the wire encoding would have the frame count, as it was. *)
Lemma slot_region_not_142 :
  slot_addr xiao_layout 1 = 168 /\
  ~ (forall x, ~ (1 * 142 <= x < 1 * 142 + 142) ->
       eeprom stored_slot_1 x = eeprom erased_machine x) /\
  eeprom stored_slot_1 (1 * 142 + 1) = eeprom erased_machine (1 * 142 + 1) /\
  EEPROM_read (1 * 142) 9 (eeprom stored_slot_1) <> [1; 1] ++ red_payload.
Proof.
  split; [reflexivity|]. split; [|split].
  - intros H. specialize (H 332 ltac:(lia)). vm_compute in H. discriminate.
  - reflexivity.
  - vm_compute. discriminate.
Qed.

(* ------------------------------------------------------------------ *)
(** ** The loop *)

Section Loop.
Variable L : layout.

Lemma keeps_saveAnimationFromSerial {X : Type} (f : sys -> X)
    (buff : list Z) :
  store_blind f -> keeps f (saveAnimationFromSerial L buff).
Proof. intros [_ He] s. apply He. Qed.

Lemma keeps_handleUploadRequest {X : Type} (f : sys -> X) :
  store_blind f -> keeps f (handleUploadRequest L).
Proof.
  intros Hf. pose proof Hf as [Hio _]. unfold handleUploadRequest.
  apply keeps_bind; [now apply keeps_upload_receive|].
  intros [[b n]|]; [|apply keeps_ret].
  apply keeps_bind; [now apply keeps_Serial_write|]. intros _.
  apply keeps_bind; [now apply keeps_waitForAck|]. intros [|].
  - apply keeps_bind; [now apply keeps_saveAnimationFromSerial|]. intros _.
    apply keeps_bind; [now apply keeps_Serial_write|]. intros _.
    apply keeps_ret.
  - apply keeps_resetFunc.
Qed.

Lemma keeps_handleDownloadRequest {X : Type} (f : sys -> X) :
  io_blind f -> keeps f (handleDownloadRequest L).
Proof.
  intros Hf s. rewrite handleDownloadRequest_gated. now apply keeps_gated.
Qed.

Lemma keeps_handleSerial {X : Type} (f : sys -> X) :
  store_blind f -> keeps f (handleSerial L).
Proof.
  intros Hf. pose proof Hf as [Hio _]. unfold handleSerial.
  apply keeps_bind; [now apply keeps_readStringUntil|]. intros code.
  apply keeps_bind; [now apply keeps_Serial_write|]. intros _.
  apply keeps_bind; [now apply keeps_Serial_write|]. intros _.
  apply keeps_bind; [apply keeps_ret|]. intros _.
  destruct ((48 <=? first_char code) && (first_char code <=? 53)).
  - now apply keeps_handleUploadRequest.
  - destruct (first_char code =? 100).
    + now apply keeps_handleDownloadRequest.
    + now apply keeps_Serial_write.
Qed.

(** C1 (where the code departs from the claim).  When a call of [loop]
    finds serial input and the exchange returns, the record that is
    loaded and given to the rendering engine is the one of slot 0,
    whatever slot the mode selector has selected: the selector's output
    and [lastMode] are as before the call. *)
Theorem loop_serial_loads_slot_0 (s s' : sys) (p : poll) (w : list poll)
    (b : Z) :
  world s = p :: w -> p_rx p = Some b ->
  loop L s = Ret tt s' ->
  currentAnim s' = EEPROM_get L (slot_addr L 0) (eeprom s') /\
  animator s' = currentAnim s' /\
  outputMode (buttons s') = outputMode (buttons s) /\
  lastMode s' = lastMode s.
Proof.
  intros Hw Hp Hl. unfold loop in Hl. rewrite Hw, Hp in Hl.
  pose proof (keeps_handleSerial buttons store_blind_buttons s) as Hb.
  pose proof (keeps_handleSerial lastMode store_blind_lastMode s) as Hm.
  unfold bind at 1 in Hl.
  destruct (handleSerial L s) as [u s1|s1|s1]; try discriminate.
  cbn [final] in Hb, Hm.
  unfold bind, EEPROM_Load, updateAnimation, modify in Hl.
  injection Hl as <-.
  cbn [currentAnim animator eeprom buttons lastMode set_animator
         set_currentAnim].
  rewrite Hb, Hm. repeat split.
Qed.

End Loop.

(** After a press that selects slot 1 and loads its record, the command
    "x-" arrives; the call of [loop] that serves it leaves the record of
    slot 0 loaded although slot 1 is still selected and still holds its
    record, and the next call does not load again. *)
Lemma loop_serial_loads_slot_0_witness :
  (outputMode (buttons selected_1) = 1 /\ currentAnim selected_1 = blue_anim) /\
  (outputMode (buttons served) = 1 /\ lastMode served = 1 /\
   currentAnim served = red_anim /\ animator served = red_anim /\
   EEPROM_get xiao_layout (slot_addr xiao_layout 1) (eeprom served)
   = blue_anim) /\
  (outputMode (buttons after_served) = 1 /\ animator after_served = red_anim).
Proof.
  assert (H4 : loop xiao_layout selected_1 = Ret tt served)
    by (vm_compute; reflexivity).
  pose proof (loop_serial_loads_slot_0 xiao_layout selected_1 served
                (rx_at 400 120) (bytes_at 400 [45] ++ [idle_at 500]) 120
                eq_refl eq_refl H4) as (Hc & Ha & Ho & Hm).
  split; [split; vm_compute; reflexivity|]. split.
  - split; [rewrite Ho; vm_compute; reflexivity|].
    split; [rewrite Hm; vm_compute; reflexivity|].
    split; [rewrite Hc; vm_compute; reflexivity|].
    split; [rewrite Ha, Hc; vm_compute; reflexivity|].
    vm_compute; reflexivity.
  - split; vm_compute; reflexivity.
Defined.

(* ================================================================== *)
(** * Further properties of [main.cpp] *)

(* ------------------------------------------------------------------ *)
(** ** Acknowledgements and the clock *)

Lemma quiet_no_bytes (timeout t0 : Z) (idle : list poll) :
  forallb (is_quiet timeout t0) idle = true -> rx_stream idle = [].
Proof.
  induction idle as [|q idle IH]; intros H; [reflexivity|].
  cbn [forallb] in H. apply andb_prop in H as [Hq Hi].
  unfold rx_stream. cbn [flat_map]. unfold is_quiet in Hq.
  destruct (p_rx q); [discriminate|]. now apply IH.
Qed.

Lemma rx_stream_app (a b : list poll) :
  rx_stream (a ++ b) = rx_stream a ++ rx_stream b.
Proof. unfold rx_stream. apply flat_map_app. Qed.

(** X1.  A wait for an acknowledgement is decided by the first observation
    that is not a quiet one: it returns true, and sends nothing, when that
    observation carries the byte 0xff; in every other case (another byte,
    or no byte and more than 1000 ms on the clock) it sends the failure
    line and returns false.  It takes at most one byte from the stream,
    the deciding one. *)
Theorem waitForAck_decides (s : sys) (idle : list poll) (p : poll)
    (rest : list poll) :
  world s = idle ++ p :: rest ->
  forallb (is_quiet 1000 (clock0 (world s))) idle = true ->
  is_quiet 1000 (clock0 (world s)) p = false ->
  waitForAck 1000 s
  = (if is_ack p then Ret true (set_world rest s)
     else Ret false (set_tx (tx s ++ ACK_FAIL) (set_world rest s))) /\
  rx_stream rest
  = match p_rx p with
    | Some _ => tl (rx_stream (world s))
    | None => rx_stream (world s)
    end.
Proof.
  intros Hw Hq Hp. split.
  - destruct (is_ack p) eqn:Ea.
    + apply waitForAck_true. now apply (ack_shape_true _ idle rest p).
    + apply waitForAck_false. apply (ack_shape_false _ idle rest p); auto.
      unfold is_ack, is_quiet, is_nack in *.
      destruct (p_rx p); [now rewrite Ea|].
      rewrite Z.gtb_ltb. apply Z.ltb_lt. apply Z.leb_gt in Hp. lia.
  - rewrite Hw, rx_stream_app, (quiet_no_bytes _ _ _ Hq).
    unfold rx_stream at 2 3. cbn [app flat_map].
    destruct (p_rx p); reflexivity.
Qed.

Lemma waitForAck_decides_witness :
  waitForAck 1000 (start [idle_at 10; idle_at 1010; rx_at 4000 255; rx_at 4000 7])
  = Ret true (set_world [rx_at 4000 7]
                (start [idle_at 10; idle_at 1010; rx_at 4000 255; rx_at 4000 7])).
Proof.
  apply (waitForAck_decides
           (start [idle_at 10; idle_at 1010; rx_at 4000 255; rx_at 4000 7])
           [idle_at 10; idle_at 1010] (rx_at 4000 255) [rx_at 4000 7]
           eq_refl eq_refl eq_refl).
Defined.

Lemma u32_elapsed (t d : Z) :
  0 <= d < 4294967296 -> u32 (u32 (t + d) - t) = d.
Proof.
  intros Hd. unfold u32. rewrite Zminus_mod_idemp_l.
  replace (t + d - t) with d by lia. now apply Z.mod_small.
Qed.

(** X2.  The debounce time is measured rightly when [millis()] rolls over
    between the press and the check: with the press at clock [timer] and
    the call [d] milliseconds later, at clock (timer + d) mod 2^32, the
    call changes nothing while d <= 200 and takes the machine to [RELEASE]
    as soon as d > 200. *)
Theorem debounce_across_rollover (s : fsm) (up dwn : bool) (d : Z) :
  currentState s = TRIGGERED ->
  0 <= d < 4294967296 ->
  (d <= BTN_TIME -> buttonFSM up dwn (u32 (timer s + d)) s = s) /\
  (BTN_TIME < d ->
   currentState (buttonFSM up dwn (u32 (timer s + d)) s) = RELEASE).
Proof.
  intros Hst Hd. unfold buttonFSM. rewrite Hst, u32_elapsed by assumption.
  split; intros H.
  - replace (d >? BTN_TIME) with false; [reflexivity|].
    symmetry. rewrite Z.gtb_ltb. apply Z.ltb_ge. lia.
  - replace (d >? BTN_TIME) with true; [reflexivity|].
    symmetry. rewrite Z.gtb_ltb. apply Z.ltb_lt. lia.
Qed.

Lemma debounce_across_rollover_witness :
  currentState
    (buttonFSM false true 150 (mkFsm TRIGGERED true 4294967196 3)) = RELEASE /\
  buttonFSM false true 50 (mkFsm TRIGGERED true 4294967196 3)
  = mkFsm TRIGGERED true 4294967196 3.
Proof.
  split.
  - apply (debounce_across_rollover (mkFsm TRIGGERED true 4294967196 3)
             false true 250 eq_refl); [lia | reflexivity].
  - apply (debounce_across_rollover (mkFsm TRIGGERED true 4294967196 3)
             false true 150 eq_refl); [lia | discriminate].
Defined.

(* ------------------------------------------------------------------ *)
(** ** Whole presses *)

Lemma fsm_run_app (a b : list pins) (s : fsm) :
  fsm_run (a ++ b) s = fsm_run b (fsm_run a s).
Proof. unfold fsm_run. apply fold_left_app. Qed.

Lemma fsm_run_cons (p : pins) (ps : list pins) (s : fsm) :
  fsm_run (p :: ps) s = fsm_run ps (fsm_step s p).
Proof. reflexivity. Qed.

(** With both buttons up, a call in [IDLE] changes nothing. *)
Lemma idle_rest (ps : list pins) (s : fsm) :
  currentState s = IDLE ->
  Forall (fun p => pin_up p && pin_dwn p = true) ps ->
  fsm_run ps s = s.
Proof.
  intros Hst Hall. induction Hall as [|p ps Hp Hps IH]; [reflexivity|].
  rewrite fsm_run_cons.
  assert (E : fsm_step s p = s).
  { unfold fsm_step, buttonFSM. rewrite Hst.
    apply andb_prop in Hp. destruct Hp as [-> ->]. reflexivity. }
  rewrite E. exact IH.
Qed.

Lemma ring_up (m : Z) :
  0 <= m < DEFAULTS_COUNT -> mode_up m = (m + 1) mod DEFAULTS_COUNT.
Proof.
  unfold DEFAULTS_COUNT. intros H.
  assert (E : m = 0 \/ m = 1 \/ m = 2 \/ m = 3 \/ m = 4 \/ m = 5) by lia.
  destruct E as [->|[->|[->|[->|[->| ->]]]]]; reflexivity.
Qed.

Lemma ring_down (m : Z) :
  0 <= m < DEFAULTS_COUNT -> mode_down m = (m + -1) mod DEFAULTS_COUNT.
Proof.
  unfold DEFAULTS_COUNT. intros H.
  assert (E : m = 0 \/ m = 1 \/ m = 2 \/ m = 3 \/ m = 4 \/ m = 5) by lia.
  destruct E as [->|[->|[->|[->|[->| ->]]]]]; reflexivity.
Qed.

(** One press, whatever its calls: the machine is in [IDLE] again and the
    output has moved by what the press counts for. *)
Lemma one_press (c : press_calls) (s : fsm) :
  currentState s = IDLE -> 0 <= outputMode s < DEFAULTS_COUNT ->
  whole_press c ->
  fsm_run (calls_of c) s
  = mkFsm IDLE (press_dir c) (pin_now (pc_first c))
      ((outputMode s + press_step c) mod DEFAULTS_COUNT).
Proof.
  intros Hst Hr (H0 & He & Hs & Hh & Hu & Hd & Hi).
  set (t := mkFsm TRIGGERED (press_dir c) (pin_now (pc_first c)) (outputMode s)).
  assert (E0 : fsm_step s (pc_first c) = t).
  { unfold fsm_step, buttonFSM, t, press_dir. rewrite Hst.
    destruct (pin_up (pc_first c)), (pin_dwn (pc_first c));
      try discriminate; reflexivity. }
  set (out := (outputMode s + press_step c) mod DEFAULTS_COUNT).
  assert (Es : fsm_step t (pc_sample c)
               = mkFsm RELEASE (press_dir c) (pin_now (pc_first c)) out).
  { unfold fsm_step, buttonFSM, t.
    cbn [currentState timer changeUP outputMode].
    replace (u32 (pin_now (pc_sample c) - pin_now (pc_first c)) >? BTN_TIME)
      with true by (symmetry; apply Z.gtb_lt; lia).
    rewrite up_arith, down_arith by assumption.
    unfold out, press_step, trigger_pin.
    rewrite (ring_up _ Hr), (ring_down _ Hr).
    destruct (press_dir c), (pin_up (pc_sample c)), (pin_dwn (pc_sample c));
      cbn [andb negb]; try reflexivity;
      rewrite Z.add_0_r, Z.mod_small by exact Hr; reflexivity. }
  unfold calls_of.
  rewrite fsm_run_cons, E0, fsm_run_app.
  rewrite (triggered_wait (pc_early c) t eq_refl He).
  rewrite fsm_run_cons, Es, fsm_run_app.
  rewrite (release_hold (pc_held c)
             (mkFsm RELEASE (press_dir c) (pin_now (pc_first c)) out)
             eq_refl Hh).
  rewrite fsm_run_cons.
  assert (Er : fsm_step (mkFsm RELEASE (press_dir c) (pin_now (pc_first c)) out)
                 (pc_release c)
               = mkFsm IDLE (press_dir c) (pin_now (pc_first c)) out).
  { unfold fsm_step, buttonFSM. cbn [currentState]. rewrite Hu, Hd.
    reflexivity. }
  rewrite Er. now apply idle_rest.
Qed.

(** X3.  Presses compose as steps on a ring of six slots.  For any number
    of presses one after the other, each with whatever calls of
    [buttonFSM] fall within its debounce time, while a button is held and
    after both are let go, the machine ends in [IDLE] and the output is the
    start plus the "up" presses minus the "down" presses modulo 6, a press
    counting when its button reads pressed at the first call made more
    than 200 ms after it began; so presses that add up to a multiple of 6,
    an "up" and a "down" or six "up", lead back to the same slot. *)
Theorem presses_compose (l : list press_calls) :
  forall s : fsm,
    currentState s = IDLE -> 0 <= outputMode s < DEFAULTS_COUNT ->
    Forall whole_press l ->
    currentState (fsm_run (flat_map calls_of l) s) = IDLE /\
    outputMode (fsm_run (flat_map calls_of l) s)
    = (outputMode s + net_steps l) mod DEFAULTS_COUNT /\
    (net_steps l mod DEFAULTS_COUNT = 0 ->
     outputMode (fsm_run (flat_map calls_of l) s) = outputMode s).
Proof.
  assert (H : forall s : fsm,
            currentState s = IDLE -> 0 <= outputMode s < DEFAULTS_COUNT ->
            Forall whole_press l ->
            currentState (fsm_run (flat_map calls_of l) s) = IDLE /\
            outputMode (fsm_run (flat_map calls_of l) s)
            = (outputMode s + net_steps l) mod DEFAULTS_COUNT).
  { induction l as [|c l IH]; intros s Hst Hr Hl.
    - split; [exact Hst|]. cbn [flat_map net_steps fold_right fsm_run fold_left].
      rewrite Z.add_0_r. symmetry. now apply Z.mod_small.
    - inversion Hl as [|c' l' Hc Hl']; subst.
      cbn [flat_map]. rewrite fsm_run_app, (one_press c s Hst Hr Hc).
      destruct (IH (mkFsm IDLE (press_dir c) (pin_now (pc_first c))
                      ((outputMode s + press_step c) mod DEFAULTS_COUNT))
                  eq_refl
                  ltac:(cbn [outputMode]; apply Z.mod_pos_bound;
                        unfold DEFAULTS_COUNT; lia) Hl') as [H1 H2].
      split; [exact H1|]. rewrite H2. cbn [outputMode].
      change (net_steps (c :: l)) with (press_step c + net_steps l).
      rewrite Z.add_mod_idemp_l by (unfold DEFAULTS_COUNT; lia).
      now rewrite Z.add_assoc. }
  intros s Hst Hr Hl. destruct (H s Hst Hr Hl) as [H1 H2].
  split; [exact H1|]. split; [exact H2|].
  intros Hz. rewrite H2.
  rewrite <- Z.add_mod_idemp_r, Hz, Z.add_0_r by (unfold DEFAULTS_COUNT; lia).
  now apply Z.mod_small.
Qed.

Lemma presses_compose_witness :
  outputMode
    (fsm_run (flat_map calls_of [long_up; short_up; long_up; plain_down])
       fsm_init) = 1 /\
  outputMode (fsm_run (flat_map calls_of [long_up; plain_down]) fsm_init) = 0.
Proof.
  assert (Hr : 0 <= outputMode fsm_init < DEFAULTS_COUNT)
    by (cbn; unfold DEFAULTS_COUNT; lia).
  assert (Hu : whole_press long_up).
  { unfold whole_press, long_up.
    cbn [pc_first pc_early pc_sample pc_held pc_release pc_idle
           pin_up pin_dwn pin_now andb].
    repeat split;
      try (repeat (constructor; [first [reflexivity|vm_compute; discriminate]|]);
           constructor). }
  assert (Hd : whole_press plain_down).
  { unfold whole_press, plain_down.
    cbn [pc_first pc_early pc_sample pc_held pc_release pc_idle
           pin_up pin_dwn pin_now andb].
    repeat split; constructor. }
  assert (Hs : whole_press short_up).
  { unfold whole_press, short_up.
    cbn [pc_first pc_early pc_sample pc_held pc_release pc_idle
           pin_up pin_dwn pin_now andb].
    repeat split;
      try (repeat (constructor; [first [reflexivity|vm_compute; discriminate]|]);
           constructor). }
  split.
  - destruct (presses_compose [long_up; short_up; long_up; plain_down]
                fsm_init eq_refl Hr
                ltac:(repeat (constructor; [assumption|]); constructor))
      as (_ & H & _).
    rewrite H. reflexivity.
  - destruct (presses_compose [long_up; plain_down] fsm_init eq_refl Hr
                ltac:(repeat (constructor; [assumption|]); constructor))
      as (_ & _ & H).
    apply H. reflexivity.
Defined.

(* ------------------------------------------------------------------ *)
(** ** From bytes to a record and back *)

Lemma byte_bits_high (b k : Z) : is_u8 b -> 8 <= k -> Z.testbit b k = false.
Proof.
  intros Hb Hk. rewrite <- (Z.mod_small b (2 ^ 8)) by exact Hb.
  apply Z.mod_pow2_bits_high. lia.
Qed.

Lemma be32_testbit (b3 b2 b1 b0 n : Z) :
  0 <= n ->
  Z.testbit (be32 b3 b2 b1 b0) n
  = Z.testbit b3 (n - 24) || Z.testbit b2 (n - 16) || Z.testbit b1 (n - 8)
    || Z.testbit b0 n.
Proof.
  intros Hn. unfold be32. now rewrite !Z.lor_spec, !Z.shiftl_spec by lia.
Qed.

Lemma be32_byte3 (b3 b2 b1 b0 : Z) :
  is_u8 b3 -> is_u8 b2 -> is_u8 b1 -> is_u8 b0 ->
  u8 (Z.shiftr (be32 b3 b2 b1 b0) 24) = b3.
Proof. byte_of_be32 be32_testbit byte_bits_high. Qed.

Lemma be32_byte2 (b3 b2 b1 b0 : Z) :
  is_u8 b3 -> is_u8 b2 -> is_u8 b1 -> is_u8 b0 ->
  u8 (Z.shiftr (be32 b3 b2 b1 b0) 16) = b2.
Proof. byte_of_be32 be32_testbit byte_bits_high. Qed.

Lemma be32_byte1 (b3 b2 b1 b0 : Z) :
  is_u8 b3 -> is_u8 b2 -> is_u8 b1 -> is_u8 b0 ->
  u8 (Z.shiftr (be32 b3 b2 b1 b0) 8) = b1.
Proof. byte_of_be32 be32_testbit byte_bits_high. Qed.

Lemma be32_byte0 (b3 b2 b1 b0 : Z) :
  is_u8 b3 -> is_u8 b2 -> is_u8 b1 -> is_u8 b0 ->
  u8 (be32 b3 b2 b1 b0) = b0.
Proof. byte_of_be32 be32_testbit byte_bits_high. Qed.

(** The seven bytes a keyframe was read from are the seven bytes it is
    written as. *)
Lemma keyframe_wire_frame_at (buff : list Z) (i : Z) :
  Forall is_u8 buff ->
  keyframe_wire (frame_at buff i)
  = map (fun j => rd buff (i * FRAME_SIZE + 2 + j)) (upto 7).
Proof.
  intros Hb. unfold keyframe_wire, frame_at.
  cbn [color0 color1 color2 f_time].
  rewrite be32_byte3, be32_byte2, be32_byte1, be32_byte0
    by (apply rd_u8; assumption).
  change (upto 7) with [0; 1; 2; 3; 4; 5; 6]. cbn [map].
  now rewrite Z.add_0_r.
Qed.

Lemma firstn_snoc {A : Type} (n : nat) (l : list A) (d : A) :
  (n < List.length l)%nat -> firstn (S n) l = firstn n l ++ [nth n l d].
Proof.
  revert l. induction n as [|n IH]; intros [|x l] H; simpl in *; try lia.
  - reflexivity.
  - f_equal. apply IH. lia.
Qed.

Lemma firstn_seven (n : nat) (l : list Z) :
  (n + 7 <= List.length l)%nat ->
  firstn (n + 7) l
  = firstn n l ++ map (fun j => nth (n + Z.to_nat j) l 0) (upto 7).
Proof.
  intros H. change (upto 7) with [0; 1; 2; 3; 4; 5; 6]. cbn [map].
  change (Z.to_nat 0) with 0%nat. change (Z.to_nat 1) with 1%nat.
  change (Z.to_nat 2) with 2%nat. change (Z.to_nat 3) with 3%nat.
  change (Z.to_nat 4) with 4%nat. change (Z.to_nat 5) with 5%nat.
  change (Z.to_nat 6) with 6%nat.
  replace (firstn (n + 7) l) with (firstn (S (n + 6)) l) by (f_equal; lia).
  rewrite (firstn_snoc (n + 6) l 0) by lia.
  replace (firstn (n + 6) l) with (firstn (S (n + 5)) l) by (f_equal; lia).
  rewrite (firstn_snoc (n + 5) l 0) by lia.
  replace (firstn (n + 5) l) with (firstn (S (n + 4)) l) by (f_equal; lia).
  rewrite (firstn_snoc (n + 4) l 0) by lia.
  replace (firstn (n + 4) l) with (firstn (S (n + 3)) l) by (f_equal; lia).
  rewrite (firstn_snoc (n + 3) l 0) by lia.
  replace (firstn (n + 3) l) with (firstn (S (n + 2)) l) by (f_equal; lia).
  rewrite (firstn_snoc (n + 2) l 0) by lia.
  replace (firstn (n + 2) l) with (firstn (S (n + 1)) l) by (f_equal; lia).
  rewrite (firstn_snoc (n + 1) l 0) by lia.
  replace (firstn (n + 1) l) with (firstn (S n) l) by (f_equal; lia).
  rewrite (firstn_snoc n l 0) by lia.
  rewrite Nat.add_0_r, <- !app_assoc. reflexivity.
Qed.

Lemma wire_of_frames_at (buff : list Z) (k : nat) :
  Forall is_u8 buff -> (2 + 7 * k <= List.length buff)%nat ->
  flat_map keyframe_wire (map (frame_at buff) (upto (Z.of_nat k)))
  = firstn (7 * k) (skipn 2 buff).
Proof.
  intros Hb. induction k as [|k IH]; intros Hlen; [reflexivity|].
  rewrite upto_S, map_app, flat_map_app, IH by lia.
  cbn [map flat_map]. rewrite app_nil_r, keyframe_wire_frame_at by assumption.
  replace (7 * S k)%nat with (7 * k + 7)%nat by lia.
  rewrite firstn_seven by (rewrite length_skipn; lia).
  f_equal. apply map_ext_in. intros j Hj.
  unfold upto in Hj. apply in_map_iff in Hj as (i & <- & Hi).
  apply in_seq in Hi. unfold rd, FRAME_SIZE.
  rewrite nth_skipn. f_equal. lia.
Qed.

(** The payload built from a parsed buffer is the buffer's payload. *)
Lemma frame_bytes_parse (buff : list Z) (junk : animation) :
  Forall is_u8 buff ->
  0 <= rd buff 1 <= MAX_FRAMES ->
  (2 + 7 * Z.to_nat (rd buff 1) <= List.length buff)%nat ->
  List.length (frames junk) = Z.to_nat MAX_FRAMES ->
  frameCount (parse_animation buff junk) = rd buff 1 /\
  frame_bytes (parse_animation buff junk)
  = firstn (7 * Z.to_nat (rd buff 1)) (skipn 2 buff).
Proof.
  intros Hb Hfc Hlen Hj. unfold MAX_FRAMES in *.
  rewrite parse_animation_spec by lia.
  cbn [frameCount]. split; [reflexivity|].
  rewrite frame_bytes_keyframes;
    cbn [frameCount frames];
    [|lia|rewrite length_app, length_map, upto_length, length_skipn; lia].
  unfold keyframes. cbn [frameCount frames].
  rewrite firstn_app, length_map, upto_length, Nat.sub_diag.
  cbn [firstn]. rewrite app_nil_r.
  rewrite firstn_all2 by (rewrite length_map, upto_length; lia).
  rewrite <- (Z2Nat.id (rd buff 1)) at 1 by lia.
  now apply wire_of_frames_at.
Qed.

(** X4.  Encoding after decoding gives the bytes back: for a buffer of
    bytes whose frame count is at most 20 and whose keyframes are all
    there, what [handleDownloadRequest] sends for the object that
    [saveAnimationFromSerial] parsed (the slot, the frame count and the
    payload) is the head of the buffer, byte for byte, whatever the object
    held before. *)
Theorem encode_decode_bytes (buff : list Z) (junk : animation) :
  Forall is_u8 buff ->
  0 <= rd buff 1 <= MAX_FRAMES ->
  (2 + 7 * Z.to_nat (rd buff 1) <= List.length buff)%nat ->
  List.length (frames junk) = Z.to_nat MAX_FRAMES ->
  wire_bytes (rd buff 0) (parse_animation buff junk)
  = firstn (2 + 7 * Z.to_nat (rd buff 1)) buff.
Proof.
  intros Hb Hfc Hlen Hj.
  destruct (frame_bytes_parse buff junk Hb Hfc Hlen Hj) as [H1 H2].
  unfold wire_bytes. rewrite H1, H2.
  destruct buff as [|b0 [|b1 rest]]; cbn [List.length] in Hlen; try lia.
  inversion Hb as [|x l Hb0 _]; subst.
  change (rd (b0 :: b1 :: rest) 0) with b0.
  change (rd (b0 :: b1 :: rest) 1) with b1.
  rewrite u8_small by exact Hb0.
  reflexivity.
Qed.

Lemma encode_decode_bytes_witness :
  wire_bytes 4 (parse_animation ([4; 2] ++ red_payload ++ green_payload)
                  blank_anim)
  = [4; 2] ++ red_payload ++ green_payload.
Proof.
  assert (Hb : Forall is_u8 ([4; 2] ++ red_payload ++ green_payload))
    by (repeat (apply Forall_cons; [unfold is_u8; lia|]); apply Forall_nil).
  exact (encode_decode_bytes ([4; 2] ++ red_payload ++ green_payload)
           blank_anim Hb ltac:(change (0 <= 2 <= 20); lia)
           ltac:(vm_compute; lia) eq_refl).
Defined.

(* ------------------------------------------------------------------ *)
(** ** Uploads that do not go through *)

Lemma await_rx_empty (w : list poll) : rx_stream w = [] -> await_rx w = None.
Proof.
  induction w as [|p w IH]; intros H; [reflexivity|].
  unfold rx_stream in H. cbn [flat_map] in H. cbn [await_rx].
  destruct (p_rx p); [discriminate|]. now apply IH.
Qed.


(** X5.  The reads of an upload have no time limit: when the host stops
    before the announced keyframes are all there, the function never
    returns; it has echoed nothing, written nothing to the EEPROM and
    stored nothing outside its buffer. *)
Theorem upload_stalls_without_payload (L : layout) (s : sys) (b0 fc : Z)
    (partial : list Z) :
  rx_stream (world s) = b0 :: fc :: partial ->
  0 <= fc <= 20 ->
  Z.of_nat (List.length partial) < fc * FRAME_SIZE ->
  exists s',
    handleUploadRequest L s = Spin s' /\
    tx s' = tx s /\ eeprom s' = eeprom s /\ oob s' = oob s.
Proof.
  intros Hs Hfc Hlen. unfold FRAME_SIZE in Hlen.
  destruct (upload_header s b0 fc partial Hs) as [H1 Hr].
  assert (Hr' : rx_stream (world (set_world (drop_rx (world s) 2) s))
                = partial ++ []) by (now rewrite app_nil_r).
  assert (Hl := upload_loop_reads partial 256 [b0; fc] 140
                  (set_world (drop_rx (world s) 2) s) [] Hr').
  cbn [List.length world set_world] in Hl.
  change (rd [b0; fc] 1) with fc in Hl.
  unfold FRAME_SIZE, META_SIZE in Hl. change (Z.of_nat 2) with 2 in Hl.
  rewrite Hl in H1 by lia. clear Hl.
  apply rx_stream_drop in Hr'. cbn [world set_world] in Hr'.
  rewrite drop_rx_add in *.
  rewrite upload_loop_eq in H1.
  rewrite rd_app_l in H1 by (rewrite length_app; cbn; lia).
  replace (rd ([b0; fc] ++ partial) 1) with fc in H1 by reflexivity.
  unfold FRAME_SIZE, META_SIZE in H1.
  rewrite length_app in H1. cbn [List.length] in H1.
  replace (Z.of_nat (2 + List.length partial) <? fc * 7 + 2) with true in H1
    by (symmetry; apply Z.ltb_lt; lia).
  destruct (256 - List.length partial)%nat as [|n] eqn:En; [lia|].
  assert (Ha : Serial_await
                 (set_world (drop_rx (world s) (2 + List.length partial)) s)
               = Spin (set_world []
                         (set_world
                            (drop_rx (world s) (2 + List.length partial)) s))).
  { unfold Serial_await. cbn [world set_world].
    now rewrite (await_rx_empty _ Hr'). }
  rewrite (bind_Spin _ _ _ _ Ha) in H1.
  eexists. split.
  - unfold handleUploadRequest. apply bind_Spin. exact H1.
  - repeat split.
Qed.

Lemma upload_stalls_without_payload_witness :
  exists s',
    handleUploadRequest xiao_layout (start stall_world) = Spin s' /\
    tx s' = tx (start stall_world) /\ eeprom s' = sample_eeprom.
Proof.
  destruct (upload_stalls_without_payload xiao_layout (start stall_world) 4 2 red_payload
              eq_refl ltac:(lia) ltac:(vm_compute; reflexivity))
    as (s' & H1 & H2 & H3 & _).
  exists s'. split; [exact H1|]. split; [exact H2|exact H3].
Defined.

Lemma oob_Serial_await : keeps oob Serial_await.
Proof.
  intros s. unfold Serial_await. destruct (await_rx (world s)); reflexivity.
Qed.

Lemma oob_Serial_read : keeps oob Serial_read.
Proof.
  intros s. unfold Serial_read. destruct (world s) as [|p w]; [reflexivity|].
  destruct (p_rx p); reflexivity.
Qed.

Lemma oob_Serial_write (bs : list Z) : keeps oob (Serial_write bs).
Proof. intros s. reflexivity. Qed.

Lemma oob_waitForAck : keeps oob (waitForAck 1000).
Proof.
  intros s. unfold waitForAck. destruct (world s) as [|p w]; [reflexivity|].
  destruct (waitForAck_poll 1000 (p_now p) (p :: w)) as [[[|] w']|];
    reflexivity.
Qed.

(** With a frame count that fits, no pass of the loop stores outside the
    buffer. *)
Lemma oob_upload_loop (n : nat) :
  forall (b : list Z) (c : Z),
    2 <= c -> rd b 1 * FRAME_SIZE + META_SIZE <= SERIAL_PACKET ->
    keeps oob (upload_loop n b c).
Proof.
  induction n as [|n IH]; intros b c Hc Hb s; rewrite upload_loop_eq;
    destruct (Z.ltb_spec c (rd b 1 * FRAME_SIZE + META_SIZE)) as [Hlt|Hge];
    try reflexivity.
  replace (c <=? SERIAL_PACKET) with true by (symmetry; apply Z.leb_le; lia).
  unfold bind at 1. pose proof (oob_Serial_await s) as K1.
  destruct (Serial_await s) as [u s0|s0|s0]; try exact K1.
  cbn [final] in K1. unfold bind at 1. pose proof (oob_Serial_read s0) as K2.
  destruct (Serial_read s0) as [d s1|s1|s1]; cbn [final] in K2 |- *;
    try congruence.
  unfold bind at 1, buf_store.
  replace (c <? SERIAL_PACKET) with true by (symmetry; apply Z.ltb_lt; lia).
  unfold ret at 1. unfold SERIAL_PACKET in *. rewrite u8_small by lia.
  rewrite IH; [congruence|lia|].
  unfold rd, wr in *. rewrite nth_upd_other by lia. exact Hb.
Qed.

(** X6.  An upload whose frame count is at most 20 never stores outside
    the 142 bytes of [localBuff], whatever the host sends after the header
    and however the exchange ends. *)
Theorem upload_stays_in_bounds (L : layout) (s : sys) (b0 fc : Z) (more : list Z) :
  rx_stream (world s) = b0 :: fc :: more ->
  fc <= MAX_FRAMES ->
  oob (final (handleUploadRequest L s)) = oob s.
Proof.
  intros Hs Hfc. unfold MAX_FRAMES in Hfc.
  destruct (upload_header s b0 fc more Hs) as [H1 _].
  unfold handleUploadRequest, bind at 1. rewrite H1.
  pose proof (oob_upload_loop 256 ([b0; fc] ++ repeat 0 140) 2
                ltac:(lia)
                ltac:(change (rd ([b0; fc] ++ repeat 0 140) 1) with fc;
                      unfold FRAME_SIZE, META_SIZE, SERIAL_PACKET; lia)
                (set_world (drop_rx (world s) 2) s)) as K.
  cbn [oob set_world] in K.
  destruct (upload_loop 256 ([b0; fc] ++ repeat 0 140) 2
              (set_world (drop_rx (world s) 2) s)) as [[[b n]|] s1|s1|s1];
    cbn [final] in K |- *; try exact K.
  unfold bind at 1, Serial_write, modify. unfold bind at 1.
  pose proof (oob_waitForAck (set_tx (tx s1 ++ firstn (Z.to_nat n) b) s1)) as K2.
  cbn [oob set_tx] in K2.
  destruct (waitForAck 1000 (set_tx (tx s1 ++ firstn (Z.to_nat n) b) s1))
    as [[|] s2|s2|s2]; cbn [final] in K2 |- *; try congruence.
  - cbn. congruence.
  - cbn. congruence.
Qed.

Lemma upload_stays_in_bounds_witness :
  oob (final (handleUploadRequest xiao_layout (start upload_nack_world))) = [] /\
  oob (final (handleUploadRequest xiao_layout (start stall_world))) = [].
Proof.
  split.
  - apply (upload_stays_in_bounds xiao_layout (start upload_nack_world) 4 1
             (red_payload ++ [0]) eq_refl).
    unfold MAX_FRAMES. lia.
  - apply (upload_stays_in_bounds xiao_layout (start stall_world) 4 2 red_payload eq_refl).
    unfold MAX_FRAMES. lia.
Defined.

(** A step that keeps the EEPROM, followed by steps that write it only on
    the way to a normal return, writes it only on the way to a normal
    return. *)
Lemma bind_returns_or_keeps {A B : Type} (c : M A) (k : A -> M B) (s : sys) :
  eeprom (final (c s)) = eeprom s ->
  (forall a s1,
     (exists b s', k a s1 = Ret b s') \/ eeprom (final (k a s1)) = eeprom s1) ->
  (exists b s', bind c k s = Ret b s') \/
  eeprom (final (bind c k s)) = eeprom s.
Proof.
  intros K H. unfold bind.
  destruct (c s) as [a s1|s1|s1]; cbn [final] in K; try (right; exact K).
  destruct (H a s1) as [Hl|Hr]; [left; exact Hl|right; congruence].
Qed.

(** The EEPROM is written by an upload only on the way to its normal
    return. *)
Lemma upload_writes_on_return (L : layout) (s : sys) :
  (exists u s', handleUploadRequest L s = Ret u s') \/
  eeprom (final (handleUploadRequest L s)) = eeprom s.
Proof.
  unfold handleUploadRequest. apply bind_returns_or_keeps.
  - apply keeps_upload_receive, io_blind_eeprom.
  - intros [[b n]|] s1; [|left; do 2 eexists; reflexivity].
    apply bind_returns_or_keeps; [reflexivity|]. intros _ s2.
    apply bind_returns_or_keeps; [apply keeps_waitForAck, io_blind_eeprom|].
    intros [|] s3; [left; do 2 eexists; reflexivity|right; reflexivity].
Qed.

(** The EEPROM is written by an exchange only on the way to its normal
    return. *)
Lemma handleSerial_writes_on_return (L : layout) (s : sys) :
  (exists u s1, handleSerial L s = Ret u s1) \/
  eeprom (final (handleSerial L s)) = eeprom s.
Proof.
  unfold handleSerial. apply bind_returns_or_keeps.
  - apply keeps_readStringUntil, io_blind_eeprom.
  - intros code s1.
    apply bind_returns_or_keeps; [reflexivity|]. intros _ s2.
    apply bind_returns_or_keeps; [reflexivity|]. intros _ s3.
    apply bind_returns_or_keeps; [reflexivity|]. intros _ s4.
    cbv zeta.
    destruct ((48 <=? first_char code) && (first_char code <=? 53)).
    + apply upload_writes_on_return.
    + destruct (first_char code =? 100).
      * right. apply keeps_handleDownloadRequest, io_blind_eeprom.
      * left. do 2 eexists. reflexivity.
Qed.

(** X7.  No exchange that ends in a reset or that never ends leaves a
    changed EEPROM behind: whatever the command and whatever the host
    sends, the EEPROM is as it was unless [handleSerial] returns. *)
Theorem no_write_without_return (L : layout) (s s' : sys) :
  handleSerial L s = Reset s' \/ handleSerial L s = Spin s' ->
  eeprom s' = eeprom s.
Proof.
  intros H.
  destruct (handleSerial_writes_on_return L s) as [(u & s1 & Hc)|Hc].
  - destruct H as [H|H]; congruence.
  - destruct H as [H|H]; rewrite H in Hc; exact Hc.
Qed.

Lemma no_write_without_return_witness :
  exists s',
    handleSerial xiao_layout
      (start (bytes_at 0 [50; 45] ++ upload_nack_world)) = Reset s' /\
    eeprom s' = sample_eeprom.
Proof.
  eexists. split; [vm_compute; reflexivity|].
  change sample_eeprom
    with (eeprom (start (bytes_at 0 [50; 45] ++ upload_nack_world))).
  apply (no_write_without_return xiao_layout).
  left. vm_compute. reflexivity.
Defined.

(* ------------------------------------------------------------------ *)
(** ** Commands and replies *)

(** X8.  Only the commands that begin with a digit from '0' to '5' can
    change the EEPROM: after any other command, a download included, the
    EEPROM is as it was, whatever the host sends next and however the
    exchange ends. *)
Theorem only_uploads_write (L : layout) (s s1 : sys) (code : list Z) :
  Serial_readStringUntil 45 s = Ret code s1 ->
  first_char code < 48 \/ 53 < first_char code ->
  eeprom (final (handleSerial L s)) = eeprom s.
Proof.
  intros Hr Hc.
  pose proof (keeps_readStringUntil eeprom io_blind_eeprom 45 s) as K.
  rewrite Hr in K. cbn [final] in K.
  unfold handleSerial. rewrite (bind_Ret _ _ _ _ _ Hr).
  unfold bind at 1, Serial_print, Serial_write, modify.
  unfold bind at 1, Serial_println, Serial_write, modify.
  unfold bind at 1, Serial_flush, ret.
  replace ((48 <=? first_char code) && (first_char code <=? 53)) with false
    by (symmetry; apply andb_false_iff;
        destruct Hc; [left; apply Z.leb_gt|right; apply Z.leb_gt]; lia).
  destruct (first_char code =? 100).
  - rewrite (keeps_handleDownloadRequest L eeprom io_blind_eeprom). exact K.
  - exact K.
Qed.

Lemma only_uploads_write_witness :
  eeprom (final (handleSerial xiao_layout
                   (start (bytes_at 0 [100; 45] ++ eighteen_acks))))
  = sample_eeprom.
Proof.
  change sample_eeprom
    with (eeprom (start (bytes_at 0 [100; 45] ++ eighteen_acks))).
  apply (only_uploads_write xiao_layout
           (start (bytes_at 0 [100; 45] ++ eighteen_acks))
           (set_world eighteen_acks
              (start (bytes_at 0 [100; 45] ++ eighteen_acks)))
           [100]).
  - reflexivity.
  - right. cbn. lia.
Defined.

(** X9.  A command that is neither an upload nor a download, the empty one
    included, is answered by the ready line and an empty line; nothing
    more is read from the serial port and nothing else changes. *)
Theorem unknown_command_reply (L : layout) (s s1 : sys) (code : list Z) :
  Serial_readStringUntil 45 s = Ret code s1 ->
  first_char code < 48 \/ 53 < first_char code ->
  first_char code <> 100 ->
  handleSerial L s
  = Ret tt (set_tx (((tx s ++ bytes_of_string "ready_") ++ code ++ CRLF)
                    ++ CRLF)
              (set_world (world s1) s)).
Proof.
  intros Hr Hc Hd.
  pose proof (readStringUntil_state _ _ _ _ Hr) as Hs1.
  unfold handleSerial. rewrite (bind_Ret _ _ _ _ _ Hr).
  unfold bind at 1, Serial_print, Serial_write, modify.
  unfold bind at 1, Serial_println, Serial_write, modify.
  unfold bind at 1, Serial_flush, ret.
  replace ((48 <=? first_char code) && (first_char code <=? 53)) with false
    by (symmetry; apply andb_false_iff;
        destruct Hc; [left; apply Z.leb_gt|right; apply Z.leb_gt]; lia).
  replace (first_char code =? 100) with false
    by (symmetry; now apply Z.eqb_neq).
  rewrite Hs1. reflexivity.
Qed.

Lemma unknown_command_reply_witness :
  handleSerial xiao_layout (start (bytes_at 0 [120; 45; 7]))
  = Ret tt (set_tx (bytes_of_string "ready" ++ CRLF
                    ++ bytes_of_string "ready_x" ++ CRLF ++ CRLF)
              (start [rx_at 0 7])).
Proof.
  apply (unknown_command_reply xiao_layout (start (bytes_at 0 [120; 45; 7]))
           (set_world [rx_at 0 7] (start (bytes_at 0 [120; 45; 7]))) [120]).
  - reflexivity.
  - right. cbn. lia.
  - cbn. lia.
Defined.

(** What a wait for an acknowledgement sends. *)
Lemma waitForAck_tx (s : sys) :
  match waitForAck 1000 s with
  | Ret true s' => tx s' = tx s
  | Ret false s' => tx s' = tx s ++ ACK_FAIL
  | Reset _ => False
  | Spin s' => tx s' = tx s
  end.
Proof.
  unfold waitForAck. destruct (world s) as [|p w]; [reflexivity|].
  destruct (waitForAck_poll 1000 (p_now p) (p :: w)) as [[[|] w']|];
    reflexivity.
Qed.

Lemma firstn_echo (b0 fc : Z) (payload : list Z) (m : nat) :
  fc >= 0 ->
  List.length payload = Z.to_nat (fc * FRAME_SIZE) ->
  firstn (Z.to_nat (fc * FRAME_SIZE + META_SIZE))
    ([b0; fc] ++ payload ++ repeat 0 m)
  = b0 :: fc :: payload.
Proof.
  intros Hfc Hlen.
  replace (Z.to_nat (fc * FRAME_SIZE + META_SIZE))
    with (S (S (List.length payload)))
    by (unfold FRAME_SIZE, META_SIZE in *; lia).
  cbn [firstn app]. now rewrite firstn_app, firstn_all, Nat.sub_diag, app_nil_r.
Qed.

(** X10.  The reply to an upload whose keyframes all arrive is the echo of
    the bytes received, the two header bytes and the payload and no more
    of the buffer, followed by the completion line when the function
    returns, by the failure line when it resets the machine, and by
    nothing when the acknowledgement is waited for without end. *)
Theorem upload_echo_verbatim (L : layout) (s : sys) (b0 fc : Z)
    (payload more : list Z) :
  rx_stream (world s) = b0 :: fc :: payload ++ more ->
  0 <= fc <= 20 ->
  List.length payload = Z.to_nat (fc * FRAME_SIZE) ->
  match handleUploadRequest L s with
  | Ret _ s' =>
      tx s' = (tx s ++ b0 :: fc :: payload) ++ bytes_of_string "Done" ++ CRLF
  | Reset s' => tx s' = (tx s ++ b0 :: fc :: payload) ++ ACK_FAIL
  | Spin s' => tx s' = tx s ++ b0 :: fc :: payload
  end.
Proof.
  intros Hs Hfc Hlen.
  pose proof (upload_receive_fits s b0 fc payload more Hs Hfc Hlen) as Hr.
  unfold handleUploadRequest. rewrite (bind_Ret _ _ _ _ _ Hr).
  unfold bind at 1, Serial_write, modify.
  rewrite firstn_echo by (assumption || lia).
  cbn [tx set_world].
  set (s2 := set_tx _ _).
  change (tx s ++ b0 :: fc :: payload) with (tx s2).
  unfold bind at 1. pose proof (waitForAck_tx s2) as K.
  destruct (waitForAck 1000 s2) as [[|] s3|s3|s3]; try contradiction;
    cbn; rewrite K; reflexivity.
Qed.

Lemma upload_echo_verbatim_witness :
  (exists s', handleUploadRequest xiao_layout (start acked_world) = Ret tt s' /\
     tx s' = (bytes_of_string "ready" ++ CRLF ++ [4; 1] ++ red_payload)
             ++ bytes_of_string "Done" ++ CRLF) /\
  (exists s', handleUploadRequest xiao_layout (start upload_nack_world)
              = Reset s' /\
     tx s' = (bytes_of_string "ready" ++ CRLF ++ [4; 1] ++ red_payload)
             ++ ACK_FAIL).
Proof.
  split.
  - pose proof (upload_echo_verbatim xiao_layout (start acked_world) 4 1
                  red_payload [255] eq_refl ltac:(lia) eq_refl) as H.
    destruct (handleUploadRequest xiao_layout (start acked_world))
      as [[] s'|s'|s'] eqn:E; try (vm_compute in E; discriminate).
    exists s'. split; [reflexivity|exact H].
  - pose proof (upload_echo_verbatim xiao_layout (start upload_nack_world) 4 1
                  red_payload [0] eq_refl ltac:(lia) eq_refl) as H.
    destruct (handleUploadRequest xiao_layout (start upload_nack_world))
      as [[] s'|s'|s'] eqn:E; try (vm_compute in E; discriminate).
    exists s'. split; [reflexivity|exact H].
Defined.

(** The bytes of a received upload are bytes. *)
Lemma upload_buffer_u8 (w : list poll) (b0 fc : Z) (payload more : list Z)
    (m : nat) :
  rx_stream w = b0 :: fc :: payload ++ more ->
  Forall is_u8 ([b0; fc] ++ payload ++ repeat 0 m).
Proof.
  intros Hs. pose proof (rx_stream_u8 w) as H. rewrite Hs in H.
  inversion H as [|x0 l0 H0 H']; subst. inversion H' as [|x1 l1 H1 H'']; subst.
  apply Forall_app in H''. destruct H'' as [Hp _].
  cbn [app]. repeat (apply Forall_cons; [assumption|]).
  apply Forall_app. split; [exact Hp|].
  apply Forall_forall. intros x Hx. apply repeat_spec in Hx. subst.
  unfold is_u8. lia.
Qed.

Lemma In_upto (n i : Z) : In i (upto n) <-> 0 <= i < n.
Proof.
  unfold upto. rewrite in_map_iff. split.
  - intros (k & <- & Hk). apply in_seq in Hk. lia.
  - intros H. exists (Z.to_nat i). split; [lia|]. apply in_seq. lia.
Qed.

(** X11.  Upload, then download.  After an acknowledged upload of at most
    20 keyframes to one of the six slots, the other five holding valid
    records, what a download sends for the uploaded slot is the slot
    number, the frame count and the payload that were uploaded, byte for
    byte, and what it sends for each other slot is the frame count and the
    keyframes of the record that slot held before the upload. *)
Theorem upload_then_download (L : layout) (s : sys) (b0 fc : Z)
    (payload more : list Z) (idle : list poll) (p : poll) (rest : list poll) :
  layout_ok L ->
  animation_wf (junk s) ->
  rx_stream (world s) = b0 :: fc :: payload ++ more ->
  0 <= b0 < DEFAULTS_COUNT ->
  0 <= fc <= 20 ->
  List.length payload = Z.to_nat (fc * FRAME_SIZE) ->
  (forall i, 0 <= i < 6 -> i <> b0 ->
     valid_record (EEPROM_get L (slot_addr L i) (eeprom s))) ->
  drop_rx (world s) (2 + List.length payload) = idle ++ p :: rest ->
  forallb (is_quiet 1000
             (clock0 (drop_rx (world s) (2 + List.length payload)))) idle
    = true ->
  is_ack p = true ->
  exists s',
    handleUploadRequest L s = Ret tt s' /\
    download_script L (eeprom s')
    = flat_map (fun i =>
        if i =? b0 then [[b0; fc]; payload; []]
        else [[i; frameCount (EEPROM_get L (slot_addr L i) (eeprom s))];
              flat_map keyframe_wire
                (keyframes (EEPROM_get L (slot_addr L i) (eeprom s))); []])
        (upto 6).
Proof.
  intros HL Hj Hs Hb0 Hfc Hlen Hv Hw Hq Hp.
  rewrite (upload_success L s b0 fc payload more idle p rest Hs Hfc Hlen Hw Hq Hp).
  eexists. split; [reflexivity|].
  cbn [eeprom set_tx set_eeprom].
  set (buff := [b0; fc] ++ payload ++ repeat 0 (140 - List.length payload)).
  assert (Hu : Forall is_u8 buff)
    by (apply (upload_buffer_u8 (world s) b0 fc payload more); exact Hs).
  assert (Hfc' : 0 <= rd buff 1 <= MAX_FRAMES)
    by (change (rd buff 1) with fc; unfold MAX_FRAMES; lia).
  assert (Hwf : animation_wf (parse_animation buff (junk s)))
    by (now apply parse_animation_wf).
  assert (Hlb : (2 + 7 * Z.to_nat (rd buff 1) <= List.length buff)%nat).
  { change (rd buff 1) with fc. unfold buff.
    cbn [app List.length]. rewrite length_app.
    unfold FRAME_SIZE in Hlen. lia. }
  destruct (frame_bytes_parse buff (junk s) Hu Hfc' Hlb
              ltac:(destruct Hj as (_ & Hl & _); exact Hl)) as [H1 H2].
  change (rd buff 1) with fc in H1, H2.
  assert (H3 : firstn (7 * Z.to_nat fc) (skipn 2 buff) = payload).
  { unfold buff. cbn [app skipn].
    replace (7 * Z.to_nat fc)%nat with (List.length payload)
      by (unfold FRAME_SIZE in Hlen; lia).
    now rewrite firstn_app, firstn_all, Nat.sub_diag, app_nil_r. }
  unfold download_script. rewrite !flat_map_concat_map. f_equal.
  apply map_ext_in. intros i Hi. apply In_upto in Hi. cbv zeta.
  destruct (Z.eqb_spec i b0) as [->|Hne].
  - rewrite (EEPROM_get_put L HL) by exact Hwf.
    now rewrite H1, H2, H3.
  - rewrite (EEPROM_get_put_other L HL b0 i) by (exact Hwf || congruence).
    destruct (Hv i Hi Hne) as ((_ & Hl & _) & Hc & _).
    unfold MAX_FRAMES in *.
    rewrite frame_bytes_keyframes by lia. reflexivity.
Qed.

Lemma upload_then_download_witness :
  exists s',
    handleUploadRequest xiao_layout (boot xiao_layout six_eeprom acked_world)
    = Ret tt s' /\
    nth 13 (download_script xiao_layout (eeprom s')) [] = red_payload /\
    nth 10 (download_script xiao_layout (eeprom s')) []
    = flat_map keyframe_wire (keyframes blue_anim).
Proof.
  destruct (upload_then_download xiao_layout
              (boot xiao_layout six_eeprom acked_world) 4 1
              red_payload [255] [] (rx_at 1 255) []
              xiao_layout_ok blank_anim_wf eq_refl
              ltac:(unfold DEFAULTS_COUNT; lia) ltac:(lia) eq_refl
              (fun i Hi _ => six_eeprom_valid i Hi)
              eq_refl eq_refl eq_refl) as (s' & H1 & H2).
  exists s'. split; [exact H1|]. rewrite H2.
  split; vm_compute; reflexivity.
Defined.

(* ------------------------------------------------------------------ *)
(** ** The main loop *)

(** A call of [loop] that finds no serial input: one step of the button
    machine, and a load when its output changed. *)
Lemma loop_quiet_step (L : layout) (s : sys) (p : poll) (w : list poll) :
  world s = p :: w -> p_rx p = None -> in_sync L s ->
  exists s',
    loop L s = Ret tt s' /\ in_sync L s' /\ world s' = w /\
    eeprom s' = eeprom s /\ tx s' = tx s /\
    buttons s' = fsm_step (buttons s) (poll_pins p).
Proof.
  intros Hw Hp (H1 & H2 & H3 & H4).
  pose proof (buttonFSM_range (p_up p) (p_dwn p) (p_now p) (buttons s)
                ltac:(rewrite <- H1; exact H2)) as Hr.
  unfold loop. rewrite Hw, Hp. cbv zeta.
  unfold bind at 1, modify.
  destruct (outputMode (buttonFSM (p_up p) (p_dwn p) (p_now p) (buttons s))
            =? lastMode s) eqn:E; cbn [negb].
  - apply Z.eqb_eq in E. eexists. split; [reflexivity|].
    unfold in_sync, fsm_step, poll_pins.
    cbn [lastMode buttons currentAnim animator eeprom world tx set_buttons
           set_world pin_up pin_dwn pin_now].
    rewrite E. repeat split; try assumption; lia.
  - eexists. split; [reflexivity|].
    unfold in_sync, fsm_step, poll_pins.
    cbn [lastMode buttons currentAnim animator eeprom world tx set_buttons
           set_world set_lastMode set_animator set_currentAnim
           pin_up pin_dwn pin_now].
    repeat split; lia.
Qed.

(** X12.  As long as nothing arrives on the serial port, calls of [loop]
    return, write nothing to the serial port or the EEPROM, step the button
    machine once per call on the pins and the clock of that call, and keep
    the lamp in step with it: the record loaded and given to the rendering
    engine is the one stored in the slot that the button machine has
    selected. *)
Theorem silent_loop_in_sync (L : layout) (n : nat) :
  forall s : sys,
    in_sync L s -> silent (world s) -> (n <= List.length (world s))%nat ->
    exists s',
      ticks L n s = Ret tt s' /\ in_sync L s' /\
      world s' = skipn n (world s) /\
      eeprom s' = eeprom s /\ tx s' = tx s /\
      buttons s' = fsm_run (map poll_pins (firstn n (world s))) (buttons s).
Proof.
  induction n as [|n IH]; intros s Hi Hq Hn.
  - exists s. split; [reflexivity|]. split; [exact Hi|].
    repeat split.
  - destruct (world s) as [|p w] eqn:Hw; [cbn in Hn; lia|].
    inversion Hq as [|p' w' Hp Hq']; subst.
    destruct (loop_quiet_step L s p w Hw Hp Hi)
      as (s1 & Hl & Hi1 & Hw1 & He1 & Ht1 & Hb1).
    destruct (IH s1 Hi1 ltac:(rewrite Hw1; exact Hq')
                ltac:(rewrite Hw1; cbn in Hn; lia))
      as (s' & Hl' & Hi' & Hw' & He' & Ht' & Hb').
    exists s'. cbn [ticks]. rewrite (bind_Ret _ _ _ _ _ Hl).
    split; [exact Hl'|]. split; [exact Hi'|].
    rewrite Hw1 in Hw', Hb'. rewrite Hb1 in Hb'.
    cbn [skipn firstn map]. unfold fsm_run in *. cbn [fold_left].
    repeat split; congruence.
Qed.

Lemma silent_loop_in_sync_witness :
  exists s',
    ticks xiao_layout 3 (start press_world) = Ret tt s' /\
    lastMode s' = 1 /\
    animator s'
    = EEPROM_get xiao_layout (slot_addr xiao_layout 1) sample_eeprom.
Proof.
  assert (Hi : in_sync xiao_layout (start press_world)).
  { split; [reflexivity|]. split; [change (0 <= 0 < 6); lia|].
    split; [vm_compute; reflexivity|reflexivity]. }
  assert (Hq : silent (world (start press_world)))
    by (repeat (apply Forall_cons; [reflexivity|]); apply Forall_nil).
  destruct (silent_loop_in_sync xiao_layout 3 (start press_world) Hi Hq
              ltac:(vm_compute; lia))
    as (s' & H1 & (Ha & _ & Hc & Hd) & _ & He & _ & Hb).
  exists s'. split; [exact H1|].
  assert (Hm : lastMode s' = 1) by (rewrite Ha, Hb; reflexivity).
  split; [exact Hm|]. rewrite Hd, Hc, Hm, He. reflexivity.
Defined.

(** X13.  An upload that comes in through [loop] is shown at once only when
    it is addressed to slot 0: after the acknowledged upload of a record
    to one of the six slots the rendering engine has the uploaded record
    when that slot is 0 and, when it is not, the record that slot 0 held
    before, whichever slot is selected; the selection itself is as
    before. *)
Theorem upload_shown_only_for_slot_0 (L : layout) (s s1 : sys)
    (p0 : poll) (w0 : list poll) (b : Z) (code : list Z) (b0 fc : Z)
    (payload more : list Z) (idle : list poll) (q : poll) (rest : list poll) :
  layout_ok L ->
  animation_wf (junk s) ->
  world s = p0 :: w0 -> p_rx p0 = Some b ->
  Serial_readStringUntil 45 s = Ret code s1 ->
  48 <= first_char code <= 53 ->
  rx_stream (world s1) = b0 :: fc :: payload ++ more ->
  0 <= b0 < DEFAULTS_COUNT ->
  0 <= fc <= 20 ->
  List.length payload = Z.to_nat (fc * FRAME_SIZE) ->
  drop_rx (world s1) (2 + List.length payload) = idle ++ q :: rest ->
  forallb (is_quiet 1000
             (clock0 (drop_rx (world s1) (2 + List.length payload)))) idle
    = true ->
  is_ack q = true ->
  exists s',
    loop L s = Ret tt s' /\
    animator s'
    = (if b0 =? 0
       then parse_animation
              ([b0; fc] ++ payload ++ repeat 0 (140 - List.length payload))
              (junk s)
       else EEPROM_get L (slot_addr L 0) (eeprom s)) /\
    outputMode (buttons s') = outputMode (buttons s) /\
    lastMode s' = lastMode s.
Proof.
  intros HL Hj Hw Hp Hr Hc Hs Hb0 Hfc Hlen Hd Hq Ha.
  pose proof (readStringUntil_state _ _ _ _ Hr) as Hs1.
  assert (Hj1 : junk s1 = junk s) by (rewrite Hs1; reflexivity).
  assert (He1 : eeprom s1 = eeprom s) by (rewrite Hs1; reflexivity).
  assert (Hb1 : buttons s1 = buttons s) by (rewrite Hs1; reflexivity).
  assert (Hm1 : lastMode s1 = lastMode s) by (rewrite Hs1; reflexivity).
  set (buff := [b0; fc] ++ payload ++ repeat 0 (140 - List.length payload)).
  assert (Hwf : animation_wf (parse_animation buff (junk s))).
  { apply parse_animation_wf; [|exact Hj|].
    - apply (upload_buffer_u8 (world s1) b0 fc payload more); exact Hs.
    - change (rd buff 1) with fc. unfold MAX_FRAMES. lia. }
  unfold loop. rewrite Hw, Hp. cbv zeta.
  unfold bind at 1. rewrite (handleSerial_upload L s s1 code Hr Hc).
  rewrite (upload_success L
             (set_tx ((tx s1 ++ bytes_of_string "ready_") ++ code ++ CRLF) s1)
             b0 fc payload more idle q rest Hs Hfc Hlen Hd Hq Ha).
  eexists. split; [reflexivity|].
  cbn [animator currentAnim eeprom buttons lastMode junk set_animator
         set_currentAnim set_tx set_eeprom set_world].
  fold buff. rewrite Hj1, He1, Hb1, Hm1.
  split; [|split; reflexivity].
  destruct (Z.eqb_spec b0 0) as [->|Hne].
  - now rewrite (EEPROM_get_put L HL).
  - now rewrite (EEPROM_get_put_other L HL b0 0) by (exact Hwf || exact Hne).
Qed.

Lemma upload_shown_only_for_slot_0_witness :
  exists s',
    loop xiao_layout (start slot0_world) = Ret tt s' /\
    keyframes (animator s') = [mkFrame 0 255 0 50].
Proof.
  destruct (upload_shown_only_for_slot_0 xiao_layout (start slot0_world)
              (set_world (bytes_at 0 ([0; 1] ++ green_payload) ++ [rx_at 1 255])
                 (start slot0_world))
              (rx_at 0 48)
              (bytes_at 0 ([45] ++ [0; 1] ++ green_payload) ++ [rx_at 1 255])
              48 [48] 0 1 green_payload [255] [] (rx_at 1 255) []
              xiao_layout_ok blank_anim_wf eq_refl eq_refl eq_refl
              ltac:(cbn; lia) eq_refl ltac:(unfold DEFAULTS_COUNT; lia)
              ltac:(lia) eq_refl eq_refl eq_refl eq_refl)
    as (s' & H1 & H2 & _).
  exists s'. split; [exact H1|]. rewrite H2. reflexivity.
Defined.

(* ------------------------------------------------------------------ *)
(** ** Writing the defaults *)

Lemma for_each_put (L : layout) (d : Z -> animation) (l : list Z) :
  forall s : sys,
    for_each l
      (fun i =>
         modify (fun s =>
           set_eeprom (EEPROM_put L (slot_addr L i) (d i) (eeprom s)) s)) s
    = Ret tt
        (set_eeprom
           (fold_left (fun e i => EEPROM_put L (slot_addr L i) (d i) e) l
              (eeprom s)) s).
Proof.
  induction l as [|i l IH]; intros s; cbn [for_each fold_left].
  - destruct s; reflexivity.
  - unfold bind at 1, modify. rewrite IH. reflexivity.
Qed.

Section Defaults.
Variable L : layout.
Hypothesis HL : layout_ok L.
Variable d : Z -> animation.

Lemma get_fold_put_other (l : list Z) (j : Z) :
  (forall i, In i l -> animation_wf (d i)) -> ~ In j l ->
  forall e,
    EEPROM_get L (slot_addr L j)
      (fold_left (fun e i => EEPROM_put L (slot_addr L i) (d i) e) l e)
    = EEPROM_get L (slot_addr L j) e.
Proof.
  induction l as [|i l IH]; intros Hwf Hn e; cbn [fold_left]; [reflexivity|].
  rewrite IH.
  - apply (EEPROM_get_put_other L HL).
    + apply Hwf. now left.
    + intros ->. apply Hn. now left.
  - intros k Hk. apply Hwf. now right.
  - intros Hk. apply Hn. now right.
Qed.

Lemma get_fold_put (l : list Z) (j : Z) :
  (forall i, In i l -> animation_wf (d i)) -> NoDup l -> In j l ->
  forall e,
    EEPROM_get L (slot_addr L j)
      (fold_left (fun e i => EEPROM_put L (slot_addr L i) (d i) e) l e)
    = d j.
Proof.
  induction l as [|i l IH]; intros Hwf Hnd Hin e; [destruct Hin|].
  cbn [fold_left]. inversion Hnd as [|i' l' Hni Hnd']; subst.
  destruct Hin as [->|Hin].
  - rewrite get_fold_put_other; [|intros k Hk; apply Hwf; now right|exact Hni].
    apply (EEPROM_get_put L HL). apply Hwf. now left.
  - apply IH; [intros k Hk; apply Hwf; now right|exact Hnd'|exact Hin].
Qed.

Lemma fold_put_outside (l : list Z) (x : Z) :
  (forall i, In i l -> animation_wf (d i)) ->
  (forall i, In i l ->
     x < slot_addr L i \/ slot_addr L i + sizeof_animation L <= x) ->
  forall e,
    fold_left (fun e i => EEPROM_put L (slot_addr L i) (d i) e) l e x = e x.
Proof.
  induction l as [|i l IH]; intros Hwf Hx e; cbn [fold_left]; [reflexivity|].
  rewrite IH.
  - apply (EEPROM_put_outside L HL); [apply Hwf|apply Hx]; now left.
  - intros k Hk. apply Hwf. now right.
  - intros k Hk. apply Hx. now right.
Qed.
End Defaults.

Lemma NoDup_upto_defaults : NoDup (upto DEFAULTS_COUNT).
Proof.
  change (upto DEFAULTS_COUNT) with [0; 1; 2; 3; 4; 5].
  repeat (constructor; [cbn [In]; intuition lia|]). constructor.
Qed.

(** X14.  [EEPROM_WriteDefaults] puts the six defaults in the six slots:
    afterwards a load of slot [i] gives [defaults[i]], the bytes outside
    the six regions are as before, and the one line it prints is the
    confirmation. *)
Theorem write_defaults_fills_slots (L : layout) (defaults : list animation)
    (s : sys) :
  layout_ok L ->
  List.length defaults = 6%nat ->
  Forall animation_wf defaults ->
  exists s',
    EEPROM_WriteDefaults L defaults s = Ret tt s' /\
    (forall i, 0 <= i < 6 ->
       currentAnim (final (EEPROM_Load L i s'))
       = nth (Z.to_nat i) defaults blank_anim) /\
    (forall x, x < 0 \/ 6 * sizeof_animation L <= x ->
       eeprom s' x = eeprom s x) /\
    tx s' = tx s ++ bytes_of_string "DEFAULTS WRITTEN TO EEPROM" ++ CRLF.
Proof.
  intros HL Hlen Hwf.
  set (d := fun i : Z => nth (Z.to_nat i) defaults blank_anim).
  assert (Hd : forall i, In i (upto DEFAULTS_COUNT) -> animation_wf (d i)).
  { intros i Hi. apply In_upto in Hi. unfold DEFAULTS_COUNT in Hi.
    rewrite Forall_forall in Hwf. apply Hwf. apply nth_In. lia. }
  unfold EEPROM_WriteDefaults.
  rewrite (bind_Ret _ _ _ _ _ (for_each_put L d (upto DEFAULTS_COUNT) s)).
  eexists. split; [reflexivity|].
  cbn [eeprom tx set_eeprom set_tx]. split; [|split].
  - intros i Hi. cbn [EEPROM_Load modify final currentAnim set_currentAnim
                        eeprom set_eeprom set_tx].
    unfold EEPROM_Load, modify.
    cbn [final currentAnim set_currentAnim eeprom set_eeprom set_tx].
    apply (get_fold_put L HL d); [exact Hd|apply NoDup_upto_defaults|].
    apply In_upto. unfold DEFAULTS_COUNT. lia.
  - intros x Hx. apply (fold_put_outside L HL d); [exact Hd|].
    intros i Hi. apply In_upto in Hi. unfold DEFAULTS_COUNT in Hi.
    pose proof (sizeof_pos L HL). unfold slot_addr. nia.
  - reflexivity.
Qed.

Lemma write_defaults_fills_slots_witness :
  exists s',
    EEPROM_WriteDefaults xiao_layout six_defaults (start []) = Ret tt s' /\
    currentAnim (final (EEPROM_Load xiao_layout 5 s')) = blue_anim /\
    eeprom s' 1008 = 255.
Proof.
  assert (Hwf : Forall animation_wf six_defaults).
  { pose proof red_anim_valid as [Hr _]. pose proof blue_anim_valid as [Hb _].
    repeat (apply Forall_cons; [assumption|]). apply Forall_nil. }
  destruct (write_defaults_fills_slots xiao_layout six_defaults (start [])
              xiao_layout_ok eq_refl Hwf) as (s' & H1 & H2 & H3 & _).
  exists s'. split; [exact H1|]. split.
  - apply (H2 5). lia.
  - rewrite (H3 1008) by (right; vm_compute; discriminate). reflexivity.
Defined.

(* ------------------------------------------------------------------ *)
(** ** The brightness knob *)

Lemma knob_scale (r : Z) : 0 <= r < 1024 -> u16 (Z.quot r 4) = r / 4.
Proof.
  intros H. rewrite Z.quot_div_nonneg by lia. unfold u16.
  apply Z.mod_small. Z.div_mod_to_equations. lia.
Qed.

Lemma quarter_range (r : Z) : 0 <= r < 1024 -> 0 <= r / 4 < 256.
Proof. intros H. Z.div_mod_to_equations. lia. Qed.

(** What one call of [loop] keeps of the knob, on either kind of target:
    [prevLEDScale] is 0 or the value last given to [setBrightness]. *)
Lemma knob_loop_applied (int16 : bool) (b0 : Z) (k : knob) (r : Z) :
  0 <= r < 1024 ->
  0 <= prevLEDScale k < 256 /\
  (brightness k = prevLEDScale k \/ prevLEDScale k = 0 /\ brightness k = b0) ->
  0 <= prevLEDScale (knob_loop int16 k r) < 256 /\
  (brightness (knob_loop int16 k r) = prevLEDScale (knob_loop int16 k r) \/
   prevLEDScale (knob_loop int16 k r) = 0 /\
   brightness (knob_loop int16 k r) = b0).
Proof.
  intros Hr [Hp Hb]. unfold knob_loop. rewrite knob_scale by exact Hr.
  pose proof (quarter_range r Hr) as Hq.
  destruct (abs_diff int16 (r / 4) (prevLEDScale k) >? POT_THRES);
    cbn [prevLEDScale brightness].
  - rewrite u8_small by lia. split; [lia|now left].
  - split; assumption.
Qed.

Lemma knob_run_applied (int16 : bool) (first : Z) (readings : list Z) :
  Forall (fun r => 0 <= r < 1024) readings ->
  0 <= prevLEDScale (knob_run int16 first readings) < 256 /\
  (brightness (knob_run int16 first readings)
   = prevLEDScale (knob_run int16 first readings) \/
   prevLEDScale (knob_run int16 first readings) = 0 /\
   brightness (knob_run int16 first readings) = u8 (Z.quot (u16 first) 4)).
Proof.
  unfold knob_run.
  assert (H0 : 0 <= prevLEDScale (knob_setup first) < 256 /\
               (brightness (knob_setup first) = prevLEDScale (knob_setup first) \/
                prevLEDScale (knob_setup first) = 0 /\
                brightness (knob_setup first) = u8 (Z.quot (u16 first) 4)))
    by (cbn [knob_setup prevLEDScale brightness];
        split; [lia|right; split; reflexivity]).
  revert H0. generalize (knob_setup first) as k.
  induction readings as [|r rs IH]; intros k H0 Hr; [exact H0|].
  inversion Hr as [|r' rs' Hr1 Hr2]; subst. cbn [fold_left].
  apply IH; [|exact Hr2]. now apply knob_loop_applied.
Qed.

(** X15.  The knob where [int] is wider than 16 bits.  After any call of
    [loop], with readings of 10 bits, the knob's scaled position is within
    [POT_THRES] of the value it was last applied at, in either direction;
    and the brightness given to the strip is that value, unless no call of
    [loop] has applied one yet, when it is still the one [setup] gave. *)
Theorem knob_within_threshold (first : Z) (readings : list Z) (r : Z) :
  Forall (fun x => 0 <= x < 1024) readings ->
  0 <= r < 1024 ->
  let k := knob_run false first (readings ++ [r]) in
  LEDscale k = r / 4 /\
  Z.abs (LEDscale k - prevLEDScale k) <= POT_THRES /\
  (brightness k = prevLEDScale k \/
   prevLEDScale k = 0 /\ brightness k = u8 (Z.quot (u16 first) 4)).
Proof.
  intros Hrs Hr k.
  assert (Ha : Forall (fun x => 0 <= x < 1024) (readings ++ [r]))
    by (apply Forall_app; split; [exact Hrs|now constructor]).
  destruct (knob_run_applied false first (readings ++ [r]) Ha) as [_ Hb].
  fold k in Hb. split; [|split; [|exact Hb]].
  - unfold k, knob_run. rewrite fold_left_app. cbn [fold_left].
    unfold knob_loop. rewrite knob_scale by exact Hr.
    now destruct (abs_diff false _ _ >? POT_THRES).
  - unfold k, knob_run. rewrite fold_left_app. cbn [fold_left].
    unfold knob_loop. rewrite knob_scale by exact Hr.
    match goal with
    | |- context [?a >? ?b] => destruct (Z.gtb_spec a b) as [Hgt|Hle]
    end; cbn [LEDscale prevLEDScale].
    + rewrite Z.sub_diag. unfold POT_THRES. change (Z.abs 0) with 0. lia.
    + exact Hle.
Qed.

Lemma knob_within_threshold_witness :
  let k := knob_run false 1020 ([80] ++ [40]) in
  LEDscale k = 40 / 4 /\
  Z.abs (LEDscale k - prevLEDScale k) <= POT_THRES /\
  (brightness k = prevLEDScale k \/
   prevLEDScale k = 0 /\ brightness k = u8 (Z.quot (u16 1020) 4)).
Proof.
  exact (knob_within_threshold 1020 [80] 40
           ltac:(repeat (constructor; [lia|]); constructor) ltac:(lia)).
Defined.

(** X16.  The knob where [int] has 16 bits.  The difference of the two
    [uint16_t] values is unsigned there and wraps, so any position below
    the last applied one counts as far away: after any call of [loop] the
    knob's scaled position is the last applied value or above it by at most
    [POT_THRES], never below it, and a reading below it is applied at
    once. *)
Theorem knob_16bit_follows_down (first : Z) (readings : list Z) (r : Z) :
  Forall (fun x => 0 <= x < 1024) readings ->
  0 <= r < 1024 ->
  let k0 := knob_run true first readings in
  let k := knob_run true first (readings ++ [r]) in
  0 <= LEDscale k - prevLEDScale k <= POT_THRES /\
  (r / 4 < prevLEDScale k0 -> brightness k = r / 4).
Proof.
  intros Hrs Hr k0 k.
  destruct (knob_run_applied true first readings Hrs) as [Hp _].
  fold k0 in Hp.
  assert (Hk : k = knob_loop true k0 r)
    by (unfold k, k0, knob_run; now rewrite fold_left_app).
  rewrite Hk. unfold knob_loop. rewrite knob_scale by exact Hr.
  pose proof (quarter_range r Hr) as Hq.
  unfold abs_diff, u16, POT_THRES.
  destruct (Z.gtb_spec ((r / 4 - prevLEDScale k0) mod 65536) 20) as [Hgt|Hle];
    cbn [LEDscale prevLEDScale brightness].
  - split; [lia|]. intros _. apply u8_small. lia.
  - assert (Hd : 0 <= r / 4 - prevLEDScale k0).
    { destruct (Z_lt_le_dec (r / 4 - prevLEDScale k0) 0) as [Hneg|Hpos];
        [|exact Hpos].
      replace ((r / 4 - prevLEDScale k0) mod 65536)
        with (r / 4 - prevLEDScale k0 + 65536) in Hle; [lia|].
      apply Z.mod_unique with (q := -1); lia. }
    rewrite Z.mod_small in Hle by lia. split; [lia|]. intros Hlt. lia.
Qed.

Lemma knob_16bit_follows_down_witness :
  brightness (knob_run true 400 [400; 396]) = 99 /\
  brightness (knob_run false 400 [400; 396]) = 100.
Proof.
  split.
  - destruct (knob_16bit_follows_down 400 [400] 396
                ltac:(repeat (constructor; [lia|]); constructor) ltac:(lia))
      as [_ H].
    apply H. vm_compute. reflexivity.
  - reflexivity.
Defined.

(** X17.  What a serial exchange does to what the lamp shows and to what
    is selected.  An exchange that returns, or that waits without end,
    leaves the record loaded, the record the rendering engine has, the
    button machine and [lastMode] as they were: what a call of [loop]
    shows after it comes from the load that follows.  An exchange that
    resets the machine puts the selection back to slot 0: after the
    restart [lastMode] is 0, the button machine is in its initial state,
    and the record loaded and shown is the one slot 0 held before the
    exchange. *)
Theorem serial_exchange_display (L : layout) (s : sys) :
  match handleSerial L s with
  | Ret _ s' =>
      currentAnim s' = currentAnim s /\ animator s' = animator s /\
      buttons s' = buttons s /\ lastMode s' = lastMode s
  | Spin s' =>
      currentAnim s' = currentAnim s /\ animator s' = animator s /\
      buttons s' = buttons s /\ lastMode s' = lastMode s
  | Reset s' =>
      let r := final (restart L s') in
      lastMode r = 0 /\ buttons r = fsm_init /\
      currentAnim r = EEPROM_get L (slot_addr L 0) (eeprom s) /\
      animator r = currentAnim r
  end.
Proof.
  pose proof (keeps_handleSerial L currentAnim ltac:(repeat split) s) as K1.
  pose proof (keeps_handleSerial L animator ltac:(repeat split) s) as K2.
  pose proof (keeps_handleSerial L buttons store_blind_buttons s) as K3.
  pose proof (keeps_handleSerial L lastMode store_blind_lastMode s) as K4.
  pose proof (handleSerial_writes_on_return L s) as Kw.
  destruct (handleSerial L s) as [u s'|s'|s']; cbn [final] in *.
  - repeat split; assumption.
  - destruct Kw as [(u & s1 & H)|He]; [discriminate|].
    cbv zeta. unfold restart, setup.
    unfold bind, Serial_println, Serial_write, EEPROM_Load, updateAnimation,
      modify.
    cbn [final lastMode buttons currentAnim animator eeprom set_animator
           set_currentAnim set_tx set_lastMode set_buttons].
    rewrite He. repeat split.
  - repeat split; assumption.
Qed.

(** A refused upload while slot 1 is selected and shown: after the reset
    slot 0 is selected and shown. *)
Example reset_selects_slot_0 :
  lastMode selected_1 = 1 /\ animator selected_1 = blue_anim /\
  exists s',
    handleSerial xiao_layout
      (set_world (bytes_at 0 [50; 45] ++ upload_nack_world) selected_1)
    = Reset s' /\
    lastMode (final (restart xiao_layout s')) = 0 /\
    animator (final (restart xiao_layout s')) = red_anim.
Proof.
  split; [reflexivity|]. split; [vm_compute; reflexivity|].
  eexists. split; [vm_compute; reflexivity|].
  split; vm_compute; reflexivity.
Qed.
